(** * Capture Moments: the booking and pricing core

    A shallow embedding of the scheduling engine, the pricing engine
    (src/ai_features.py) and the two booking handlers (src/app.py,
    src/app_demo.py), with the properties of the specification stated
    and settled against it.  Further sections model the review topics and
    sentiment labels, the pricing endpoint of the demo application, its
    accounts, and the access control of both applications, with properties
    read off the code.

    Conventions.  Python [str] values are [string]s of ASCII characters;
    Python [int] is [Z]; Python [float] is IEEE-754 binary64, modelled by
    the Standard Library's executable [spec_float] at precision 53 and
    maximal exponent 1024.  A Python call that may raise returns an
    [option]: [None] stands for "an exception was raised". *)

From Stdlib Require Import ZArith List Bool String Ascii Lia.
From Stdlib Require Import Floats.SpecFloat.
From Stdlib Require Import Sorting.Sorted Sorting.Permutation.
Import ListNotations.

Open Scope string_scope.
Open Scope Z_scope.

(* ================================================================== *)
(** * Python strings *)

Module PyStr.

Definition is_upper (c : ascii) : bool :=
  let n := nat_of_ascii c in (65 <=? n)%nat && (n <=? 90)%nat.

Definition lower_ascii (c : ascii) : ascii :=
  if is_upper c then ascii_of_nat (nat_of_ascii c + 32) else c.

(** [s.lower()] *)
Fixpoint lower (s : string) : string :=
  match s with
  | EmptyString => EmptyString
  | String c r => String (lower_ascii c) (lower r)
  end.

(** [needle in haystack] *)
Fixpoint contains (needle haystack : string) : bool :=
  if prefix needle haystack then true
  else match haystack with
       | EmptyString => false
       | String _ r => contains needle r
       end.

(** [s.split(sep)[0]]: the characters before the first [sep]. *)
Fixpoint split_head (sep : ascii) (s : string) : string :=
  match s with
  | EmptyString => EmptyString
  | String c r => if Ascii.eqb c sep then EmptyString
                  else String c (split_head sep r)
  end.

Definition is_digit (c : ascii) : bool :=
  let n := nat_of_ascii c in (48 <=? n)%nat && (n <=? 57)%nat.

Definition digit_val (c : ascii) : Z := Z.of_nat (nat_of_ascii c) - 48.

(** The characters [int] skips around a number: space, \t \n \v \f \r. *)
Definition is_space (c : ascii) : bool :=
  let n := nat_of_ascii c in
  ((9 <=? n)%nat && (n <=? 13)%nat) || (n =? 32)%nat.

Fixpoint lstrip (l : list ascii) : list ascii :=
  match l with
  | c :: r => if is_space c then lstrip r else l
  | [] => []
  end.

Definition strip (l : list ascii) : list ascii :=
  rev (lstrip (rev (lstrip l))).

(** Decimal digits with single underscores allowed between digits.
    [expect] is true where a digit is required: at the start and right
    after an underscore. *)
Fixpoint digits (l : list ascii) (acc : Z) (expect : bool) : option Z :=
  match l with
  | [] => if expect then None else Some acc
  | c :: r =>
      if is_digit c then digits r (acc * 10 + digit_val c) false
      else if Ascii.eqb c "_"%char
           then (if expect then None else digits r acc true)
           else None
  end.

(** CPython's default limit on the number of digits [int] converts. *)
Definition max_str_digits : nat := 4300.

Definition unsigned (l : list ascii) : option Z :=
  if (List.length (filter is_digit l) <=? max_str_digits)%nat
  then digits l 0 true else None.

(** [int(s)] in base 10; [None] is ValueError. *)
Definition int (s : string) : option Z :=
  match strip (list_ascii_of_string s) with
  | c :: r =>
      if Ascii.eqb c "-"%char then option_map Z.opp (unsigned r)
      else if Ascii.eqb c "+"%char then unsigned r
      else unsigned (c :: r)
  | [] => None
  end.

End PyStr.

(* ================================================================== *)
(** * Booking records and the bookings store *)

Module Store.

(** A booking item.  An optional string field is [None] when the item
    has no such key or holds [None], as [booking.get(key)] reads it;
    [duration] is [None] when the item has no such key, where readers take
    2.  [booking_id] is the key of the store. *)
Record Booking : Type := mkBooking {
  booking_id : string;
  user_id : string;
  photographer_id : option string;
  event_date : option string;
  event_time : option string;
  event_type : option string;
  location : option string;
  duration : option Z;
  special_requirements : option string;
  booking_status : option string;
  created_at : string;
  client_name : string;
  client_email : option string
}.

(** The store maps identifiers to bookings and keeps insertion order, as a
    Python dict does ([mock_db['bookings']]); the bookings table is keyed
    the same way. *)
Definition bookings : Type := list (string * Booking).

Fixpoint lookup (k : string) (db : bookings) : option Booking :=
  match db with
  | [] => None
  | (k', b) :: r => if String.eqb k k' then Some b else lookup k r
  end.

(** [db[k] = b] and [put_item]: an existing key keeps its place and takes
    the new item, a new key goes last. *)
Fixpoint put (k : string) (b : Booking) (db : bookings) : bookings :=
  match db with
  | [] => [(k, b)]
  | (k', b') :: r =>
      if String.eqb k k' then (k, b) :: r else (k', b') :: put k b r
  end.

Definition values (db : bookings) : list Booking := map snd db.

Definition opt_eqb (a b : option string) : bool :=
  match a, b with
  | Some x, Some y => String.eqb x y
  | None, None => true
  | _, _ => false
  end.

(** [booking.get('booking_status') in ['confirmed', 'pending']] *)
Definition active (b : Booking) : bool :=
  opt_eqb (booking_status b) (Some "confirmed")
  || opt_eqb (booking_status b) (Some "pending").

End Store.

(* ================================================================== *)
(** * The availability check: [SchedulingEngine.is_slot_available] *)

Module Availability.

(** [int(t.split(':')[0])] *)
Definition hour_of (t : string) : option Z :=
  PyStr.int (PyStr.split_head ":"%char t).

(** The same on a stored start time, which is [None] when the booking
    has no [event_time]: [None.split] raises. *)
Definition booked_hour (t : option string) : option Z :=
  match t with
  | Some s => hour_of s
  | None => None
  end.

(** The test of the loop body, on hours:
    [not (end_hour <= booked_start_hour or start_hour >= booked_end_hour)] *)
Definition overlaps (start_hour end_hour : Z) (booked : Z * Z) : bool :=
  let '(booked_start_hour, booked_duration) := booked in
  let booked_end_hour := booked_start_hour + booked_duration in
  negb ((end_hour <=? booked_start_hour) || (start_hour >=? booked_end_hour)).

(** The [for] loop: the first overlapping entry returns [False]; an entry
    whose start time does not convert raises when the loop reaches it. *)
Fixpoint scan (start_hour end_hour : Z)
         (booked_slots : list (option string * Z)) : option bool :=
  match booked_slots with
  | [] => Some true
  | (booked_start, booked_duration) :: rest =>
      match booked_hour booked_start with
      | None => None
      | Some booked_start_hour =>
          if overlaps start_hour end_hour (booked_start_hour, booked_duration)
          then Some false
          else scan start_hour end_hour rest
      end
  end.

Definition is_slot_available (start_time : string) (duration : Z)
           (booked_slots : list (option string * Z)) : option bool :=
  match hour_of start_time with
  | None => None
  | Some start_hour =>
      let end_hour := start_hour + duration in
      scan start_hour end_hour booked_slots
  end.

(** The booked slots read as hours, when every start time converts. *)
Fixpoint hours (booked_slots : list (option string * Z))
  : option (list (Z * Z)) :=
  match booked_slots with
  | [] => Some []
  | (t, d) :: rest =>
      match booked_hour t, hours rest with
      | Some h, Some hs => Some ((h, d) :: hs)
      | _, _ => None
      end
  end.

(** The half-open interval rule of the specification:
    [a1,a2) and [b1,b2) overlap iff NOT (a2 <= b1 OR a1 >= b2). *)
Definition intervals_overlap (a1 a2 b1 b2 : Z) : Prop :=
  ~ (a2 <= b1 \/ a1 >= b2).

End Availability.

(* ================================================================== *)
(** * Python floats: IEEE-754 binary64 *)

Module PyFloat.

Definition prec : Z := 53.
Definition emax : Z := 1024.

Definition float : Type := spec_float.

Definition add : float -> float -> float := SFadd prec emax.
Definition sub : float -> float -> float := SFsub prec emax.
Definition mul : float -> float -> float := SFmul prec emax.
Definition div : float -> float -> float := SFdiv prec emax.

(** [float(n)] for an [int] n. *)
Definition of_int (n : Z) : float := binary_normalize prec emax n 0 false.

(** The literal [n/d] written in decimal: the binary64 nearest to it,
    as the parser of float literals returns. *)
Definition lit (n d : Z) : float := div (of_int n) (of_int d).

(** [a < b], [a > b], [a <= b], [a >= b], [a == b] *)
Definition lt (a b : float) : bool := SFltb a b.
Definition gt (a b : float) : bool := SFltb b a.
Definition le (a b : float) : bool := SFleb a b.
Definition ge (a b : float) : bool := SFleb b a.
Definition eq (a b : float) : bool := SFeqb a b.

(** The builtins [max(a, b)] and [min(a, b)]: the first argument is kept
    unless the second compares strictly beyond it. *)
Definition max (a b : float) : float := if gt b a then b else a.
Definition min (a b : float) : float := if lt b a then b else a.

(** The integer nearest to [num * 2^e], ties to even. *)
Definition half_even (num e : Z) : Z :=
  if 0 <=? e then num * 2 ^ e
  else
    let d := 2 ^ (- e) in
    let q := num / d in
    let r := num mod d in
    match 2 * r ?= d with
    | Lt => q
    | Gt => q + 1
    | Eq => if Z.even q then q else q + 1
    end.

(** [round(x, 2)]: the exact value of [x] is rounded half-even to two
    decimals and the decimal result is read back as the nearest float;
    infinities and NaN round to themselves. *)
Definition round2 (x : float) : float :=
  match x with
  | S754_finite s m e =>
      match half_even (Zpos m * 100) e with
      | Zpos n => div (S754_finite s n 0) (of_int 100)
      | _ => S754_zero s
      end
  | _ => x
  end.

(** ** The order of floats, read off their representation

    Every float but NaN has a rank: a triple compared lexicographically.
    Negative infinity, negative finite numbers (larger exponent and
    mantissa being further down), the two zeros, positive finite numbers,
    positive infinity. *)
Definition is_nan (x : float) : bool :=
  match x with
  | S754_nan => true
  | _ => false
  end.

Definition rank (x : float) : Z * Z * Z :=
  match x with
  | S754_infinity true => (-2, 0, 0)
  | S754_finite true m e => (-1, - e, Zneg m)
  | S754_zero _ => (0, 0, 0)
  | S754_finite false m e => (1, e, Zpos m)
  | S754_infinity false => (2, 0, 0)
  | S754_nan => (3, 0, 0)
  end.

Definition rank_lt (a b : Z * Z * Z) : Prop :=
  let '(a1, a2, a3) := a in
  let '(b1, b2, b3) := b in
  a1 < b1 \/ (a1 = b1 /\ (a2 < b2 \/ (a2 = b2 /\ a3 < b3))).

Definition rank_le (a b : Z * Z * Z) : Prop := rank_lt a b \/ a = b.

End PyFloat.

(* ================================================================== *)
(** * Rounding to nearest, ties to even, in integer arithmetic

    The arithmetic on which the monotonicity of the float operations is
    proved.  A non-negative ratio [N/D], read at exponent [e], is known to
    the rounding of the library through a code: four times its integer
    part, plus 0 when it is that integer, 1 when it lies below the next
    half, 2 when it is the half, 3 when it lies above. *)

Module Rounding.

Import PyFloat.

(** The code of the ratio [N/D]. *)
Definition kappa (N D : Z) : Z :=
  2 * (2 * N / D) + (if (2 * N) mod D =? 0 then 0 else 1).

(** The integer nearest to a coded ratio, ties to even. *)
Definition rne (c : Z) : Z :=
  c / 4 + (if (c mod 4 =? 3) || ((c mod 4 =? 2) && Z.odd (c / 4)) then 1 else 0).

(** The code a shift record of the library stands for. *)
Definition rec_code (r : shr_record) : Z :=
  4 * shr_m r + (if shr_r r then 2 else 0) + (if shr_s r then 1 else 0).

Definition loc_code (l : location) : Z :=
  match l with
  | loc_Exact => 0
  | loc_Inexact Lt => 1
  | loc_Inexact Eq => 2
  | loc_Inexact Gt => 3
  end.

(** The float of a rounded mantissa and its exponent. *)
Definition finish (s : bool) (m e : Z) : spec_float :=
  match m with
  | Z0 => S754_zero s
  | Zpos p => if e <=? emax - prec then S754_finite s p e else S754_infinity s
  | Zneg _ => S754_nan
  end.

(** The float nearest to [N/D * 2^e]: what [binary_round_aux] computes,
    written with divisions in place of its bit shifts. *)
Definition round_ratio (s : bool) (N D e : Z) : spec_float :=
  let e1 := Z.max e (fexp prec emax (Zdigits2 (N / D) + e)) in
  let m1 := rne (kappa N (D * 2 ^ (e1 - e))) in
  let e2 := Z.max e1 (fexp prec emax (Zdigits2 m1 + e1)) in
  finish s (m1 / 2 ^ (e2 - e1)) e2.

(** The least exponent of binary64. *)
Definition emin : Z := -1074.

(** The ratio is given finely enough: the first shift is not negative. *)
Definition fine (N D e : Z) : Prop :=
  e <= fexp prec emax (Zdigits2 (N / D) + e).

(** The value order of two positive finite numbers, on mantissas and
    exponents. *)
Definition vle (m1 : positive) (e1 : Z) (m2 : positive) (e2 : Z) : Prop :=
  Zpos m1 * 2 ^ (e1 - Z.min e1 e2) <= Zpos m2 * 2 ^ (e2 - Z.min e1 e2).

(** A binary64 value: a finite float has a canonical mantissa and an
    exponent in range. *)
Definition valid (x : float) : Prop := valid_binary prec emax x = true.

(** A float at least one half: positive, finite with a full mantissa, or
    infinite. *)
Definition Good (x : float) : Prop := valid x /\ le (lit 5 10) x = true.

(** A float at least one. *)
Definition Big (x : float) : Prop := valid x /\ le (lit 10 10) x = true.

End Rounding.

(* ================================================================== *)
(** * Dates: [datetime.strptime(s, '%Y-%m-%d')], [weekday()], [month] *)

Module PyDate.

Record date : Type := mkdate { year : Z; month : Z; day : Z }.

Definition is_leap (y : Z) : bool :=
  (y mod 4 =? 0) && (negb (y mod 100 =? 0) || (y mod 400 =? 0)).

Definition days_in_month (y m : Z) : Z :=
  if m =? 2 then (if is_leap y then 29 else 28)
  else if (m =? 4) || (m =? 6) || (m =? 9) || (m =? 11) then 30
  else 31.

Definition days_before_year (y : Z) : Z :=
  let p := y - 1 in p * 365 + p / 4 - p / 100 + p / 400.

Fixpoint days_in_months (y : Z) (months : list Z) : Z :=
  match months with
  | [] => 0
  | m :: r => days_in_month y m + days_in_months y r
  end.

Definition days_before_month (y m : Z) : Z :=
  days_in_months y (filter (fun k => k <? m) [1; 2; 3; 4; 5; 6; 7; 8; 9; 10; 11]).

Definition toordinal (d : date) : Z :=
  days_before_year (year d) + days_before_month (year d) (month d) + day d.

(** Monday is 0, Sunday is 6. *)
Definition weekday (d : date) : Z := (toordinal d + 6) mod 7.

Definition MINYEAR : Z := 1.
Definition MAXYEAR : Z := 9999.

(** The largest ordinal a date has: 9999-12-31. *)
Definition max_ordinal : Z := 3652059.

Definition valid (d : date) : bool :=
  (MINYEAR <=? year d) && (year d <=? MAXYEAR) &&
  (1 <=? month d) && (month d <=? 12) &&
  (1 <=? day d) && (day d <=? days_in_month (year d) (month d)).

Definition digit_in (lo hi : Z) (c : ascii) : bool :=
  PyStr.is_digit c && (lo <=? PyStr.digit_val c) && (PyStr.digit_val c <=? hi).

Definition is_char (k c : ascii) : bool := Ascii.eqb c k.

(** The month group [1[0-2]|0[1-9]|[1-9]] followed by the dash of the
    format: the month and what is left after the dash. *)
Definition parse_month (l : list ascii) : option (Z * list ascii) :=
  match l with
  | c1 :: c2 :: rest =>
      if is_char "-" c2 then
        (if digit_in 1 9 c1 then Some (PyStr.digit_val c1, rest) else None)
      else
        match rest with
        | c3 :: rest' =>
            if is_char "-" c3 then
              if is_char "1" c1 && digit_in 0 2 c2
              then Some (10 + PyStr.digit_val c2, rest')
              else if is_char "0" c1 && digit_in 1 9 c2
              then Some (PyStr.digit_val c2, rest')
              else None
            else None
        | [] => None
        end
  | _ => None
  end.

(** The day group [3[01]|[12]\d|0[1-9]|[1-9]| [1-9]], which must end the
    input: anything left over is "unconverted data remains". *)
Definition parse_day (l : list ascii) : option Z :=
  match l with
  | [c1] => if digit_in 1 9 c1 then Some (PyStr.digit_val c1) else None
  | [c1; c2] =>
      if is_char "3" c1 && digit_in 0 1 c2 then Some (30 + PyStr.digit_val c2)
      else if digit_in 1 2 c1 && PyStr.is_digit c2
      then Some (10 * PyStr.digit_val c1 + PyStr.digit_val c2)
      else if (is_char "0" c1 || is_char " " c1) && digit_in 1 9 c2
      then Some (PyStr.digit_val c2)
      else None
  | _ => None
  end.

(** [datetime.strptime(s, '%Y-%m-%d')]; [None] is ValueError. *)
Definition strptime (s : string) : option date :=
  match list_ascii_of_string s with
  | y1 :: y2 :: y3 :: y4 :: dash :: rest =>
      if PyStr.is_digit y1 && PyStr.is_digit y2 && PyStr.is_digit y3 &&
         PyStr.is_digit y4 && is_char "-" dash
      then
        match parse_month rest with
        | Some (m, rest') =>
            match parse_day rest' with
            | Some d =>
                let y := 1000 * PyStr.digit_val y1 + 100 * PyStr.digit_val y2
                         + 10 * PyStr.digit_val y3 + PyStr.digit_val y4 in
                let r := mkdate y m d in
                if valid r then Some r else None
            | None => None
            end
        | None => None
        end
      else None
  | _ => None
  end.

End PyDate.

(* ================================================================== *)
(** * The scheduling engine: [SchedulingEngine] *)

Module Scheduling.

Import PyFloat.

(** [self.time_slots] *)
Definition time_slots : list string :=
  ["09:00"; "10:00"; "11:00"; "12:00"; "13:00"; "14:00";
   "15:00"; "16:00"; "17:00"; "18:00"; "19:00"; "20:00"].

(** [hour in [a, b, c]] *)
Definition hour_in (hour : Z) (l : list Z) : bool := existsb (Z.eqb hour) l.

(** [date_obj.weekday() >= 5] *)
Definition is_weekend (date_obj : PyDate.date) : bool :=
  PyDate.weekday date_obj >=? 5.

(** The additive part of the score, before the date is looked at. *)
Definition hour_score (hour : Z) : float :=
  let score := lit 5 10 in
  let score := if hour_in hour [16; 17; 18]
               then add score (lit 3 10) else score in
  let score := if hour_in hour [10; 11; 12]
               then add score (lit 2 10) else score in
  let score := if (hour <? 9) || (hour >? 19)
               then sub score (lit 2 10) else score in
  score.

(** The score just before the final [min(1.0, max(0.0, score))]. *)
Definition raw_score (hour : Z) (weekend : bool) : float :=
  let score := hour_score hour in
  if weekend then add score (lit 1 10) else score.

Definition calculate_slot_score (time_slot date : string) (duration : Z)
  : option float :=
  match Availability.hour_of time_slot with
  | None => None
  | Some hour =>
      let score := hour_score hour in
      match PyDate.strptime date with
      | None => None
      | Some date_obj =>
          let score := if is_weekend date_obj
                       then add score (lit 1 10) else score in
          Some (min (lit 10 10) (max (lit 0 10) score))
      end
  end.

(** An entry of the returned list. *)
Record Slot : Type := mkSlot {
  time : string;
  score : float;
  recommended : bool
}.

(** The index query: the items of one photographer on one date. *)
Definition query (table : Store.bookings) (photographer_id date : string)
  : list Store.Booking :=
  filter (fun b => Store.opt_eqb (Store.photographer_id b) (Some photographer_id)
                   && Store.opt_eqb (Store.event_date b) (Some date))
         (Store.values table).

(** The first loop: [(event_time, int(duration or 2))] of every confirmed
    or pending item. *)
Definition booked_slots_of (items : list Store.Booking)
  : list (option string * Z) :=
  map (fun b => (Store.event_time b,
                 match Store.duration b with Some d => d | None => 2 end))
      (filter Store.active items).

(** The second loop, over the catalog; [None] when a call raised. *)
Fixpoint available_slots (slots : list string) (date : string) (duration : Z)
         (booked_slots : list (option string * Z)) : option (list Slot) :=
  match slots with
  | [] => Some []
  | slot :: rest =>
      match Availability.is_slot_available slot duration booked_slots with
      | None => None
      | Some false => available_slots rest date duration booked_slots
      | Some true =>
          match calculate_slot_score slot date duration with
          | None => None
          | Some score =>
              match available_slots rest date duration booked_slots with
              | None => None
              | Some l =>
                  Some (mkSlot slot score (gt score (lit 7 10)) :: l)
              end
          end
      end
  end.

(** [list.sort(key=lambda x: x['score'], reverse=True)].  The sort is
    stable also with [reverse=True]: entries come out by decreasing key and
    entries of equal key keep the order they had.  Insertion from the right,
    placing an entry before the first one whose key is not greater, is that
    arrangement. *)
Fixpoint insert_by_score (x : Slot) (l : list Slot) : list Slot :=
  match l with
  | [] => [x]
  | y :: r => if lt (score x) (score y) then y :: insert_by_score x r
              else x :: l
  end.

Definition sort_by_score (l : list Slot) : list Slot :=
  fold_right insert_by_score [] l.

(** Any exception in the body is caught and gives the empty list. *)
Definition find_optimal_slots (table : Store.bookings)
           (photographer_id date : string) (duration : Z) : list Slot :=
  let existing_bookings := query table photographer_id date in
  let booked_slots := booked_slots_of existing_bookings in
  match available_slots time_slots date duration booked_slots with
  | Some l => sort_by_score l
  | None => []
  end.

(** The endpoint [/api/optimal-slots]. *)
Inductive response : Type :=
| Ok200 (available_slots : list Slot)
| BadRequest400
| ServerError500.

(** [not v] for a query argument. *)
Definition missing (v : option string) : bool :=
  match v with
  | None => true
  | Some s => String.eqb s ""
  end.

(** [int(request.args.get('duration', 2))] is evaluated first and escapes
    the view when the text does not convert. *)
Definition get_optimal_slots (table : Store.bookings)
           (photographer_id date duration : option string) : response :=
  match (match duration with Some s => PyStr.int s | None => Some 2 end) with
  | None => ServerError500
  | Some duration =>
      match photographer_id, date with
      | Some p, Some d =>
          if missing photographer_id || missing date then BadRequest400
          else Ok200 (find_optimal_slots table p d duration)
      | _, _ => BadRequest400
      end
  end.

(** What holds of every entry the second loop appends. *)
Definition entry_ok (date : string) (duration : Z) (slot : Slot) : Prop :=
  calculate_slot_score (time slot) date duration = Some (score slot)
  /\ recommended slot = gt (score slot) (lit 7 10).

(** [a] starts at an earlier hour than [b]. *)
Definition earlier_time (t u : string) : bool :=
  match Availability.hour_of t, Availability.hour_of u with
  | Some x, Some y => x <? y
  | _, _ => false
  end.

(** The order the specification asks of the returned list: scores do not
    increase, and of two entries with equal scores the one that starts
    earlier comes first. *)
Definition ranked_before (a b : Slot) : Prop :=
  ge (score a) (score b) = true /\
  (eq (score a) (score b) = true -> earlier_time (time a) (time b) = true).

(** The score formula in the words of the specification: base 0.5, plus
    0.3, 0.2, minus 0.2, plus 0.1 times the indicator of each condition,
    clamped to [0,1]; evaluated left to right in binary64. *)
Definition indicator (b : bool) : float := if b then lit 10 10 else lit 0 10.

Definition clamp (x lo hi : float) : float :=
  if lt x lo then lo else if gt x hi then hi else x.

Definition spec_score (hour : Z) (saturday_or_sunday : bool) : float :=
  clamp
    (add (sub (add (add (lit 5 10)
                        (mul (lit 3 10) (indicator (hour_in hour [16; 17; 18]))))
                   (mul (lit 2 10) (indicator (hour_in hour [10; 11; 12]))))
              (mul (lit 2 10) (indicator ((hour <? 9) || (hour >? 19)))))
         (mul (lit 1 10) (indicator saturday_or_sunday)))
    (lit 0 10) (lit 10 10).

End Scheduling.

(* ================================================================== *)
(** * The pricing engine: [PricingEngine] *)

Module Pricing.

Import PyFloat.

Definition base_prices : list (string * Z) :=
  [("wedding", 1500); ("portrait", 300); ("event", 800);
   ("commercial", 1200); ("family", 400)].

Definition location_multipliers : list (string * float) :=
  [("mumbai", lit 15 10); ("delhi", lit 14 10); ("bangalore", lit 13 10);
   ("hyderabad", lit 12 10); ("chennai", lit 12 10); ("pune", lit 11 10)].

(** [d.get(k, default)] *)
Fixpoint get {A : Type} (k : string) (d : list (string * A)) (default : A) : A :=
  match d with
  | [] => default
  | (k', v) :: r => if String.eqb k k' then v else get k r default
  end.

(** The loop over the cities in table order, with its [break]. *)
Fixpoint first_city (location_lower : string) (table : list (string * float))
         (location_multiplier : float) : float :=
  match table with
  | [] => location_multiplier
  | (city, multiplier) :: r =>
      if PyStr.contains city location_lower then multiplier
      else first_city location_lower r location_multiplier
  end.

(** [calculate_demand_multiplier].  The two [timedelta] shifts raise
    OverflowError when they leave the range of dates; the bare [except]
    turns that, like a date that does not parse, into 1.0. *)
Definition calculate_demand_multiplier (date location : string) : float :=
  match PyDate.strptime date with
  | None => lit 10 10
  | Some date_obj =>
      if (PyDate.toordinal date_obj - 30 <? 1)
         || (PyDate.max_ordinal <? PyDate.toordinal date_obj + 30)
      then lit 10 10
      else if PyDate.weekday date_obj >=? 5 then lit 12 10
      else if Scheduling.hour_in (PyDate.month date_obj) [11; 12; 1; 2; 5; 6]
           then lit 115 100
      else lit 10 10
  end.

(** A number of the returned dict: an [int] or a [float]. *)
Inductive num : Type :=
| Int (n : Z)
| Float (f : float).

(** The returned dict; [factors] is the inner dict, in key order. *)
Record Quote : Type := mkQuote {
  base_price : Z;
  final_price : num;
  factors : list (string * float)
}.

Definition fallback : Quote := mkQuote 500 (Int 500) [].

Definition calculate_dynamic_price (event_type location date : string)
           (duration photographer_rating : float) : Quote :=
  let base_price := get (PyStr.lower event_type) base_prices 500 in
  let location_multiplier :=
    first_city (PyStr.lower location) location_multipliers (lit 10 10) in
  match PyDate.strptime date with
  | None => fallback
  | Some date_obj =>
      let date_multiplier := lit 10 10 in
      let date_multiplier :=
        if PyDate.weekday date_obj >=? 5
        then add date_multiplier (lit 2 10) else date_multiplier in
      let date_multiplier :=
        if Scheduling.hour_in (PyDate.month date_obj) [12; 5; 6]
        then add date_multiplier (lit 15 100) else date_multiplier in
      let duration_multiplier := max (lit 10 10) (div duration (lit 20 10)) in
      let rating_multiplier :=
        max (lit 8 10) (div photographer_rating (lit 50 10)) in
      let demand_multiplier := calculate_demand_multiplier date location in
      let final_price :=
        mul (mul (mul (mul (mul (of_int base_price) location_multiplier)
                           date_multiplier)
                      duration_multiplier)
                 rating_multiplier)
            demand_multiplier in
      mkQuote base_price (Float (round2 final_price))
              [("location_multiplier", location_multiplier);
               ("date_multiplier", date_multiplier);
               ("duration_multiplier", duration_multiplier);
               ("rating_multiplier", rating_multiplier);
               ("demand_multiplier", demand_multiplier)]
  end.

(** Numeric comparison of a returned number with an [int], as [==]. *)
Definition num_eq_int (x : num) (n : Z) : bool :=
  match x with
  | Int k => k =? n
  | Float f => eq f (of_int n)
  end.

End Pricing.

(* ================================================================== *)
(** * The booking handlers *)

Module Orchestrator.

Import Store.

(** The logged-in user, as the login handler fills the session. *)
Record Session : Type := mkSession {
  s_user_id : string;
  s_username : string;
  s_email : string
}.

(** The bookings a handler finds in the way of a request: every confirmed
    or pending booking of the photographer on the date.  The event time and
    the duration of the request are not read. *)
Definition same_day (photographer_id event_date : option string)
           (booking : Booking) : bool :=
  opt_eqb (Store.photographer_id booking) photographer_id
  && opt_eqb (Store.event_date booking) event_date
  && active booking.

(** ** [book_photographer_api] of src/app_demo.py *)

(** The value under ['duration'] in the posted JSON object: absent, a
    whole number, a string or null. *)
Inductive json_duration : Type :=
| Absent
| Number (n : Z)
| Text (s : string)
| Null.

(** [int(data.get('duration', 2))]; [None] when [int] raises. *)
Definition int_duration (v : json_duration) : option Z :=
  match v with
  | Absent => Some 2
  | Number n => Some n
  | Text s => PyStr.int s
  | Null => None
  end.

Record ApiRequest : Type := mkApiRequest {
  r_photographer_id : option string;
  r_event_date : option string;
  r_event_time : option string;
  r_duration : json_duration
}.

Inductive ApiResponse : Type :=
| Unauthorized401
| Error500
| Conflict409 (conflicts : list Booking)
| Success200 (booking_id : string).

(** [uuid] is the fresh [uuid4] string and [now] the clock reading the
    handler takes.  The result is the response and the store afterwards. *)
Definition book_photographer_api (session : option Session) (uuid now : string)
           (data : ApiRequest) (db : bookings) : ApiResponse * bookings :=
  match session with
  | None => (Unauthorized401, db)
  | Some session =>
      match int_duration (r_duration data) with
      | None => (Error500, db)
      | Some duration =>
          let conflicts :=
            filter (same_day (r_photographer_id data) (r_event_date data))
                   (values db) in
          match conflicts with
          | _ :: _ => (Conflict409 conflicts, db)
          | [] =>
              let booking_id := uuid in
              let booking :=
                mkBooking booking_id (s_user_id session)
                          (r_photographer_id data) (r_event_date data)
                          (r_event_time data) None None (Some duration) None
                          (Some "pending") now (s_username session) None in
              (Success200 booking_id, put booking_id booking db)
          end
      end
  end.

(** ** [book_photographer] of src/app.py, the POST branch *)

Record Form : Type := mkForm {
  f_event_date : option string;
  f_event_time : option string;
  f_event_type : option string;
  f_location : option string;
  f_duration : option string;
  f_special_requirements : option string
}.

(** What the handler flashes before it redirects. *)
Inductive Outcome : Type :=
| MissingFields
| NotAvailable
| CreateError
| Submitted.

(** A form value is truthy when present and not empty. *)
Definition filled (v : option string) : bool :=
  match v with
  | Some s => negb (String.eqb s "")
  | None => false
  end.

Definition or_default (v : option string) (d : string) : string :=
  match v with
  | Some s => s
  | None => d
  end.

Definition book_photographer (session : Session) (uuid now : string)
           (photographer_id : string) (data : Form) (table : bookings)
  : Outcome * bookings :=
  let duration := or_default (f_duration data) "2" in
  let special_requirements := or_default (f_special_requirements data) "" in
  if negb (filled (f_event_date data) && filled (f_event_time data)
           && filled (f_event_type data) && filled (f_location data))
  then (MissingFields, table)
  else
    let existing_bookings :=
      filter (same_day (Some photographer_id) (f_event_date data))
             (values table) in
    match existing_bookings with
    | _ :: _ => (NotAvailable, table)
    | [] =>
        let booking_id := uuid in
        match PyStr.int duration with
        | None => (CreateError, table)
        | Some duration =>
            let booking_data :=
              mkBooking booking_id (s_user_id session)
                        (Some photographer_id) (f_event_date data)
                        (f_event_time data) (f_event_type data)
                        (f_location data) (Some duration)
                        (Some special_requirements) (Some "pending") now
                        (s_username session) (Some (s_email session)) in
            (Submitted, put booking_id booking_data table)
        end
    end.

(** The window test the specification asks of a submission: the booked
    slots of the photographer on the date, handed to the availability
    check of the scheduling engine. *)
Definition window_free (db : bookings) (photographer_id event_date : string)
           (event_time : string) (duration : Z) : option bool :=
  Availability.is_slot_available event_time duration
    (Scheduling.booked_slots_of
       (Scheduling.query db photographer_id event_date)).

(** Sample data: a pending booking 10:00-12:00 of photographer p1 on
    2024-03-04, and a logged-in client. *)
Definition booked_morning : Booking :=
  mkBooking "b1" "u9" (Some "p1") (Some "2024-03-04") (Some "10:00")
            (Some "portrait") (Some "Pune") (Some 2) (Some "")
            (Some "pending") "2024-03-01T08:00:00" "Asha"
            (Some "asha@example.com").

Definition client : Session := mkSession "u1" "Ravi" "ravi@example.com".

End Orchestrator.

(* ================================================================== *)
(** * Notions the further properties are stated with *)

Module Derived.

(** The test the second loop of [find_optimal_slots] makes of a catalog
    time: the availability check answers yes. *)
Definition free (duration : Z) (booked_slots : list (option string * Z))
           (slot : string) : bool :=
  match Availability.is_slot_available slot duration booked_slots with
  | Some true => true
  | _ => false
  end.

(** At most one confirmed or pending booking per photographer and date. *)
Definition exclusive (db : Store.bookings) : Prop :=
  forall photographer_id event_date : option string,
    (List.length (filter (Orchestrator.same_day photographer_id event_date)
                         (Store.values db)) <= 1)%nat.

End Derived.

(* ================================================================== *)
(** * Review topics and sentiment: [extract_topics], [get_sentiment_insights],
    [analyze_sentiment], [analyze_feedback_sentiment] *)

Module Insights.

Import PyFloat.

Definition keywords : list (string * list string) :=
  [("communication", ["communication"; "responsive"; "contact"; "reply"]);
   ("quality", ["quality"; "professional"; "skill"; "talent"]);
   ("punctuality", ["time"; "punctual"; "late"; "early"; "schedule"]);
   ("pricing", ["price"; "cost"; "expensive"; "affordable"; "value"]);
   ("creativity", ["creative"; "artistic"; "unique"; "innovative"])].

(** [any(word in text for word in words)] *)
Definition any_in (words : list string) (text : string) : bool :=
  existsb (fun word => PyStr.contains word text) words.

(** The loop over the table, appending the topics that match. *)
Fixpoint matching (table : list (string * list string)) (text : string)
  : list string :=
  match table with
  | [] => []
  | (topic, words) :: r =>
      if any_in words text then topic :: matching r text else matching r text
  end.

Definition extract_topics (text : string) : list string :=
  match matching keywords text with
  | [] => ["general"]
  | topics => topics
  end.

(** A [defaultdict(list)], in insertion order of its keys. *)
Definition lists : Type := list (string * list float).

(** [d[k].append(v)] *)
Fixpoint append_to (k : string) (v : float) (d : lists) : lists :=
  match d with
  | [] => [(k, [v])]
  | (k', l) :: r =>
      if String.eqb k k' then (k', (l ++ [v])%list) :: r
      else (k', l) :: append_to k v r
  end.

(** A stored review.  [sentiment_score] is the result of [float(...)] on
    the stored value, [None] when the conversion raises. *)
Record Review : Type := mkReview {
  created_at : string;
  sentiment_score : option float;
  review_text : string
}.

(** The loop of [get_sentiment_insights] over the reviews: the two
    dictionaries of score lists, or [None] when a score does not convert
    (the handler then answers 500). *)
Fixpoint collect (reviews : list Review) (sentiment_trends topic_sentiments : lists)
  : option (lists * lists) :=
  match reviews with
  | [] => Some (sentiment_trends, topic_sentiments)
  | review :: r =>
      let created_date := substring 0 10 (created_at review) in
      match sentiment_score review with
      | None => None
      | Some score =>
          let sentiment_trends := append_to created_date score sentiment_trends in
          let topics := extract_topics (PyStr.lower (review_text review)) in
          let topic_sentiments :=
            fold_left (fun d topic => append_to topic score d)
                      topics topic_sentiments in
          collect r sentiment_trends topic_sentiments
      end
  end.

(** One entry of [topic_data]. *)
Record TopicData : Type := mkTopicData {
  average_sentiment : float;
  review_count : Z
}.

(** The averages; [sum] is the interpreter's sum of a list of floats.
    The lists of a [defaultdict] that was appended to are never empty; for
    an empty list the source gives the integer 0. *)
Definition average (sum : list float -> float) (scores : list float) : float :=
  match scores with
  | [] => of_int 0
  | _ => div (sum scores) (of_int (Z.of_nat (List.length scores)))
  end.

Record InsightsBody : Type := mkInsights {
  sentiment_trends : list (string * float);
  topic_sentiments : list (string * TopicData);
  total_reviews : Z
}.

Definition get_sentiment_insights (sum : list float -> float)
           (reviews : list Review) : option InsightsBody :=
  match collect reviews [] [] with
  | None => None
  | Some (trends, topics) =>
      Some (mkInsights
              (map (fun '(date, scores) => (date, average sum scores)) trends)
              (map (fun '(topic, scores) =>
                      (topic, mkTopicData (average sum scores)
                                          (Z.of_nat (List.length scores))))
                   topics)
              (Z.of_nat (List.length reviews)))
  end.

Inductive Sentiment : Type := positive | negative | neutral.

(** [analyze_sentiment] of the demo application, on the polarity TextBlob
    gives for the text; [None] stands for an exception raised there. *)
Definition analyze_sentiment (polarity : option float) : Sentiment * float :=
  match polarity with
  | Some polarity =>
      if gt polarity (lit 1 10) then (positive, polarity)
      else if lt polarity (SFopp (lit 1 10)) then (negative, polarity)
      else (neutral, polarity)
  | None => (neutral, lit 0 10)
  end.

Record Feedback : Type := mkFeedback {
  feedback_id : option string;
  message : option string
}.

Record Stats : Type := mkStats {
  n_positive : Z;
  n_negative : Z;
  n_neutral : Z
}.

(** [sentiment_stats[sentiment] += 1] *)
Definition bump (s : Stats) (sentiment : Sentiment) : Stats :=
  match sentiment with
  | positive => mkStats (n_positive s + 1) (n_negative s) (n_neutral s)
  | negative => mkStats (n_positive s) (n_negative s + 1) (n_neutral s)
  | neutral => mkStats (n_positive s) (n_negative s) (n_neutral s + 1)
  end.

Record Analyzed : Type := mkAnalyzed {
  a_feedback_id : option string;
  a_sentiment : Sentiment;
  a_score : float;
  text_preview : string
}.

(** [text[:100] + '...' if len(text) > 100 else text] *)
Definition preview (text : string) : string :=
  if (100 <? String.length text)%nat then substring 0 100 text ++ "..." else text.

(** The loop of [analyze_feedback_sentiment]. *)
Fixpoint analyze_all (textblob : string -> option float)
         (feedback_items : list Feedback) (sentiment_stats : Stats)
         (analyzed_feedback : list Analyzed) : Stats * list Analyzed :=
  match feedback_items with
  | [] => (sentiment_stats, analyzed_feedback)
  | feedback :: r =>
      let text := match message feedback with Some t => t | None => "" end in
      let '(sentiment, score) := analyze_sentiment (textblob text) in
      analyze_all textblob r (bump sentiment_stats sentiment)
                  (analyzed_feedback
                   ++ [mkAnalyzed (feedback_id feedback) sentiment score
                                  (preview text)])%list
  end.

Record SentimentBody : Type := mkSentimentBody {
  sentiment_stats : Stats;
  analyzed_feedback : list Analyzed;
  total_feedback : Z
}.

Definition analyze_feedback_sentiment (textblob : string -> option float)
           (feedback_items : list Feedback) : SentimentBody :=
  let '(stats, analyzed) :=
    analyze_all textblob feedback_items (mkStats 0 0 0) [] in
  mkSentimentBody stats analyzed (Z.of_nat (List.length feedback_items)).

(** The label with the sign turned round. *)
Definition mirror (s : Sentiment) : Sentiment :=
  match s with
  | positive => negative
  | negative => positive
  | neutral => neutral
  end.

(** The number of scores held in a dictionary of lists. *)
Fixpoint held (d : lists) : nat :=
  match d with
  | [] => 0%nat
  | (_, l) :: r => (List.length l + held r)%nat
  end.

End Insights.

(* ================================================================== *)
(** * The pricing endpoint of the demo application: [get_dynamic_pricing] *)

Module DemoPricing.

Import PyFloat.

Definition base_prices : list (string * Z) :=
  [("wedding", 1500); ("portrait", 300); ("event", 800); ("commercial", 1200)].

Definition location_multipliers : list (string * float) :=
  [("mumbai", lit 15 10); ("delhi", lit 14 10); ("bangalore", lit 13 10);
   ("hyderabad", lit 12 10); ("chennai", lit 12 10)].

(** [request.args.get(name, default)] *)
Definition arg (v : option string) (default : string) : string :=
  match v with
  | Some s => s
  | None => default
  end.

(** [int(request.args.get('duration', 2))] *)
Definition int_arg (v : option string) : option Z :=
  match v with
  | Some s => PyStr.int s
  | None => Some 2
  end.

(** The conversion of an [int] operand to [float]; it raises
    OverflowError where the nearest float would be infinite. *)
Definition float_of_int (n : Z) : option float :=
  match of_int n with
  | S754_infinity _ => None
  | f => Some f
  end.

Record Factors : Type := mkFactors {
  location_multiplier : float;
  date_multiplier : float;
  duration_multiplier : float;
  weekend_premium : bool
}.

Record Breakdown : Type := mkBreakdown {
  b_event_type : string;
  b_location : string;
  b_date : string;
  duration_hours : Z
}.

Record Body : Type := mkBody {
  base_price : Z;
  final_price : float;
  factors : Factors;
  breakdown : Breakdown
}.

(** The handler; [today] is [datetime.now().strftime('%Y-%m-%d')].
    [None] stands for an exception that leaves the handler. *)
Definition get_dynamic_pricing (event_type location date duration : option string)
           (today : string) : option Body :=
  let event_type := arg event_type "wedding" in
  let location := arg location "hyderabad" in
  let date := arg date today in
  match int_arg duration with
  | None => None
  | Some duration =>
      let base_price := Pricing.get (PyStr.lower event_type) base_prices 500 in
      let location_multiplier :=
        Pricing.first_city (PyStr.lower location) location_multipliers
                           (lit 10 10) in
      let date_multiplier :=
        match PyDate.strptime date with
        | Some date_obj =>
            if PyDate.weekday date_obj >=? 5 then lit 12 10 else lit 10 10
        | None => lit 10 10
        end in
      match float_of_int duration with
      | None => None
      | Some duration_f =>
          let duration_multiplier :=
            max (lit 10 10) (div duration_f (lit 20 10)) in
          let final_price :=
            mul (mul (mul (of_int base_price) location_multiplier)
                     date_multiplier)
                duration_multiplier in
          Some (mkBody base_price (round2 final_price)
                       (mkFactors location_multiplier date_multiplier
                                  duration_multiplier
                                  (gt date_multiplier (lit 10 10)))
                       (mkBreakdown event_type location date duration))
      end
  end.

End DemoPricing.

(* ================================================================== *)
(** * Accounts of the demo application: [register] and [login] *)

Module Accounts.

Record User : Type := mkUser {
  u_user_id : string;
  u_email : string;
  u_username : string;
  u_password : string;
  u_role : string;
  u_created_at : string;
  u_is_active : bool
}.

(** [mock_db['users']], keyed by the e-mail address. *)
Definition users : Type := list (string * User).

(** [mock_db['users'].get(email)] *)
Fixpoint find (email : string) (db : users) : option User :=
  match db with
  | [] => None
  | (k, u) :: r => if String.eqb email k then Some u else find email r
  end.

(** [mock_db['users'][email] = user_data] *)
Fixpoint store (email : string) (u : User) (db : users) : users :=
  match db with
  | [] => [(email, u)]
  | (k, u') :: r =>
      if String.eqb email k then (email, u) :: r else (k, u') :: store email u r
  end.

(** The keys the login handler writes into the session. *)
Record Visitor : Type := mkVisitor {
  v_user_id : string;
  v_username : string;
  v_email : string;
  v_user_role : string
}.

Inductive Endpoint : Type :=
| index
| register_page
| login_page
| logout
| dashboard
| client_dashboard
| photographer_dashboard
| admin_dashboard
| photographers.

Inductive Reply : Type :=
| render_template (template : string)
| redirect (endpoint : Endpoint).

Record RegisterForm : Type := mkRegisterForm {
  reg_username : option string;
  reg_email : option string;
  reg_password : option string;
  reg_role : option string
}.

(** [register]: [post] is the posted form, [None] for a GET.
    [generate_password_hash] is the library's hashing under the salt it
    draws, [uuid] and [now] the fresh identifier and the clock reading.
    The result is the flashed message, the reply and the users
    afterwards. *)
Definition register (generate_password_hash : string -> string)
           (uuid now : string) (post : option RegisterForm) (db : users)
  : option string * Reply * users :=
  match post with
  | None => (None, render_template "register.html", db)
  | Some data =>
      let role := Orchestrator.or_default (reg_role data) "client" in
      match reg_username data, reg_email data, reg_password data with
      | Some username, Some email, Some password =>
          if negb (Orchestrator.filled (reg_username data)
                   && Orchestrator.filled (reg_email data)
                   && Orchestrator.filled (reg_password data))
          then (Some "All fields are required", render_template "register.html", db)
          else
            match find email db with
            | Some _ => (Some "User already exists", render_template "register.html", db)
            | None =>
                let user_data :=
                  mkUser uuid email username
                         (generate_password_hash password) role now true in
                (Some "Registration successful", redirect login_page,
                 store email user_data db)
            end
      | _, _, _ => (Some "All fields are required", render_template "register.html", db)
      end
  end.

Record LoginForm : Type := mkLoginForm {
  log_email : option string;
  log_password : option string
}.

(** [login]: the result is the flashed message, the reply and the session
    afterwards. *)
Definition login (check_password_hash : string -> string -> bool)
           (post : option LoginForm) (db : users) (session : option Visitor)
  : option string * Reply * option Visitor :=
  match post with
  | None => (None, render_template "login.html", session)
  | Some data =>
      match log_email data, log_password data with
      | Some email, Some password =>
          if negb (Orchestrator.filled (log_email data)
                   && Orchestrator.filled (log_password data))
          then (Some "Email and password required", render_template "login.html", session)
          else
            match find email db with
            | None => (Some "Invalid credentials", render_template "login.html", session)
            | Some user =>
                if negb (u_is_active user)
                then (Some "Account deactivated", render_template "login.html", session)
                else if check_password_hash (u_password user) password
                then (Some ("Welcome back, " ++ u_username user ++ "!"),
                      redirect dashboard,
                      Some (mkVisitor (u_user_id user) (u_username user)
                                      (u_email user) (u_role user)))
                else (Some "Invalid credentials", render_template "login.html", session)
            end
      | _, _ => (Some "Email and password required", render_template "login.html", session)
      end
  end.

End Accounts.

(* ================================================================== *)
(** * Access control: the decorators and the dashboard routes *)

Module Routes.

Import Accounts.

(** A view on a GET: the reply and the session afterwards.  The session
    is [None] when it has no ['user_id']; the messages a view flashes are
    left out. *)
Definition View : Type := option Visitor -> Reply * option Visitor.

(** [login_required] and [admin_required], the same in both
    applications. *)
Definition login_required (f : View) : View :=
  fun session =>
    match session with
    | None => (redirect login_page, session)
    | Some _ => f session
    end.

Definition admin_required (f : View) : View :=
  fun session =>
    match session with
    | Some v =>
        if negb (String.eqb (v_user_role v) "admin")
        then (redirect dashboard, session)
        else f session
    | None => (redirect dashboard, session)
    end.

(** [photographer_required] of src/app.py. *)
Definition photographer_required (f : View) : View :=
  fun session =>
    match session with
    | Some v =>
        if negb (existsb (String.eqb (v_user_role v)) ["photographer"; "admin"])
        then (redirect dashboard, session)
        else f session
    | None => (redirect dashboard, session)
    end.

Definition page (template : string) : View :=
  fun session => (render_template template, session).

(** The body of [dashboard]. *)
Definition dashboard_view : View :=
  fun session =>
    let user_role :=
      match session with
      | Some v => v_user_role v
      | None => "client"
      end in
    if String.eqb user_role "admin" then (redirect admin_dashboard, session)
    else if String.eqb user_role "photographer"
         then (redirect photographer_dashboard, session)
    else (redirect client_dashboard, session).

(** The pages both applications serve on a GET.  Every dashboard view
    renders its template on each of its paths; the two applications differ
    in the decorator of the photographer dashboard. *)
Definition common (guard_photographer : View -> View) (e : Endpoint) : View :=
  match e with
  | index => page "index.html"
  | register_page => page "register.html"
  | login_page => page "login.html"
  | logout => fun _ => (redirect index, None)
  | dashboard => login_required dashboard_view
  | client_dashboard => login_required (page "client_dashboard.html")
  | photographer_dashboard =>
      guard_photographer (page "photographer_dashboard.html")
  | admin_dashboard => admin_required (page "admin_dashboard.html")
  | photographers => login_required (page "photographers.html")
  end.

(** The routes of src/app.py. *)
Definition app : Endpoint -> View := common photographer_required.

(** The routes of src/app_demo.py. *)
Definition demo : Endpoint -> View := common login_required.

(** A browser following redirects, at most [hops] of them: the template
    it ends on and the session then, or [None] when it is still being
    redirected. *)
Fixpoint follow (routes : Endpoint -> View) (hops : nat) (e : Endpoint)
         (session : option Visitor) : option (string * option Visitor) :=
  match routes e session with
  | (render_template template, session') => Some (template, session')
  | (redirect e', session') =>
      match hops with
      | O => None
      | S n => follow routes n e' session'
      end
  end.

(** The lists of the photographer dashboard of the demo application. *)
Definition with_status (status : string) (user_id : string)
           (db : Store.bookings) : list Store.Booking :=
  filter (fun b => Store.opt_eqb (Store.photographer_id b) (Some user_id)
                   && Store.opt_eqb (Store.booking_status b) (Some status))
         (Store.values db).

Definition pending_bookings : string -> Store.bookings -> list Store.Booking :=
  with_status "pending".

Definition confirmed_bookings : string -> Store.bookings -> list Store.Booking :=
  with_status "confirmed".

(** The list of the client dashboard of the demo application. *)
Definition user_bookings (user_id : string) (db : Store.bookings)
  : list Store.Booking :=
  filter (fun b => String.eqb (Store.user_id b) user_id) (Store.values db).

(** Unfolds the routes on a session whose role is [role] and splits on
    the role tests. *)
Ltac settle role :=
  cbv [app demo];
  repeat first
    [ progress cbn [follow common login_required admin_required
                    photographer_required dashboard_view page v_user_role
                    existsb negb orb]
    | progress unfold dashboard_view
    | match goal with
      | H : String.eqb role ?s = _ |- context [String.eqb role ?s] => rewrite H
      end
    | match goal with
      | |- context [String.eqb role ?s] => destruct (String.eqb role s) eqn:?
      end ].

End Routes.

(* ================================================================== *)
(** * The order of floats *)

Module FloatOrder.

Import PyFloat.

(** The decimal literals of the source, as binary64 values. *)
Example lit_0_1 : lit 1 10 = S754_finite false 7205759403792794 (-56).
Proof. reflexivity. Qed.

Example lit_0_3 : lit 3 10 = S754_finite false 5404319552844595 (-54).
Proof. reflexivity. Qed.

Example lit_0_7 : lit 7 10 = S754_finite false 6305039478318694 (-53).
Proof. reflexivity. Qed.

Example lit_1_15 : lit 115 100 = S754_finite false 5179139571476070 (-52).
Proof. reflexivity. Qed.

(** 0.5 + 0.2 is 0.7, and 0.7 + 0.1 is the float just below 0.8. *)
Example add_0_5_0_2 : add (lit 5 10) (lit 2 10) = lit 7 10.
Proof. reflexivity. Qed.

Example add_0_7_0_1 :
  add (lit 7 10) (lit 1 10) = S754_finite false 7205759403792793 (-53)
  /\ lit 8 10 = S754_finite false 7205759403792794 (-53).
Proof. split; reflexivity. Qed.

(** [round(0.125, 2)] is 0.12 (a tie, to even), [round(2.675, 2)] is 2.67
    (the float 2.675 lies below the tie), [round(-0.001, 2)] is -0.0. *)
Example round2_tie : round2 (lit 125 1000) = lit 12 100.
Proof. reflexivity. Qed.

Example round2_below_tie : round2 (lit 2675 1000) = lit 267 100.
Proof. reflexivity. Qed.

Example round2_negative_zero : round2 (lit (-1) 1000) = S754_zero true.
Proof. reflexivity. Qed.

Lemma rank_lt_irrefl (a : Z * Z * Z) : ~ rank_lt a a.
Proof. destruct a as [[a1 a2] a3]. unfold rank_lt. lia. Qed.

Lemma rank_lt_trans (a b c : Z * Z * Z) :
  rank_lt a b -> rank_lt b c -> rank_lt a c.
Proof.
  destruct a as [[a1 a2] a3], b as [[b1 b2] b3], c as [[c1 c2] c3].
  unfold rank_lt. lia.
Qed.

Lemma rank_total (a b : Z * Z * Z) : rank_lt a b \/ a = b \/ rank_lt b a.
Proof.
  destruct a as [[a1 a2] a3], b as [[b1 b2] b3]. unfold rank_lt.
  destruct (Z.lt_total a1 b1) as [H|[H|H]];
    destruct (Z.lt_total a2 b2) as [H'|[H'|H']];
    destruct (Z.lt_total a3 b3) as [H''|[H''|H'']];
    subst; auto; lia.
Qed.

Lemma rank_le_trans (a b c : Z * Z * Z) :
  rank_le a b -> rank_le b c -> rank_le a c.
Proof.
  intros [H1|<-] [H2|<-]; unfold rank_le; eauto using rank_lt_trans.
Qed.

Lemma rank_le_lt_trans (a b c : Z * Z * Z) :
  rank_le a b -> rank_lt b c -> rank_lt a c.
Proof. intros [H1|<-] H2; eauto using rank_lt_trans. Qed.

Lemma rank_lt_le_trans (a b c : Z * Z * Z) :
  rank_lt a b -> rank_le b c -> rank_lt a c.
Proof. intros H1 [H2|<-]; eauto using rank_lt_trans. Qed.

(** The comparison of two floats is the comparison of their ranks. *)
Lemma compare_rank (x y : float) :
  is_nan x = false -> is_nan y = false ->
  match SFcompare x y with
  | Some Lt => rank_lt (rank x) (rank y)
  | Some Eq => rank x = rank y
  | Some Gt => rank_lt (rank y) (rank x)
  | None => False
  end.
Proof.
  destruct x as [sx|sx| |sx mx ex], y as [sy|sy| |sy my ey];
    try discriminate; intros _ _;
    try (destruct sx); try (destruct sy); simpl; try reflexivity;
    try (unfold rank_lt; lia).
  - destruct (Z.compare_spec ex ey) as [->|H|H]; simpl.
    + rewrite Pos.compare_cont_spec. simpl.
      destruct (Pos.compare_spec mx my) as [->|H|H]; simpl;
        [reflexivity | unfold rank_lt; lia | unfold rank_lt; lia].
    + unfold rank_lt; lia.
    + unfold rank_lt; lia.
  - destruct (Z.compare_spec ex ey) as [->|H|H]; simpl.
    + rewrite Pos.compare_cont_spec. simpl.
      destruct (Pos.compare_spec mx my) as [->|H|H]; simpl;
        [reflexivity | unfold rank_lt; lia | unfold rank_lt; lia].
    + unfold rank_lt; lia.
    + unfold rank_lt; lia.
Qed.

Lemma compare_nan_l (x y : float) : is_nan x = true -> SFcompare x y = None.
Proof. destruct x; try discriminate. reflexivity. Qed.

Lemma compare_nan_r (x y : float) : is_nan y = true -> SFcompare x y = None.
Proof. destruct y; try discriminate. destruct x; reflexivity. Qed.

Lemma lt_iff (x y : float) :
  lt x y = true <->
  is_nan x = false /\ is_nan y = false /\ rank_lt (rank x) (rank y).
Proof.
  unfold lt, SFltb.
  destruct (is_nan x) eqn:Nx;
    [rewrite compare_nan_l by exact Nx; intuition discriminate|].
  destruct (is_nan y) eqn:Ny;
    [rewrite compare_nan_r by exact Ny; intuition discriminate|].
  pose proof (compare_rank x y Nx Ny) as H.
  destruct (SFcompare x y) as [[| |]|]; try contradiction.
  - split; [discriminate|]. intros (_ & _ & L). rewrite H in L.
    exfalso. exact (rank_lt_irrefl _ L).
  - tauto.
  - split; [discriminate|]. intros (_ & _ & L).
    exfalso. exact (rank_lt_irrefl _ (rank_lt_trans _ _ _ L H)).
Qed.

Lemma le_iff (x y : float) :
  le x y = true <->
  is_nan x = false /\ is_nan y = false /\ rank_le (rank x) (rank y).
Proof.
  unfold le, SFleb.
  destruct (is_nan x) eqn:Nx;
    [rewrite compare_nan_l by exact Nx; intuition discriminate|].
  destruct (is_nan y) eqn:Ny;
    [rewrite compare_nan_r by exact Ny; intuition discriminate|].
  pose proof (compare_rank x y Nx Ny) as H.
  destruct (SFcompare x y) as [[| |]|]; try contradiction.
  - unfold rank_le. tauto.
  - unfold rank_le. tauto.
  - split; [discriminate|]. intros (_ & _ & [L|E]); exfalso.
    + exact (rank_lt_irrefl _ (rank_lt_trans _ _ _ L H)).
    + rewrite E in H. exact (rank_lt_irrefl _ H).
Qed.

Lemma eq_iff (x y : float) :
  eq x y = true <->
  is_nan x = false /\ is_nan y = false /\ rank x = rank y.
Proof.
  unfold eq, SFeqb.
  destruct (is_nan x) eqn:Nx;
    [rewrite compare_nan_l by exact Nx; intuition discriminate|].
  destruct (is_nan y) eqn:Ny;
    [rewrite compare_nan_r by exact Ny; intuition discriminate|].
  pose proof (compare_rank x y Nx Ny) as H.
  destruct (SFcompare x y) as [[| |]|]; try contradiction.
  - tauto.
  - split; [discriminate|]. intros (_ & _ & E). rewrite E in H.
    exfalso. exact (rank_lt_irrefl _ H).
  - split; [discriminate|]. intros (_ & _ & E). rewrite E in H.
    exfalso. exact (rank_lt_irrefl _ H).
Qed.

Lemma gt_iff (x y : float) :
  gt x y = true <->
  is_nan x = false /\ is_nan y = false /\ rank_lt (rank y) (rank x).
Proof. unfold gt. change (SFltb y x) with (lt y x). rewrite lt_iff. tauto. Qed.

Lemma ge_iff (x y : float) :
  ge x y = true <->
  is_nan x = false /\ is_nan y = false /\ rank_le (rank y) (rank x).
Proof. unfold ge. change (SFleb y x) with (le y x). rewrite le_iff. tauto. Qed.

Lemma le_trans (x y z : float) :
  le x y = true -> le y z = true -> le x z = true.
Proof.
  rewrite !le_iff. intros (Nx & Ny & H1) (_ & Nz & H2).
  eauto using rank_le_trans.
Qed.

(** Not below means at or above, NaN aside. *)
Lemma not_lt_ge (x y : float) :
  is_nan x = false -> is_nan y = false -> lt x y = false -> ge x y = true.
Proof.
  intros Nx Ny H. apply ge_iff. repeat split; try assumption.
  destruct (rank_total (rank x) (rank y)) as [L|[E|L]].
  - assert (lt x y = true) by (apply lt_iff; auto). congruence.
  - right. symmetry. exact E.
  - left. exact L.
Qed.

(** [max] and [min] never invent a NaN out of a number. *)
Lemma max_not_nan (a b : float) : is_nan a = false -> is_nan (max a b) = false.
Proof.
  intros Na. unfold max. destruct (gt b a) eqn:G; [|exact Na].
  apply gt_iff in G. tauto.
Qed.

Lemma min_not_nan (a b : float) : is_nan a = false -> is_nan (min a b) = false.
Proof.
  intros Na. unfold min. destruct (lt b a) eqn:G; [|exact Na].
  apply lt_iff in G. tauto.
Qed.

Lemma max_ge_l (a b : float) : is_nan a = false -> le a (max a b) = true.
Proof.
  intros Na. unfold max. destruct (gt b a) eqn:G.
  - apply gt_iff in G. apply le_iff. unfold rank_le. tauto.
  - apply le_iff. unfold rank_le. auto.
Qed.

Lemma min_le_l (a b : float) : is_nan a = false -> le (min a b) a = true.
Proof.
  intros Na. unfold min. destruct (lt b a) eqn:G.
  - apply lt_iff in G. apply le_iff. unfold rank_le. tauto.
  - apply le_iff. unfold rank_le. auto.
Qed.

End FloatOrder.

(* ================================================================== *)
(** * Float multiplication, division and [round(_, 2)] are monotone *)

Module RoundingFacts.

Import PyFloat FloatOrder Rounding.

(** ** Codes of ratios *)

Lemma kappa_mono (N1 D1 N2 D2 : Z) :
  0 < D1 -> 0 < D2 -> N1 * D2 <= N2 * D1 -> kappa N1 D1 <= kappa N2 D2.
Proof.
  intros H1 H2 H. unfold kappa.
  pose proof (Z.div_mod (2 * N1) D1 ltac:(lia)) as E1.
  pose proof (Z.mod_pos_bound (2 * N1) D1 H1) as B1.
  pose proof (Z.div_mod (2 * N2) D2 ltac:(lia)) as E2.
  pose proof (Z.mod_pos_bound (2 * N2) D2 H2) as B2.
  set (q1 := 2 * N1 / D1) in *. set (r1 := (2 * N1) mod D1) in *.
  set (q2 := 2 * N2 / D2) in *. set (r2 := (2 * N2) mod D2) in *.
  assert (q1 <= q2) as Q.
  { assert (D1 * (q1 * D2) <= D1 * (q2 * D2 + r2)) as A by nia.
    apply Z.mul_le_mono_pos_l in A; [|lia].
    assert (q1 * D2 < (q2 + 1) * D2) as A' by lia.
    apply Z.mul_lt_mono_pos_r in A'; lia. }
  destruct (Z.eqb_spec r1 0), (Z.eqb_spec r2 0); try lia.
  assert (q1 < q2 \/ q1 = q2) as [L|L] by lia; [lia|].
  exfalso. subst q2. nia.
Qed.

Lemma kappa_scale (a N D : Z) :
  0 < a -> 0 < D -> kappa (a * N) (a * D) = kappa N D.
Proof.
  intros Ha HD. unfold kappa.
  replace (2 * (a * N)) with (a * (2 * N)) by lia.
  rewrite Z.div_mul_cancel_l by lia.
  rewrite Z.mul_mod_distr_l by lia.
  destruct (Z.eqb_spec ((2 * N) mod D) 0) as [->|n].
  - rewrite Z.mul_0_r. reflexivity.
  - destruct (Z.eqb_spec (a * ((2 * N) mod D)) 0); [nia | reflexivity].
Qed.

Lemma kappa_div4 (N D : Z) : 0 < D -> kappa N D / 4 = N / D.
Proof.
  intros HD. unfold kappa.
  assert (forall a f, 0 <= f <= 1 -> (2 * a + f) / 4 = a / 2) as A.
  { intros a f Hf. symmetry. apply Z.div_unique with (r := 2 * (a mod 2) + f).
    - pose proof (Z.mod_pos_bound a 2 ltac:(lia)). lia.
    - pose proof (Z.div_mod a 2 ltac:(lia)). lia. }
  rewrite A by (destruct (_ =? _); lia).
  rewrite Z.div_div by lia.
  replace (D * 2) with (2 * D) by lia. apply Z.div_mul_cancel_l; lia.
Qed.

Lemma kappa_exact (m D : Z) : 0 < D -> kappa (m * D) D = 4 * m.
Proof.
  intros HD. unfold kappa.
  replace (2 * (m * D)) with (2 * m * D) by lia.
  rewrite Z.div_mul, Z.mod_mul by lia. rewrite Z.eqb_refl. lia.
Qed.

Lemma kappa_nonneg (N D : Z) : 0 <= N -> 0 < D -> 0 <= kappa N D.
Proof.
  intros. unfold kappa. pose proof (Z.div_pos (2 * N) D ltac:(lia) ltac:(lia)).
  destruct (_ =? _); lia.
Qed.

(** Coarsening a code by a factor K. *)
Lemma kappa_kappa (N D K : Z) :
  0 < D -> 0 < K -> kappa (kappa N D) (4 * K) = kappa N (D * K).
Proof.
  intros HD HK. unfold kappa at 1 3.
  set (c := kappa N D).
  replace (2 * c / (4 * K)) with (c / (2 * K))
    by (replace (4 * K) with (2 * (2 * K)) by lia;
        rewrite Z.div_mul_cancel_l by lia; reflexivity).
  replace ((2 * c) mod (4 * K)) with (2 * (c mod (2 * K)))
    by (replace (4 * K) with (2 * (2 * K)) by lia;
        rewrite Z.mul_mod_distr_l by lia; reflexivity).
  unfold c, kappa.
  set (x := 2 * N).
  pose proof (Z.div_mod x D ltac:(lia)) as E1.
  pose proof (Z.mod_pos_bound x D HD) as B1.
  pose proof (Z.div_mod (x / D) K ltac:(lia)) as E2.
  pose proof (Z.mod_pos_bound (x / D) K HK) as B2.
  rewrite <- (Z.div_div x D K) by lia.
  assert (x mod (D * K) = x mod D + D * ((x / D) mod K)) as M.
  { rewrite Z.rem_mul_r by lia. reflexivity. }
  rewrite M.
  set (q := x / D) in *. set (r := x mod D) in *.
  set (f := if r =? 0 then 0 else 1).
  assert (0 <= f <= 1) as Hf by (unfold f; destruct (r =? 0); lia).
  assert ((2 * q + f) / (2 * K) = q / K) as Q.
  { symmetry. apply Z.div_unique with (r := 2 * (q mod K) + f); lia. }
  assert ((2 * q + f) mod (2 * K) = 2 * (q mod K) + f) as R.
  { symmetry. apply Z.mod_unique with (q := q / K); lia. }
  rewrite Q, R.
  unfold f. destruct (Z.eqb_spec r 0) as [->|n].
  - destruct (Z.eqb_spec (2 * (2 * (q mod K) + 0)) 0);
      destruct (Z.eqb_spec (0 + D * (q mod K)) 0); try lia; nia.
  - destruct (Z.eqb_spec (2 * (2 * (q mod K) + 1)) 0);
      destruct (Z.eqb_spec (r + D * (q mod K)) 0); try lia; nia.
Qed.

Lemma kappa_4 (c : Z) : kappa c 4 = c.
Proof.
  unfold kappa.
  pose proof (Z.div_mod (2 * c) 4 ltac:(lia)).
  pose proof (Z.mod_pos_bound (2 * c) 4 ltac:(lia)).
  destruct (Z.eqb_spec ((2 * c) mod 4) 0); lia.
Qed.

Lemma rne_mono (c1 c2 : Z) : c1 <= c2 -> rne c1 <= rne c2.
Proof.
  intros H. unfold rne.
  pose proof (Z.div_mod c1 4 ltac:(lia)).
  pose proof (Z.mod_pos_bound c1 4 ltac:(lia)).
  pose proof (Z.div_mod c2 4 ltac:(lia)).
  pose proof (Z.mod_pos_bound c2 4 ltac:(lia)).
  set (q1 := c1 / 4) in *. set (q2 := c2 / 4) in *.
  assert (q1 < q2 \/ q1 = q2) as [L|L] by lia.
  - destruct (_ || _); destruct (_ || _); lia.
  - rewrite L in *.
    destruct (Z.eqb_spec (c1 mod 4) 3), (Z.eqb_spec (c1 mod 4) 2),
      (Z.eqb_spec (c2 mod 4) 3), (Z.eqb_spec (c2 mod 4) 2);
      destruct (Z.odd q2); simpl; lia.
Qed.

Lemma rne_exact (m : Z) : rne (4 * m) = m.
Proof.
  unfold rne. replace (4 * m) with (m * 4) by lia.
  rewrite Z.div_mul, Z.mod_mul by lia. cbn [Z.eqb orb andb]. lia.
Qed.

Lemma rne_bounds (c : Z) : c / 4 <= rne c <= c / 4 + 1.
Proof. unfold rne. destruct (_ || _); lia. Qed.

(** ** The shifts of the library, on codes *)

Lemma rec_code_of_loc (m : Z) (l : location) :
  rec_code (shr_record_of_loc m l) = 4 * m + loc_code l.
Proof. destruct l as [|[| |]]; unfold rec_code; simpl; lia. Qed.

Lemma shr_m_of_loc (m : Z) (l : location) : shr_m (shr_record_of_loc m l) = m.
Proof. destruct l as [|[| |]]; reflexivity. Qed.

Lemma shr_m_code (r : shr_record) : shr_m r = rec_code r / 4.
Proof.
  unfold rec_code.
  apply Z.div_unique with (r := (if shr_r r then 2 else 0) + (if shr_s r then 1 else 0));
    destruct (shr_r r), (shr_s r); lia.
Qed.

Lemma kappa_8 (m a b : Z) :
  0 <= a <= 1 -> 0 <= b <= 1 ->
  kappa (4 * m + 2 * a + b) 8
  = 4 * (m / 2) + 2 * (m mod 2) + (if (a =? 0) && (b =? 0) then 0 else 1).
Proof.
  intros Ha Hb. unfold kappa.
  pose proof (Z.div_mod m 2 ltac:(lia)) as E.
  pose proof (Z.mod_pos_bound m 2 ltac:(lia)) as B.
  assert (2 * (4 * m + 2 * a + b) / 8 = m) as Q.
  { symmetry. apply Z.div_unique with (r := 4 * a + 2 * b); lia. }
  assert ((2 * (4 * m + 2 * a + b)) mod 8 = 4 * a + 2 * b) as R.
  { symmetry. apply Z.mod_unique with (q := m); lia. }
  rewrite Q, R.
  destruct (Z.eqb_spec a 0), (Z.eqb_spec b 0), (Z.eqb_spec (4 * a + 2 * b) 0);
    cbn [andb]; lia.
Qed.

Lemma shr_1_code (r : shr_record) :
  0 <= shr_m r ->
  rec_code (shr_1 r) = kappa (rec_code r) 8 /\ 0 <= shr_m (shr_1 r).
Proof.
  destruct r as [m a b]. cbn [shr_m]. intros Hm.
  unfold rec_code at 2. cbn [shr_m shr_r shr_s].
  replace (4 * m + (if a then 2 else 0) + (if b then 1 else 0))
    with (4 * m + 2 * (if a then 1 else 0) + (if b then 1 else 0))
    by (destruct a; lia).
  rewrite kappa_8 by (destruct a, b; lia).
  destruct m as [|[p|p|]|p]; try lia; cbn [shr_1]; unfold rec_code;
    cbn [shr_m shr_r shr_s].
  - destruct a, b; cbn; lia.
  - change (Z.pos p~1) with (2 * Z.pos p + 1).
    replace ((2 * Z.pos p + 1) / 2) with (Z.pos p)
      by (apply Z.div_unique with (r := 1); lia).
    replace ((2 * Z.pos p + 1) mod 2) with 1
      by (apply Z.mod_unique with (q := Z.pos p); lia).
    destruct a, b; cbn; lia.
  - change (Z.pos p~0) with (2 * Z.pos p).
    replace ((2 * Z.pos p) / 2) with (Z.pos p)
      by (apply Z.div_unique with (r := 0); lia).
    replace ((2 * Z.pos p) mod 2) with 0
      by (apply Z.mod_unique with (q := Z.pos p); lia).
    destruct a, b; cbn; lia.
  - destruct a, b; cbn; lia.
Qed.

Lemma iter_pos_iter {A : Type} (f : A -> A) (p : positive) :
  forall x, iter_pos f p x = Pos.iter f x p.
Proof.
  induction p as [p IH|p IH|]; intros x; simpl.
  - rewrite !IH. rewrite !Pos.iter_swap. reflexivity.
  - rewrite !IH. reflexivity.
  - reflexivity.
Qed.

Lemma iter_shr_code (p : positive) (r : shr_record) :
  0 <= shr_m r ->
  rec_code (iter_pos shr_1 p r) = kappa (rec_code r) (4 * 2 ^ Zpos p)
  /\ 0 <= shr_m (iter_pos shr_1 p r).
Proof.
  intros Hm. rewrite iter_pos_iter.
  induction p as [|p IH] using Pos.peano_ind.
  - simpl. apply shr_1_code. exact Hm.
  - rewrite Pos.iter_succ. destruct IH as [IH1 IH2].
    destruct (shr_1_code _ IH2) as [S1 S2]. split; [|exact S2].
    rewrite S1, IH1.
    change 8 with (4 * 2).
    rewrite kappa_kappa by (pose proof (Z.pow_pos_nonneg 2 (Zpos p)); lia).
    f_equal. rewrite Pos2Z.inj_succ, Z.pow_succ_r by lia. lia.
Qed.

Lemma round_nearest_even_code (r : shr_record) :
  0 <= shr_m r ->
  round_nearest_even (shr_m r) (loc_of_shr_record r) = rne (rec_code r).
Proof.
  destruct r as [m a b]. cbn [shr_m]. intros Hm. unfold rne.
  assert (rec_code {| shr_m := m; shr_r := a; shr_s := b |} / 4 = m) as Q
      by (symmetry; apply (shr_m_code {| shr_m := m; shr_r := a; shr_s := b |})).
  rewrite Q.
  assert (rec_code {| shr_m := m; shr_r := a; shr_s := b |} mod 4
          = (if a then 2 else 0) + (if b then 1 else 0)) as R.
  { symmetry. apply Z.mod_unique with (q := m).
    - destruct a, b; lia.
    - unfold rec_code; cbn [shr_m shr_r shr_s]. lia. }
  rewrite R. rewrite <- Z.negb_even.
  destruct a, b; cbn; try lia; destruct (Z.even m); cbn; lia.
Qed.

(** The rounding of the library, on the code of a ratio. *)
Lemma binary_round_aux_round_ratio (s : bool) (m e : Z) (l : location) (N D : Z) :
  0 <= m -> 0 < D ->
  4 * m + loc_code l = kappa N D ->
  binary_round_aux prec emax s m e l = round_ratio s N D e.
Proof.
  intros Hm HD Hc.
  assert (N / D = m) as Hq.
  { rewrite <- (kappa_div4 N D HD), <- Hc. symmetry.
    apply Z.div_unique with (r := loc_code l); [destruct l as [|[| |]]; simpl|]; lia. }
  unfold binary_round_aux, round_ratio. rewrite Hq.
  unfold shr_fexp at 1. unfold shr.
  set (E := fexp prec emax (Zdigits2 m + e)).
  (* first shift *)
  assert (exists r1,
             (match E - e with
              | Zpos p => (iter_pos shr_1 p (shr_record_of_loc m l), e + (E - e))
              | _ => (shr_record_of_loc m l, e)
              end) = (r1, Z.max e E)
             /\ 0 <= shr_m r1
             /\ rec_code r1 = kappa N (D * 2 ^ (Z.max e E - e))) as (r1 & -> & Hr1 & Hc1).
  { destruct (E - e) as [|p|p] eqn:K.
    - eexists. split; [f_equal; lia|].
      rewrite shr_m_of_loc, rec_code_of_loc, Hc.
      replace (Z.max e E - e) with 0 by lia. rewrite Z.mul_1_r. auto.
    - destruct (iter_shr_code p (shr_record_of_loc m l)) as [I1 I2];
        [rewrite shr_m_of_loc; exact Hm|].
      eexists. split; [f_equal; lia|]. split; [exact I2|].
      rewrite I1, rec_code_of_loc, Hc, kappa_kappa
        by (pose proof (Z.pow_pos_nonneg 2 (Zpos p)); lia).
      f_equal. f_equal. f_equal. lia.
    - eexists. split; [f_equal; lia|].
      rewrite shr_m_of_loc, rec_code_of_loc, Hc.
      replace (Z.max e E - e) with 0 by lia. rewrite Z.mul_1_r. auto. }
  rewrite (round_nearest_even_code r1 Hr1), Hc1.
  set (e1 := Z.max e E).
  set (m1 := rne (kappa N (D * 2 ^ (e1 - e)))).
  assert (0 <= m1) as Hm1.
  { unfold m1, e1. pose proof (rne_bounds (kappa N (D * 2 ^ (Z.max e E - e)))) as B.
    rewrite <- Hc1 in B |- *. rewrite <- shr_m_code in B. lia. }
  unfold shr_fexp, shr.
  set (E2 := fexp prec emax (Zdigits2 m1 + e1)).
  cbn [shr_record_of_loc].
  destruct (E2 - e1) as [|p|p] eqn:K.
  - replace (Z.max e1 E2) with e1 by lia. cbn [shr_m].
    rewrite Z.sub_diag, Z.div_1_r. reflexivity.
  - destruct (iter_shr_code p {| shr_m := m1; shr_r := false; shr_s := false |} Hm1)
      as [I1 I2].
    rewrite (shr_m_code (iter_pos _ _ _)), I1.
    replace (Z.max e1 E2) with (e1 + Z.pos p) by lia.
    unfold rec_code; cbn [shr_m shr_r shr_s].
    rewrite kappa_div4 by (pose proof (Z.pow_pos_nonneg 2 (Zpos p)); lia).
    replace (4 * m1 + 0 + 0) with (4 * m1) by lia.
    rewrite Z.div_mul_cancel_l by (pose proof (Z.pow_pos_nonneg 2 (Zpos p)); lia).
    replace (e1 + Z.pos p - e1) with (Z.pos p) by lia. reflexivity.
  - replace (Z.max e1 E2) with e1 by lia. cbn [shr_m].
    rewrite Z.sub_diag, Z.div_1_r. reflexivity.
Qed.

(** ** Binary digits *)

Lemma digits2_size (p : positive) : digits2_pos p = Pos.size p.
Proof. induction p; simpl; congruence. Qed.

Lemma Zdigits2_log2 (m : Z) : 0 < m -> Zdigits2 m = Z.log2 m + 1.
Proof.
  destruct m as [|p|p]; try lia. intros _. cbn [Zdigits2].
  rewrite digits2_size. destruct p; simpl; lia.
Qed.

Lemma Zdigits2_0 : Zdigits2 0 = 0.
Proof. reflexivity. Qed.

Lemma Zdigits2_nonneg (m : Z) : 0 <= Zdigits2 m.
Proof. destruct m; simpl; lia. Qed.

Lemma Zdigits2_pos (m : Z) : 0 < m -> 1 <= Zdigits2 m.
Proof. destruct m; simpl; lia. Qed.

Lemma Zdigits2_spec (m : Z) :
  0 < m -> 2 ^ (Zdigits2 m - 1) <= m < 2 ^ Zdigits2 m.
Proof.
  intros H. rewrite Zdigits2_log2 by exact H.
  replace (Z.log2 m + 1 - 1) with (Z.log2 m) by lia.
  apply Z.log2_spec. exact H.
Qed.

Lemma Zdigits2_unique (m d : Z) :
  1 <= d -> 2 ^ (d - 1) <= m < 2 ^ d -> Zdigits2 m = d.
Proof.
  intros Hd H.
  assert (0 < m) by (pose proof (Z.pow_pos_nonneg 2 (d - 1)); lia).
  rewrite Zdigits2_log2 by assumption.
  rewrite (Z.log2_unique m (d - 1)); try lia.
  replace (Z.succ (d - 1)) with d by lia. exact H.
Qed.

Lemma Zdigits2_le (m d : Z) : 0 <= m -> 0 <= d -> m < 2 ^ d -> Zdigits2 m <= d.
Proof.
  intros Hm Hd H. destruct (Z.eq_dec m 0) as [->|n]; [simpl; lia|].
  pose proof (Zdigits2_spec m ltac:(lia)) as [L _].
  destruct (Z.le_gt_cases (Zdigits2 m) d) as [|G]; [assumption|].
  assert (2 ^ d <= 2 ^ (Zdigits2 m - 1)) by (apply Z.pow_le_mono_r; lia). lia.
Qed.

Lemma Zdigits2_ge (m d : Z) : 2 ^ (d - 1) <= m -> 1 <= d -> d <= Zdigits2 m.
Proof.
  intros H Hd.
  assert (0 < m) by (pose proof (Z.pow_pos_nonneg 2 (d - 1)); lia).
  pose proof (Zdigits2_spec m ltac:(lia)) as [_ U].
  destruct (Z.le_gt_cases d (Zdigits2 m)) as [|G]; [assumption|].
  assert (2 ^ Zdigits2 m <= 2 ^ (d - 1))
    by (apply Z.pow_le_mono_r; pose proof (Zdigits2_nonneg m); lia). lia.
Qed.

Lemma Zdigits2_mono (a b : Z) : 0 <= a <= b -> Zdigits2 a <= Zdigits2 b.
Proof.
  intros [Ha Hab]. destruct (Z.eq_dec a 0) as [->|n];
    [apply Zdigits2_nonneg|].
  apply Zdigits2_ge; [|apply Zdigits2_pos; lia].
  pose proof (Zdigits2_spec a ltac:(lia)). lia.
Qed.

Lemma fexp_eq (x : Z) : fexp prec emax x = Z.max (x - 53) emin.
Proof. reflexivity. Qed.

Lemma pow2_pos (k : Z) : 0 <= k -> 0 < 2 ^ k.
Proof. intros. apply Z.pow_pos_nonneg; lia. Qed.

Lemma pow2_split (a b : Z) : 0 <= a -> 0 <= b -> 2 ^ (a + b) = 2 ^ a * 2 ^ b.
Proof. intros. apply Z.pow_add_r; assumption. Qed.

(** What the rounding returns on a fine input. *)
Lemma round_ratio_shape (s : bool) (N D e : Z) :
  0 <= N -> 0 < D -> fine N D e ->
  let E := fexp prec emax (Zdigits2 (N / D) + e) in
  let m1 := rne (kappa N (D * 2 ^ (E - e))) in
  0 <= m1 <= 2 ^ 53
  /\ (emin < E -> 2 ^ 52 <= m1)
  /\ emin <= E
  /\ round_ratio s N D e
     = if m1 =? 2 ^ 53 then finish s (2 ^ 52) (E + 1) else finish s m1 E.
Proof.
  intros HN HD Hf. unfold fine in Hf. cbv zeta.
  set (m := N / D) in *. set (d := Zdigits2 m) in *.
  set (E := fexp prec emax (d + e)) in *.
  assert (emin <= E) as HE by (unfold E; rewrite fexp_eq; lia).
  assert (0 <= m) as Hm by (apply Z.div_pos; lia).
  set (k := E - e). assert (0 <= k) as Hk by lia.
  pose proof (pow2_pos k Hk) as Pk.
  assert (kappa N (D * 2 ^ k) / 4 = m / 2 ^ k) as Hq.
  { rewrite kappa_div4 by nia. unfold m. rewrite Z.div_div by lia. reflexivity. }
  pose proof (rne_bounds (kappa N (D * 2 ^ k))) as Br. rewrite Hq in Br.
  set (m1 := rne (kappa N (D * 2 ^ k))) in *.
  assert (0 <= m / 2 ^ k) as Hq0 by (apply Z.div_pos; lia).
  assert (m / 2 ^ k < 2 ^ 53) as Hqu.
  { apply Z.div_lt_upper_bound; [lia|].
    destruct (Z.eq_dec m 0) as [->|n]; [lia|].
    pose proof (Zdigits2_spec m ltac:(lia)) as [_ U]. fold d in U.
    assert (d <= k + 53) by (unfold k, E; rewrite fexp_eq; lia).
    assert (2 ^ d <= 2 ^ (k + 53))
      by (apply Z.pow_le_mono_r; lia).
    rewrite pow2_split in * by lia. lia. }
  assert (emin < E -> 2 ^ 52 <= m / 2 ^ k) as Hql.
  { intros G.
    assert (E = d + e - 53) as HEd by (unfold E in *; rewrite fexp_eq in *; lia).
    assert (53 <= d) by lia.
    assert (0 < m) as Hmp.
    { destruct (Z.eq_dec m 0) as [Z|Z]; [|lia].
      unfold d in *. rewrite Z in *. simpl in *. lia. }
    pose proof (Zdigits2_spec m Hmp) as [L _]. fold d in L.
    apply Z.div_le_lower_bound; [lia|].
    replace (d - 1) with (k + 52) in L by (unfold k; lia).
    rewrite pow2_split in L by lia. lia. }
  split; [lia|]. split; [intros G; specialize (Hql G); lia|]. split; [exact HE|].
  unfold round_ratio. fold m. fold d. fold E.
  replace (Z.max e E) with E by lia. fold k. fold m1.
  destruct (Z.eqb_spec m1 (2 ^ 53)) as [Hc|Hc].
  - rewrite Hc. change (Zdigits2 (2 ^ 53)) with 54.
    rewrite fexp_eq.
    replace (Z.max E (Z.max (54 + E - 53) emin)) with (E + 1) by lia.
    replace (E + 1 - E) with 1 by lia. reflexivity.
  - assert (Zdigits2 m1 <= 53) by (apply Zdigits2_le; lia).
    rewrite fexp_eq.
    replace (Z.max E (Z.max (Zdigits2 m1 + E - 53) emin)) with E by lia.
    rewrite Z.sub_diag, Z.div_1_r. reflexivity.
Qed.

(** ** Rounding is monotone *)

Lemma finish_le (m e m' e' : Z) :
  0 <= m -> 0 <= m' ->
  m = 0 \/ (0 < m' /\ (e < e' \/ (e = e' /\ m <= m'))) ->
  le (finish false m e) (finish false m' e') = true.
Proof.
  intros Hm Hm' H. apply le_iff.
  destruct m as [|p|p]; try lia; destruct m' as [|p'|p']; try lia;
    unfold finish; unfold emax, prec.
  - repeat split. right. reflexivity.
  - destruct (Z.leb_spec e' (1024 - 53)); repeat split; left; simpl; lia.
  - destruct H as [H|[_ H]]; [lia|].
    destruct (Z.leb_spec e (1024 - 53)), (Z.leb_spec e' (1024 - 53));
      try (exfalso; lia); repeat split.
    + destruct H as [H|[-> H]]; [left; simpl; lia|].
      destruct (Z.eq_dec (Z.pos p) (Z.pos p')) as [E|E];
        [right; simpl; congruence | left; simpl; lia].
    + left. simpl. lia.
    + right. reflexivity.
Qed.

Lemma div_cross_le (N1 D1 N2 D2 : Z) :
  0 < D1 -> 0 < D2 -> N1 * D2 <= N2 * D1 -> N1 / D1 <= N2 / D2.
Proof.
  intros H1 H2 H.
  rewrite <- (kappa_div4 N1 D1 H1), <- (kappa_div4 N2 D2 H2).
  apply Z.div_le_mono; [lia|]. apply kappa_mono; assumption.
Qed.

(** Rounding is monotone, at one exponent. *)
Lemma round_ratio_mono (N1 D1 N2 D2 e : Z) :
  0 <= N1 -> 0 < D1 -> 0 <= N2 -> 0 < D2 ->
  fine N1 D1 e -> fine N2 D2 e ->
  N1 * D2 <= N2 * D1 ->
  le (round_ratio false N1 D1 e) (round_ratio false N2 D2 e) = true.
Proof.
  intros HN1 HD1 HN2 HD2 F1 F2 H.
  destruct (round_ratio_shape false N1 D1 e HN1 HD1 F1) as (B1 & L1 & M1 & ->).
  destruct (round_ratio_shape false N2 D2 e HN2 HD2 F2) as (B2 & L2 & M2 & ->).
  pose proof (div_cross_le _ _ _ _ HD1 HD2 H) as Hq.
  assert (0 <= N1 / D1) as Hq0 by (apply Z.div_pos; lia).
  pose proof (Zdigits2_mono _ _ (conj Hq0 Hq)) as Hd.
  unfold fine in F1, F2.
  set (E1 := fexp prec emax (Zdigits2 (N1 / D1) + e)) in *.
  set (E2 := fexp prec emax (Zdigits2 (N2 / D2) + e)) in *.
  assert (E1 <= E2) as HE by (unfold E1, E2; rewrite !fexp_eq; lia).
  set (m1 := rne (kappa N1 (D1 * 2 ^ (E1 - e)))) in *.
  set (m2 := rne (kappa N2 (D2 * 2 ^ (E2 - e)))) in *.
  assert (E1 = E2 -> m1 <= m2) as Hm.
  { intros EE. unfold m1, m2. rewrite EE. apply rne_mono. apply kappa_mono.
    - pose proof (pow2_pos (E2 - e) ltac:(lia)). nia.
    - pose proof (pow2_pos (E2 - e) ltac:(lia)). nia.
    - pose proof (pow2_pos (E2 - e) ltac:(lia)). nia. }
  assert (E1 < E2 -> 2 ^ 52 <= m2) as Hm' by (intros; apply L2; lia).
  change (2 ^ 53) with 9007199254740992 in *.
  change (2 ^ 52) with 4503599627370496 in *.
  destruct (Z.eqb_spec m1 9007199254740992), (Z.eqb_spec m2 9007199254740992);
    apply finish_le; lia.
Qed.

Lemma round_ratio_valid (s : bool) (N D e : Z) :
  0 <= N -> 0 < D -> fine N D e ->
  valid_binary prec emax (round_ratio s N D e) = true.
Proof.
  intros HN HD F.
  destruct (round_ratio_shape s N D e HN HD F) as (B & L & M & ->).
  set (E := fexp prec emax (Zdigits2 (N / D) + e)) in *.
  set (m1 := rne (kappa N (D * 2 ^ (E - e)))) in *.
  destruct (Z.eqb_spec m1 (2 ^ 53)) as [Hc|Hc].
  - unfold finish. change (2 ^ 52) with (Zpos 4503599627370496).
    cbv iota. destruct (Z.leb_spec (E + 1) (emax - prec)); [|reflexivity].
    unfold valid_binary, bounded, canonical_mantissa.
    change (Z.pos (digits2_pos 4503599627370496)) with 53.
    change (fexp prec emax) with (fexp prec emax). rewrite fexp_eq.
    apply andb_true_intro. split; [apply Z.eqb_eq; lia | apply Z.leb_le; assumption].
  - unfold finish. destruct m1 as [|p|p] eqn:Em; [reflexivity| |lia].
    destruct (Z.leb_spec E (emax - prec)); [|reflexivity].
    unfold valid_binary, bounded, canonical_mantissa.
    change (Z.pos (digits2_pos p)) with (Zdigits2 (Z.pos p)).
    change (fexp prec emax) with (fexp prec emax). rewrite fexp_eq.
    apply andb_true_intro. split; [|apply Z.leb_le; assumption].
    apply Z.eqb_eq.
    assert (Zdigits2 (Z.pos p) <= 53) by (apply Zdigits2_le; lia).
    destruct (Z.eq_dec E emin) as [->|n]; [lia|].
    assert (53 <= Zdigits2 (Z.pos p)) by (apply Zdigits2_ge; [apply L|]; lia).
    lia.
Qed.

(** The same value written at a finer exponent rounds the same. *)
Lemma round_ratio_align (s : bool) (N D e j : Z) :
  0 <= N -> 0 < D -> 0 <= j -> fine N D e ->
  fine (N * 2 ^ j) D (e - j)
  /\ round_ratio s (N * 2 ^ j) D (e - j) = round_ratio s N D e.
Proof.
  intros HN HD Hj F. unfold fine in F.
  pose proof (pow2_pos j Hj) as Pj.
  set (m := N / D) in *.
  assert (0 <= m) as Hm by (apply Z.div_pos; lia).
  assert (m * 2 ^ j <= N * 2 ^ j / D < (m + 1) * 2 ^ j) as Bm.
  { pose proof (Z.div_mod N D ltac:(lia)) as E.
    pose proof (Z.mod_pos_bound N D HD) as B. fold m in E.
    split.
    - apply Z.div_le_lower_bound; [lia|]. nia.
    - apply Z.div_lt_upper_bound; [lia|]. nia. }
  assert (fexp prec emax (Zdigits2 (N * 2 ^ j / D) + (e - j))
          = fexp prec emax (Zdigits2 m + e)) as HE.
  { destruct (Z.eq_dec m 0) as [Z|Z].
    - rewrite Z in *. change (Zdigits2 0) with 0 in *.
      rewrite !fexp_eq in *.
      assert (Zdigits2 (N * 2 ^ j / D) <= j) by (apply Zdigits2_le; lia).
      pose proof (Zdigits2_nonneg (N * 2 ^ j / D)). lia.
    - pose proof (Zdigits2_spec m ltac:(lia)) as [L U].
      pose proof (Zdigits2_pos m ltac:(lia)).
      rewrite (Zdigits2_unique (N * 2 ^ j / D) (Zdigits2 m + j)).
      + f_equal. lia.
      + lia.
      + replace (Zdigits2 m + j - 1) with (Zdigits2 m - 1 + j) by lia.
        rewrite !pow2_split by lia. nia. }
  split.
  - unfold fine. rewrite HE. lia.
  - unfold round_ratio. fold m. rewrite HE.
    set (E := fexp prec emax (Zdigits2 m + e)) in *.
    replace (Z.max (e - j) E) with E by lia.
    replace (Z.max e E) with E by lia.
    replace (E - (e - j)) with (j + (E - e)) by lia.
    rewrite pow2_split by lia.
    replace (N * 2 ^ j) with (2 ^ j * N) by lia.
    replace (D * (2 ^ j * 2 ^ (E - e))) with (2 ^ j * (D * 2 ^ (E - e))) by lia.
    rewrite kappa_scale; [reflexivity | lia |].
    pose proof (pow2_pos (E - e) ltac:(lia)). nia.
Qed.

(** Rounding is monotone in the value rounded. *)
Lemma round_ratio_mono_gen (N1 D1 e1 N2 D2 e2 : Z) :
  0 <= N1 -> 0 < D1 -> 0 <= N2 -> 0 < D2 ->
  fine N1 D1 e1 -> fine N2 D2 e2 ->
  N1 * 2 ^ (e1 - Z.min e1 e2) * D2 <= N2 * 2 ^ (e2 - Z.min e1 e2) * D1 ->
  le (round_ratio false N1 D1 e1) (round_ratio false N2 D2 e2) = true.
Proof.
  intros HN1 HD1 HN2 HD2 F1 F2 H.
  set (e0 := Z.min e1 e2) in *.
  destruct (round_ratio_align false N1 D1 e1 (e1 - e0) HN1 HD1 ltac:(lia) F1) as [G1 A1].
  destruct (round_ratio_align false N2 D2 e2 (e2 - e0) HN2 HD2 ltac:(lia) F2) as [G2 A2].
  replace (e1 - (e1 - e0)) with e0 in * by lia.
  replace (e2 - (e2 - e0)) with e0 in * by lia.
  rewrite <- A1, <- A2.
  pose proof (pow2_pos (e1 - e0) ltac:(lia)).
  pose proof (pow2_pos (e2 - e0) ltac:(lia)).
  apply round_ratio_mono; try assumption; nia.
Qed.

(** ** Multiplication and division round the exact result *)

(** The code of a quotient, from the quotient and the remainder. *)
Lemma kappa_divmod (N D : Z) :
  0 < D ->
  kappa N D
  = 4 * (N / D)
    + (if N mod D =? 0 then 0
       else match 2 * (N mod D) ?= D with Lt => 1 | Eq => 2 | Gt => 3 end).
Proof.
  intros HD. unfold kappa.
  pose proof (Z.div_mod N D ltac:(lia)) as E.
  pose proof (Z.mod_pos_bound N D HD) as B.
  set (q := N / D) in *. set (r := N mod D) in *. clearbody q r.
  destruct (Z.compare_spec (2 * r) D) as [C|C|C].
  - assert (2 * N / D = 2 * q + 1) as ->
        by (symmetry; apply Z.div_unique with (r := 0); lia).
    assert ((2 * N) mod D = 0) as ->
        by (symmetry; apply Z.mod_unique with (q := 2 * q + 1); lia).
    change (0 =? 0) with true. cbv iota.
    destruct (Z.eqb_spec r 0); lia.
  - assert (2 * N / D = 2 * q) as ->
        by (symmetry; apply Z.div_unique with (r := 2 * r); lia).
    assert ((2 * N) mod D = 2 * r) as ->
        by (symmetry; apply Z.mod_unique with (q := 2 * q); lia).
    destruct (Z.eqb_spec r 0), (Z.eqb_spec (2 * r) 0); lia.
  - assert (2 * N / D = 2 * q + 1) as ->
        by (symmetry; apply Z.div_unique with (r := 2 * r - D); lia).
    assert ((2 * N) mod D = 2 * r - D) as ->
        by (symmetry; apply Z.mod_unique with (q := 2 * q + 1); lia).
    destruct (Z.eqb_spec r 0), (Z.eqb_spec (2 * r - D) 0); lia.
Qed.

Lemma new_location_code (D r : Z) :
  0 < D -> 0 <= r < D ->
  loc_code (new_location D r)
  = if r =? 0 then 0
    else match 2 * r ?= D with Lt => 1 | Eq => 2 | Gt => 3 end.
Proof.
  intros HD Hr. unfold new_location, new_location_even, new_location_odd.
  destruct (Z.even D) eqn:Ev; destruct (Z.eqb_spec r 0) as [|n];
    try reflexivity.
  assert (Z.odd D = true) as Od by (rewrite <- Z.negb_even, Ev; reflexivity).
  apply Z.odd_spec in Od. destruct Od as [k Hk].
  destruct (Z.compare_spec (2 * r + 1) D), (Z.compare_spec (2 * r) D);
    simpl; try reflexivity; lia.
Qed.

(** Multiplication of positive finite numbers is the rounding of the
    exact product. *)
Lemma mul_round_ratio (mx my : positive) (ex ey : Z) :
  53 <= Zdigits2 (Zpos my) ->
  mul (S754_finite false mx ex) (S754_finite false my ey)
  = round_ratio false (Zpos mx * Zpos my) 1 (ex + ey)
  /\ fine (Zpos mx * Zpos my) 1 (ex + ey).
Proof.
  intros Hd. split.
  - unfold mul, SFmul. cbn [xorb].
    apply (binary_round_aux_round_ratio false (Z.pos (mx * my)) (ex + ey) loc_Exact);
      [lia | lia |].
    rewrite <- (Z.mul_1_r (Z.pos mx * Z.pos my)) at 1.
    rewrite kappa_exact by lia. simpl loc_code. lia.
  - unfold fine. rewrite Z.div_1_r, fexp_eq.
    assert (53 <= Zdigits2 (Z.pos mx * Z.pos my)).
    { apply Zdigits2_ge; [|lia].
      pose proof (Zdigits2_spec (Z.pos my) ltac:(lia)) as [L _].
      assert (2 ^ (53 - 1) <= 2 ^ (Zdigits2 (Z.pos my) - 1))
        by (apply Z.pow_le_mono_r; lia).
      nia. }
    lia.
Qed.

(** Division of positive finite numbers is the rounding of the exact
    quotient. *)
Lemma div_round_ratio (mx my : positive) (ex ey : Z) :
  let e' := Z.min (fexp prec emax (Zdigits2 (Zpos mx) + ex
                                     - (Zdigits2 (Zpos my) + ey)))
                  (ex - ey) in
  div (S754_finite false mx ex) (S754_finite false my ey)
  = round_ratio false (Zpos mx * 2 ^ (ex - ey - e')) (Zpos my) e'
  /\ fine (Zpos mx * 2 ^ (ex - ey - e')) (Zpos my) e'.
Proof.
  cbv zeta. unfold div, SFdiv, SFdiv_core_binary. cbn [xorb].
  change (Zdigits2 (Z.pos mx)) with (Z.pos (digits2_pos mx)).
  change (Zdigits2 (Z.pos my)) with (Z.pos (digits2_pos my)).
  set (dx := Z.pos (digits2_pos mx)). set (dy := Z.pos (digits2_pos my)).
  set (e' := Z.min (fexp prec emax (dx + ex - (dy + ey))) (ex - ey)).
  set (s := ex - ey - e'). assert (0 <= s) as Hs by (unfold s, e'; lia).
  pose proof (pow2_pos s Hs) as Ps.
  assert (match s with
          | 0 => Z.pos mx
          | Z.pos _ => Z.shiftl (Z.pos mx) s
          | Z.neg _ => 0
          end = Z.pos mx * 2 ^ s) as ->.
  { destruct s as [|p|p] eqn:Es; [simpl; lia | | lia].
    rewrite Z.shiftl_mul_pow2 by lia. reflexivity. }
  set (N := Z.pos mx * 2 ^ s).
  assert (0 <= N) as HN by (unfold N; lia).
  unfold Z.div_eucl at 1. fold (Z.div_eucl N (Z.pos my)).
  pose proof (Z.mod_pos_bound N (Z.pos my) ltac:(lia)) as B.
  assert (Z.div_eucl N (Z.pos my) = (N / Z.pos my, N mod Z.pos my)) as ->
      by (unfold Z.div, Z.modulo; destruct (Z.div_eucl N (Z.pos my)); reflexivity).
  assert (0 <= N / Z.pos my) as Hq by (apply Z.div_pos; lia).
  split.
  - apply (binary_round_aux_round_ratio false (N / Z.pos my) e' _ N (Z.pos my)); [lia|lia|].
    rewrite new_location_code by lia.
    rewrite (kappa_divmod N (Z.pos my)) by lia. reflexivity.
  - unfold fine.
    assert (dx - dy + s <= Zdigits2 (N / Z.pos my)) as Hd.
    { destruct (Z.le_gt_cases (dx - dy + s) 0) as [L|G];
        [pose proof (Zdigits2_nonneg (N / Z.pos my)); lia|].
      apply Zdigits2_ge; [|lia].
      apply Z.div_le_lower_bound; [lia|].
      pose proof (Zdigits2_spec (Z.pos mx) ltac:(lia)) as [Lx _].
      pose proof (Zdigits2_spec (Z.pos my) ltac:(lia)) as [_ Uy].
      change (Zdigits2 (Z.pos mx)) with dx in Lx.
      change (Zdigits2 (Z.pos my)) with dy in Uy.
      assert (0 < dx) by (unfold dx; lia). assert (0 < dy) by (unfold dy; lia).
      unfold N.
      assert (2 ^ (dx - dy + s - 1) * 2 ^ dy = 2 ^ (dx - 1) * 2 ^ s) as P.
      { rewrite <- !pow2_split by lia. f_equal. lia. }
      pose proof (pow2_pos (dx - dy + s - 1) ltac:(lia)).
      pose proof (pow2_pos (dx - 1) ltac:(lia)).
      apply Z.le_trans with (2 ^ dy * 2 ^ (dx - dy + s - 1)).
      - apply Z.mul_le_mono_nonneg_r; lia.
      - rewrite Z.mul_comm, P. apply Z.mul_le_mono_nonneg_r; lia. }
    change (fexp prec emax) with (fexp prec emax).
    assert (fexp prec emax (dx + ex - (dy + ey))
            <= fexp prec emax (Zdigits2 (N / Z.pos my) + e')) as M.
    { change (fexp prec emax) with (fexp prec emax). rewrite !fexp_eq.
      unfold s in Hd. lia. }
    unfold e' in *. lia.
Qed.

(** ** The order of valid floats is the order of their values *)

Lemma valid_finite (s : bool) (m : positive) (e : Z) :
  valid_binary prec emax (S754_finite s m e) = true ->
  Zdigits2 (Zpos m) <= 53 /\ emin <= e <= 971
  /\ (emin < e -> Zdigits2 (Zpos m) = 53).
Proof.
  unfold valid_binary, bounded, canonical_mantissa. intros H.
  apply andb_prop in H. destruct H as [C B].
  apply Z.eqb_eq in C. apply Z.leb_le in B.
  change (Z.pos (digits2_pos m)) with (Zdigits2 (Z.pos m)) in C.
  change (fexp prec emax) with (fexp prec emax) in C.
  rewrite fexp_eq in C. unfold emax, prec in B. lia.
Qed.

Lemma le_vle (m1 m2 : positive) (e1 e2 : Z) :
  valid_binary prec emax (S754_finite false m1 e1) = true ->
  valid_binary prec emax (S754_finite false m2 e2) = true ->
  le (S754_finite false m1 e1) (S754_finite false m2 e2) = true ->
  vle m1 e1 m2 e2.
Proof.
  intros V1 V2 L. apply valid_finite in V1, V2.
  apply le_iff in L. destruct L as (_ & _ & L).
  unfold vle. unfold rank_le, rank_lt, rank in L.
  assert (e1 < e2 \/ (e1 = e2 /\ Z.pos m1 <= Z.pos m2)) as [H|[-> H]].
  { destruct L as [L|L]; [lia|]. injection L as -> ->. lia. }
  - replace (Z.min e1 e2) with e1 by lia. rewrite Z.sub_diag, Z.mul_1_r.
    pose proof (Zdigits2_spec (Z.pos m1) ltac:(lia)) as [_ U1].
    pose proof (Zdigits2_spec (Z.pos m2) ltac:(lia)) as [L2 _].
    assert (Zdigits2 (Z.pos m2) = 53) as D2 by lia. rewrite D2 in L2.
    assert (2 ^ Zdigits2 (Z.pos m1) <= 2 ^ 53)
      by (apply Z.pow_le_mono_r; lia).
    assert (2 ^ 1 <= 2 ^ (e2 - e1)) by (apply Z.pow_le_mono_r; lia).
    change (2 ^ 53) with (2 ^ (53 - 1) * 2 ^ 1) in *. nia.
  - rewrite Z.min_id, Z.sub_diag, !Z.mul_1_r. exact H.
Qed.

Lemma mul_mono_fin (m1 m2 mc : positive) (e1 e2 ec : Z) :
  53 <= Zdigits2 (Zpos mc) ->
  vle m1 e1 m2 e2 ->
  le (mul (S754_finite false m1 e1) (S754_finite false mc ec))
     (mul (S754_finite false m2 e2) (S754_finite false mc ec)) = true.
Proof.
  intros Hc V.
  destruct (mul_round_ratio m1 mc e1 ec Hc) as [-> F1].
  destruct (mul_round_ratio m2 mc e2 ec Hc) as [-> F2].
  apply round_ratio_mono_gen; try lia; try assumption.
  replace (Z.min (e1 + ec) (e2 + ec)) with (Z.min e1 e2 + ec) by lia.
  replace (e1 + ec - (Z.min e1 e2 + ec)) with (e1 - Z.min e1 e2) by lia.
  replace (e2 + ec - (Z.min e1 e2 + ec)) with (e2 - Z.min e1 e2) by lia.
  unfold vle in V. nia.
Qed.

Lemma div_mono_fin (m1 m2 my : positive) (e1 e2 ey : Z) :
  vle m1 e1 m2 e2 ->
  le (div (S754_finite false m1 e1) (S754_finite false my ey))
     (div (S754_finite false m2 e2) (S754_finite false my ey)) = true.
Proof.
  intros V.
  destruct (div_round_ratio m1 my e1 ey) as [-> F1].
  destruct (div_round_ratio m2 my e2 ey) as [-> F2].
  set (e1' := Z.min _ (e1 - ey)) in *. set (e2' := Z.min _ (e2 - ey)) in *.
  assert (e1' <= e1 - ey) as B1 by (unfold e1'; lia).
  assert (e2' <= e2 - ey) as B2 by (unfold e2'; lia).
  clearbody e1' e2'.
  pose proof (pow2_pos (e1 - ey - e1') ltac:(lia)).
  pose proof (pow2_pos (e2 - ey - e2') ltac:(lia)).
  apply round_ratio_mono_gen; try lia; try assumption.
  set (e0' := Z.min e1' e2'). set (e0 := Z.min e1 e2) in *.
  set (u := e0 - ey - e0'). assert (0 <= u) by (unfold u, e0, e0'; lia).
  assert (2 ^ (e1 - ey - e1') * 2 ^ (e1' - e0') = 2 ^ (e1 - e0) * 2 ^ u) as P1
    by (rewrite <- !pow2_split by (unfold e0, e0'; lia); f_equal; unfold u; lia).
  assert (2 ^ (e2 - ey - e2') * 2 ^ (e2' - e0') = 2 ^ (e2 - e0) * 2 ^ u) as P2
    by (rewrite <- !pow2_split by (unfold e0, e0'; lia); f_equal; unfold u; lia).
  replace (Z.pos m1 * 2 ^ (e1 - ey - e1') * 2 ^ (e1' - e0') * Z.pos my)
    with (Z.pos m1 * 2 ^ (e1 - e0) * (2 ^ u * Z.pos my))
    by (transitivity (Z.pos m1 * (2 ^ (e1 - ey - e1') * 2 ^ (e1' - e0')) * Z.pos my);
        [rewrite P1; ring | ring]).
  replace (Z.pos m2 * 2 ^ (e2 - ey - e2') * 2 ^ (e2' - e0') * Z.pos my)
    with (Z.pos m2 * 2 ^ (e2 - e0) * (2 ^ u * Z.pos my))
    by (transitivity (Z.pos m2 * (2 ^ (e2 - ey - e2') * 2 ^ (e2' - e0')) * Z.pos my);
        [rewrite P2; ring | ring]).
  pose proof (pow2_pos u ltac:(lia)).
  apply Z.mul_le_mono_nonneg_r; [nia | exact V].
Qed.

(** ** Floats from one half up *)

Lemma le_refl (x : float) : is_nan x = false -> le x x = true.
Proof. intros N. apply le_iff. repeat split; try assumption. right. reflexivity. Qed.

Lemma le_inf (x : float) : is_nan x = false -> le x (S754_infinity false) = true.
Proof.
  intros N. apply le_iff. repeat split; try assumption.
  destruct x as [s|[|]| |[|] m e]; try discriminate;
    try (right; reflexivity); left; simpl; lia.
Qed.

Lemma max_mono (c a b : float) :
  is_nan c = false -> le a b = true -> le (max c a) (max c b) = true.
Proof.
  intros Nc L. unfold max at 1. destruct (gt a c) eqn:G.
  - apply gt_iff in G. destruct G as (Na & _ & G).
    apply le_iff in L. destruct L as (_ & Nb & L).
    assert (gt b c = true) as G'
        by (apply gt_iff; repeat split; try assumption;
            eapply rank_lt_le_trans; eassumption).
    unfold max. rewrite G'. apply le_iff. auto.
  - apply max_ge_l. exact Nc.
Qed.

Lemma finish_nonneg (m e : Z) :
  0 <= m ->
  is_nan (finish false m e) = false
  /\ le (S754_zero false) (finish false m e) = true.
Proof.
  intros Hm. destruct m as [|p|p]; [| |lia]; unfold finish.
  - split; reflexivity.
  - destruct (_ <=? _); split; reflexivity.
Qed.

Lemma round_ratio_nonneg (N D e : Z) :
  0 <= N -> 0 < D -> fine N D e ->
  is_nan (round_ratio false N D e) = false
  /\ le (S754_zero false) (round_ratio false N D e) = true.
Proof.
  intros HN HD F.
  destruct (round_ratio_shape false N D e HN HD F) as (B & _ & _ & ->).
  destruct (_ =? _); apply finish_nonneg; lia.
Qed.

(** A rounding with the sign set is never above a positive number. *)
Lemma binary_round_aux_neg (m e : Z) (l : location) (c : float) :
  lt (S754_zero false) c = true ->
  gt (binary_round_aux prec emax true m e l) c = false.
Proof.
  intros Hc. apply lt_iff in Hc. destruct Hc as (_ & Nc & Hc).
  destruct (gt _ c) eqn:G; [|reflexivity]. exfalso.
  apply gt_iff in G. destruct G as (Nr & _ & G).
  pose proof (rank_lt_trans _ _ _ Hc G) as R. clear - R Nr.
  unfold binary_round_aux in R, Nr.
  destruct (shr_fexp _ _ _ _ _) as [r1 e1].
  destruct (shr_fexp _ _ _ _ _) as [r2 e2].
  destruct (shr_m r2); [|destruct (_ <=? _)|];
    try discriminate Nr; simpl in R; lia.
Qed.

Lemma Good_cases (x : float) :
  Good x ->
  x = S754_infinity false
  \/ exists m e, x = S754_finite false m e /\ Zdigits2 (Zpos m) = 53.
Proof.
  intros [V L]. apply le_iff in L. destruct L as (_ & N & L).
  destruct x as [s|[|]| |[|] m e]; try discriminate;
    try (exfalso; destruct L as [L|L]; [simpl in L; lia | discriminate L]).
  - left. reflexivity.
  - right. exists m, e. split; [reflexivity|].
    apply valid_finite in V. destruct V as (_ & _ & V). apply V.
    destruct L as [L|L]; [simpl in L; unfold emin; lia|].
    injection L as <- _. unfold emin. lia.
Qed.

Lemma Big_Good (x : float) : Big x -> Good x.
Proof.
  intros [V L]. split; [exact V|].
  apply le_trans with (y := lit 10 10); [reflexivity | exact L].
Qed.

Lemma Good_not_nan (x : float) : Good x -> is_nan x = false.
Proof. intros [_ L]. apply le_iff in L. tauto. Qed.

Lemma mul_comm (a b : float) : mul a b = mul b a.
Proof.
  unfold mul, SFmul.
  destruct a as [sa|sa| |sa ma ea], b as [sb|sb| |sb mb eb];
    try reflexivity; try (rewrite xorb_comm; reflexivity).
  rewrite xorb_comm, Pos.mul_comm, Z.add_comm. reflexivity.
Qed.

Lemma mul_inf_r (a : float) : Good a -> mul a (S754_infinity false) = S754_infinity false.
Proof. intros G. destruct (Good_cases a G) as [->|(m & e & -> & _)]; reflexivity. Qed.

Lemma mul_mono (a b c : float) :
  Good a -> Good b -> Good c -> le a b = true ->
  le (mul a c) (mul b c) = true.
Proof.
  intros Ga Gb Gc L.
  destruct (Good_cases c Gc) as [->|(mc & ec & -> & Dc)].
  - rewrite !mul_inf_r by assumption. reflexivity.
  - destruct (Good_cases a Ga) as [->|(ma & ea & -> & Da)].
    + assert (b = S754_infinity false) as ->.
      { apply le_iff in L. destruct L as (_ & Nb & L).
        destruct b as [s|[|]| |[|] m e]; try discriminate; try reflexivity;
          exfalso; (destruct L as [L|L]; [simpl in L; lia | discriminate L]). }
      reflexivity.
    + destruct (Good_cases b Gb) as [->|(mb & eb & -> & Db)].
      * destruct (mul_round_ratio ma mc ea ec ltac:(lia)) as [-> F].
        apply le_inf. apply round_ratio_nonneg; try lia. exact F.
      * apply mul_mono_fin; [lia|].
        apply le_vle; [apply Ga | apply Gb | exact L].
Qed.

Lemma mul_valid (a c : float) : Good a -> Good c -> valid (mul a c).
Proof.
  intros Ga Gc.
  destruct (Good_cases c Gc) as [->|(mc & ec & -> & Dc)].
  - rewrite mul_inf_r by assumption. reflexivity.
  - destruct (Good_cases a Ga) as [->|(ma & ea & -> & Da)]; [reflexivity|].
    destruct (mul_round_ratio ma mc ea ec ltac:(lia)) as [-> F].
    apply round_ratio_valid; try lia. exact F.
Qed.

(** A product is at least the product of lower bounds of its factors. *)
Lemma mul_lower (la lc a c : float) :
  Good la -> Good lc -> Good a -> Good c ->
  le la a = true -> le lc c = true ->
  le (mul la lc) (mul a c) = true.
Proof.
  intros Gla Glc Ga Gc La Lc.
  apply le_trans with (y := mul a lc).
  - apply mul_mono; assumption.
  - rewrite (mul_comm a lc), (mul_comm a c). apply mul_mono; assumption.
Qed.

Lemma Good_half : Good (lit 5 10).
Proof. split; reflexivity. Qed.

Lemma Good_one : Good (lit 10 10).
Proof. split; reflexivity. Qed.

Lemma mul_Big (a c : float) : Big a -> Big c -> Big (mul a c).
Proof.
  intros Ba Bc. split.
  - apply mul_valid; apply Big_Good; assumption.
  - change (lit 10 10) with (mul (lit 10 10) (lit 10 10)) at 1.
    apply mul_lower; try apply Good_one; try (apply Big_Good; assumption);
      [apply Ba | apply Bc].
Qed.

Lemma mul_Good_Big (a c : float) : Good a -> Big c -> Good (mul a c).
Proof.
  intros Ga Bc. split.
  - apply mul_valid; [|apply Big_Good]; assumption.
  - change (lit 5 10) with (mul (lit 5 10) (lit 10 10)) at 1.
    apply mul_lower; try apply Good_one; try apply Good_half;
      try (apply Big_Good; assumption); try assumption; [apply Ga | apply Bc].
Qed.

Lemma mul_Big_Good (a c : float) : Big a -> Good c -> Good (mul a c).
Proof. intros Ba Gc. rewrite mul_comm. apply mul_Good_Big; assumption. Qed.

(** ** The multipliers and the final rounding *)

(** [max(c, d / y)] for a positive constant [c] and a positive finite
    divisor [y] is a valid float, whatever valid float [d] is. *)
Lemma max_div_valid (c d : float) (my : positive) (ey : Z) :
  valid c -> valid d -> lt (S754_zero false) c = true ->
  valid (max c (div d (S754_finite false my ey))).
Proof.
  intros Vc Vd Hc. unfold max.
  destruct (gt _ c) eqn:G; [|exact Vc].
  destruct d as [s|s| |[|] m e]; try reflexivity.
  - exfalso. unfold div, SFdiv in G. cbn [xorb] in G.
    destruct (SFdiv_core_binary _ _ _ _ _ _) as [[mz ez] lz].
    rewrite binary_round_aux_neg in G by exact Hc. discriminate.
  - destruct (div_round_ratio m my e ey) as [-> F].
    apply round_ratio_valid; try lia. exact F.
Qed.

Lemma max_div_ge (c d y : float) :
  lt (S754_zero false) c = true -> le c (max c (div d y)) = true.
Proof. intros Hc. apply max_ge_l. apply lt_iff in Hc. tauto. Qed.

(** [d -> max(c, d / y)] is monotone. *)
Lemma max_div_mono (c d1 d2 : float) (my : positive) (ey : Z) :
  lt (S754_zero false) c = true ->
  valid d1 -> valid d2 -> le d1 d2 = true ->
  le (max c (div d1 (S754_finite false my ey)))
     (max c (div d2 (S754_finite false my ey))) = true.
Proof.
  intros Hc V1 V2 L.
  assert (is_nan c = false) as Nc by (apply lt_iff in Hc; tauto).
  assert (forall d, gt (div d (S754_finite false my ey)) c = false ->
                    le (max c (div d (S754_finite false my ey)))
                       (max c (div d2 (S754_finite false my ey))) = true) as Low.
  { intros d G. unfold max at 1. rewrite G. apply max_ge_l. exact Nc. }
  pose proof L as L'. apply le_iff in L'. destruct L' as (N1 & N2 & R).
  destruct d1 as [s1|[|]| |[|] m1 e1]; try discriminate.
  - apply Low. destruct s1; cbn; apply lt_iff in Hc;
      destruct (gt _ c) eqn:G; try reflexivity; apply gt_iff in G;
      exfalso; destruct Hc as (_ & _ & Hc); destruct G as (_ & _ & G);
      exact (rank_lt_irrefl _ (rank_lt_trans _ _ _ Hc G)).
  - apply Low. cbn. apply lt_iff in Hc.
    destruct (gt _ c) eqn:G; try reflexivity; apply gt_iff in G;
      exfalso; destruct Hc as (_ & _ & Hc); destruct G as (_ & _ & G).
    pose proof (rank_lt_trans _ _ _ Hc G) as X. simpl in X. lia.
  - assert (d2 = S754_infinity false) as ->.
    { destruct d2 as [s|[|]| |[|] m e]; try discriminate; try reflexivity;
        exfalso; (destruct R as [R|R]; [simpl in R; lia | discriminate R]). }
    apply le_refl. apply max_not_nan. exact Nc.
  - apply Low. unfold div, SFdiv. cbn [xorb].
    destruct (SFdiv_core_binary _ _ _ _ _ _) as [[mz ez] lz].
    apply binary_round_aux_neg. exact Hc.
  - destruct d2 as [s|[|]| |[|] m2 e2]; try discriminate;
      try (exfalso; destruct R as [R|R]; [simpl in R; lia | discriminate R]).
    + apply max_mono; [exact Nc|].
      change (div (S754_infinity false) (S754_finite false my ey))
        with (S754_infinity false).
      apply le_inf. destruct (div_round_ratio m1 my e1 ey) as [-> F].
      apply round_ratio_nonneg; try lia. exact F.
    + apply max_mono; [exact Nc|]. apply div_mono_fin.
      apply le_vle; assumption.
Qed.

Lemma rne_code4 (q c : Z) :
  0 <= c <= 3 ->
  rne (4 * q + c)
  = q + (if (c =? 3) || ((c =? 2) && Z.odd q) then 1 else 0).
Proof.
  intros Hc. unfold rne.
  assert ((4 * q + c) / 4 = q) as ->
      by (symmetry; apply Z.div_unique with (r := c); lia).
  assert ((4 * q + c) mod 4 = c) as ->
      by (symmetry; apply Z.mod_unique with (q := q); lia).
  reflexivity.
Qed.

(** Rounding half-even to an integer, as the rounding of a code. *)
Lemma half_even_code (num e : Z) :
  0 <= num ->
  half_even num e
  = rne (kappa (num * 2 ^ Z.max e 0) (2 ^ Z.max (- e) 0)).
Proof.
  intros Hn. unfold half_even. destruct (Z.leb_spec 0 e) as [He|He].
  - replace (Z.max e 0) with e by lia. replace (Z.max (- e) 0) with 0 by lia.
    change (2 ^ 0) with 1.
    rewrite <- (Z.mul_1_r (num * 2 ^ e)) at 2.
    rewrite kappa_exact, rne_exact by lia. reflexivity.
  - replace (Z.max e 0) with 0 by lia. replace (Z.max (- e) 0) with (- e) by lia.
    change (2 ^ 0) with 1. rewrite Z.mul_1_r.
    pose proof (pow2_pos (- e) ltac:(lia)) as Pd.
    rewrite kappa_divmod by lia.
    pose proof (Z.mod_pos_bound num (2 ^ (- e)) Pd) as B.
    set (q := num / 2 ^ (- e)). set (r := num mod 2 ^ (- e)) in *.
    set (d := 2 ^ (- e)) in *. clearbody q r d.
    destruct (Z.eqb_spec r 0) as [->|n].
    + rewrite rne_code4 by lia. change (2 * 0) with 0.
      destruct (Z.compare_spec 0 d); try lia. cbn. lia.
    + destruct (Z.compare_spec (2 * r) d); rewrite rne_code4 by lia; cbn;
        try lia. rewrite <- Z.negb_even. destruct (Z.even q); cbn; lia.
Qed.

Lemma half_even_nonneg (num e : Z) : 0 <= num -> 0 <= half_even num e.
Proof.
  intros Hn. rewrite half_even_code by exact Hn.
  pose proof (rne_bounds (kappa (num * 2 ^ Z.max e 0) (2 ^ Z.max (- e) 0))) as B.
  rewrite kappa_div4 in B by (apply pow2_pos; lia).
  assert (0 <= num * 2 ^ Z.max e 0 / 2 ^ Z.max (- e) 0).
  { apply Z.div_pos; [|apply pow2_pos; lia].
    pose proof (pow2_pos (Z.max e 0) ltac:(lia)). nia. }
  lia.
Qed.

Lemma half_even_mono (m1 m2 : positive) (e1 e2 : Z) :
  vle m1 e1 m2 e2 ->
  half_even (Zpos m1 * 100) e1 <= half_even (Zpos m2 * 100) e2.
Proof.
  intros V. rewrite !half_even_code by lia.
  apply rne_mono. apply kappa_mono; try (apply pow2_pos; lia).
  unfold vle in V.
  set (e0 := Z.min e1 e2) in *.
  set (a1 := Z.max e1 0). set (b1 := Z.max (- e1) 0).
  set (a2 := Z.max e2 0). set (b2 := Z.max (- e2) 0).
  assert (2 ^ a1 * 2 ^ b2 = 2 ^ (e1 - e0) * 2 ^ (e0 + b1 + b2)) as P1
    by (rewrite <- !pow2_split by (unfold a1, b1, b2, e0; lia);
        f_equal; unfold a1, b1, b2, e0; lia).
  assert (2 ^ a2 * 2 ^ b1 = 2 ^ (e2 - e0) * 2 ^ (e0 + b1 + b2)) as P2
    by (rewrite <- !pow2_split by (unfold a2, b1, b2, e0; lia);
        f_equal; unfold a2, b1, b2, e0; lia).
  replace (Z.pos m1 * 100 * 2 ^ a1 * 2 ^ b2)
    with (Z.pos m1 * 2 ^ (e1 - e0) * (100 * 2 ^ (e0 + b1 + b2)))
    by (transitivity (Z.pos m1 * 100 * (2 ^ a1 * 2 ^ b2));
        [rewrite P1; ring | ring]).
  replace (Z.pos m2 * 100 * 2 ^ a2 * 2 ^ b1)
    with (Z.pos m2 * 2 ^ (e2 - e0) * (100 * 2 ^ (e0 + b1 + b2)))
    by (transitivity (Z.pos m2 * 100 * (2 ^ a2 * 2 ^ b1));
        [rewrite P2; ring | ring]).
  pose proof (pow2_pos (e0 + b1 + b2) ltac:(unfold b1, b2, e0; lia)).
  apply Z.mul_le_mono_nonneg_r; [lia | exact V].
Qed.

Lemma round2_finite (m : positive) (e : Z) :
  is_nan (round2 (S754_finite false m e)) = false
  /\ le (S754_zero false) (round2 (S754_finite false m e)) = true.
Proof.
  unfold round2. destruct (half_even _ _) as [|n|n]; try (split; reflexivity).
  change (of_int 100) with (S754_finite false 7036874417766400 (-46)).
  destruct (div_round_ratio n 7036874417766400 0 (-46)) as [-> F].
  apply round_ratio_nonneg; try lia. exact F.
Qed.

(** [round(x, 2)] is monotone on the numbers from one half up. *)
Lemma round2_mono (a b : float) :
  Good a -> Good b -> le a b = true -> le (round2 a) (round2 b) = true.
Proof.
  intros Ga Gb L.
  destruct (Good_cases a Ga) as [->|(ma & ea & -> & Da)].
  - assert (b = S754_infinity false) as ->.
    { apply le_iff in L. destruct L as (_ & Nb & L).
      destruct b as [s|[|]| |[|] m e]; try discriminate; try reflexivity;
        exfalso; (destruct L as [L|L]; [simpl in L; lia | discriminate L]). }
    reflexivity.
  - destruct (Good_cases b Gb) as [->|(mb & eb & -> & Db)].
    + apply le_inf. apply round2_finite.
    + pose proof (half_even_mono ma mb ea eb
                    (le_vle _ _ _ _ (proj1 Ga) (proj1 Gb) L)) as M.
      pose proof (half_even_nonneg (Z.pos ma * 100) ea ltac:(lia)) as Na.
      pose proof (round2_finite mb eb) as [_ Zb].
      unfold round2 in *.
      destruct (half_even (Z.pos ma * 100) ea) as [|na|na]; try lia;
        [exact Zb|].
      destruct (half_even (Z.pos mb * 100) eb) as [|nb|nb]; try lia.
      change (of_int 100) with (S754_finite false 7036874417766400 (-46)).
      apply div_mono_fin. unfold vle. rewrite Z.min_id, Z.sub_diag. lia.
Qed.

End RoundingFacts.

(* ================================================================== *)
(** * Properties of the availability check *)

Module AvailabilityFacts.

Import Availability.

Lemma overlaps_spec (s e bs bd : Z) :
  overlaps s e (bs, bd) = true <-> intervals_overlap s e bs (bs + bd).
Proof.
  unfold overlaps, intervals_overlap.
  rewrite negb_true_iff, orb_false_iff, Z.leb_gt, Z.geb_leb, Z.leb_gt.
  lia.
Qed.

(** When every stored start time converts, the loop is an [existsb]. *)
Lemma scan_existsb (s e : Z) (booked_slots : list (option string * Z)) :
  forall hs, hours booked_slots = Some hs ->
  scan s e booked_slots = Some (negb (existsb (overlaps s e) hs)).
Proof.
  induction booked_slots as [|[t d] rest IH]; intros hs Hhs;
    cbn [scan hours] in *.
  - injection Hhs as <-. reflexivity.
  - destruct (booked_hour t) as [h|]; [|discriminate].
    destruct (hours rest) as [hs'|]; [|discriminate].
    injection Hhs as <-. cbn [existsb].
    destruct (overlaps s e (h, d)); [reflexivity|].
    apply IH. reflexivity.
Qed.

Lemma is_slot_available_existsb (start_time : string) (duration : Z)
      (booked_slots : list (option string * Z)) (start_hour : Z)
      (hs : list (Z * Z)) :
  hour_of start_time = Some start_hour ->
  hours booked_slots = Some hs ->
  is_slot_available start_time duration booked_slots
  = Some (negb (existsb (overlaps start_hour (start_hour + duration)) hs)).
Proof.
  intros Hs Hhs. unfold is_slot_available. rewrite Hs.
  apply scan_existsb. exact Hhs.
Qed.

(** C1.  For every requested start hour, duration and list of booked
    slots, the availability check answers, and it answers [False] exactly
    when some booked interval [bs, bs+bd) overlaps the requested interval
    [start, start+duration) by the half-open rule NOT (a2 <= b1 OR
    a1 >= b2).  A request 12:00-14:00 next to a booking 10:00-12:00 is
    available, a request 11:00-13:00 is not. *)
Theorem is_slot_available_iff_overlap
        (start_time : string) (duration : Z)
        (booked_slots : list (option string * Z))
        (start_hour : Z) (hs : list (Z * Z)) :
  hour_of start_time = Some start_hour ->
  hours booked_slots = Some hs ->
  (exists b : bool,
      is_slot_available start_time duration booked_slots = Some b /\
      (b = false <->
       exists bs bd : Z,
         In (bs, bd) hs /\
         intervals_overlap start_hour (start_hour + duration) bs (bs + bd)))
  /\ is_slot_available "12:00" 2 [(Some "10:00", 2)] = Some true
  /\ is_slot_available "11:00" 2 [(Some "10:00", 2)] = Some false.
Proof.
  intros Hs Hhs. split; [|split; reflexivity].
  eexists. split.
  - apply is_slot_available_existsb; eassumption.
  - rewrite negb_false_iff, existsb_exists. split.
    + intros [[bs bd] [Hin Hov]]. exists bs, bd. split; [exact Hin|].
      apply overlaps_spec. exact Hov.
    + intros (bs & bd & Hin & Hov). exists (bs, bd). split; [exact Hin|].
      apply overlaps_spec. exact Hov.
Qed.

Lemma is_slot_available_iff_overlap_witness :
  exists b : bool,
    is_slot_available "14:00" 3 [(Some "10:00", 2); (Some "16:00", 1)] = Some b /\
    (b = false <->
     exists bs bd : Z,
       In (bs, bd) [(10, 2); (16, 1)] /\
       intervals_overlap 14 (14 + 3) bs (bs + bd)).
Proof.
  exact (proj1 (is_slot_available_iff_overlap
                  "14:00" 3 [(Some "10:00", 2); (Some "16:00", 1)]
                  14 [(10, 2); (16, 1)] eq_refl eq_refl)).
Defined.

(** C7, as the code has it.  A duration of zero or less is not rejected:
    the check raises nothing for it and answers by the same overlap rule,
    so it reports the slot available whenever nothing is booked; and the
    endpoint passes such a duration on and answers 200 with the slots. *)
Theorem nonpositive_duration_is_accepted
        (start_time : string) (duration : Z)
        (booked_slots : list (option string * Z))
        (start_hour : Z) (hs : list (Z * Z)) :
  duration <= 0 ->
  hour_of start_time = Some start_hour ->
  hours booked_slots = Some hs ->
  is_slot_available start_time duration booked_slots
  = Some (negb (existsb (overlaps start_hour (start_hour + duration)) hs))
  /\ is_slot_available start_time duration [] = Some true
  /\ forall (table : Store.bookings) (p d text : string),
       PyStr.int text = Some duration ->
       p <> "" -> d <> "" ->
       Scheduling.get_optimal_slots table (Some p) (Some d) (Some text)
       = Scheduling.Ok200 (Scheduling.find_optimal_slots table p d duration).
Proof.
  intros _ Hs Hhs. split; [|split].
  - apply is_slot_available_existsb; assumption.
  - unfold is_slot_available. rewrite Hs. reflexivity.
  - intros table p d text Hint Hp Hd.
    unfold Scheduling.get_optimal_slots, Scheduling.missing. rewrite Hint.
    apply String.eqb_neq in Hp, Hd. rewrite Hp, Hd. reflexivity.
Qed.

Lemma nonpositive_duration_is_accepted_witness :
  is_slot_available "10:00" (-1) [(Some "09:00", 3)] = Some true
  /\ is_slot_available "10:00" (-1) [] = Some true.
Proof.
  pose proof (nonpositive_duration_is_accepted
                "10:00" (-1) [(Some "09:00", 3)] 10 [(9, 3)]
                ltac:(lia) eq_refl eq_refl) as [H1 [H2 _]].
  split; [exact H1 | exact H2].
Defined.

(** C7 as stated fails: durations 0 and -3 are answered "available", and
    the endpoint returns the whole catalog for duration 0. *)
Lemma zero_duration_not_rejected :
  is_slot_available "10:00" 0 [] = Some true
  /\ is_slot_available "10:00" (-3) [(Some "12:00", 2)] = Some true
  /\ exists slots,
       Scheduling.get_optimal_slots [] (Some "p1") (Some "2024-03-04") (Some "0")
       = Scheduling.Ok200 slots
       /\ map Scheduling.time slots
          = ["16:00"; "17:00"; "18:00"; "10:00"; "11:00"; "12:00";
             "09:00"; "13:00"; "14:00"; "15:00"; "19:00"; "20:00"].
Proof.
  split; [reflexivity|]. split; [reflexivity|].
  eexists. split; [vm_compute; reflexivity | reflexivity].
Qed.

End AvailabilityFacts.

(* ================================================================== *)
(** * Properties of the slot scorer *)

Module SchedulingFacts.

Import PyFloat FloatOrder Availability Scheduling.

Lemma weekday_range (d : PyDate.date) : 0 <= PyDate.weekday d < 7.
Proof. unfold PyDate.weekday. apply Z.mod_pos_bound. lia. Qed.

Lemma is_weekend_saturday_or_sunday (d : PyDate.date) :
  is_weekend d = (PyDate.weekday d =? 5) || (PyDate.weekday d =? 6).
Proof.
  unfold is_weekend. pose proof (weekday_range d) as R.
  destruct (Z.geb_spec (PyDate.weekday d) 5) as [H|H];
    destruct (Z.eqb_spec (PyDate.weekday d) 5);
    destruct (Z.eqb_spec (PyDate.weekday d) 6); simpl; try reflexivity; lia.
Qed.

(** The score is the raw sum put through [min(1.0, max(0.0, _))]. *)
Lemma calculate_slot_score_raw (time_slot date : string) (duration hour : Z)
      (date_obj : PyDate.date) :
  hour_of time_slot = Some hour ->
  PyDate.strptime date = Some date_obj ->
  calculate_slot_score time_slot date duration
  = Some (min (lit 10 10) (max (lit 0 10) (raw_score hour (is_weekend date_obj)))).
Proof.
  intros Hh Hd. unfold calculate_slot_score, raw_score. rewrite Hh, Hd.
  reflexivity.
Qed.

(** Whatever goes in, the clamp gives a number between 0 and 1. *)
Lemma clamp_bounds (x : float) :
  let s := min (lit 10 10) (max (lit 0 10) x) in
  is_nan s = false /\ le (lit 0 10) s = true /\ le s (lit 10 10) = true.
Proof.
  cbv zeta. split; [|split].
  - apply min_not_nan. reflexivity.
  - unfold min. destruct (lt _ _); [|reflexivity].
    apply max_ge_l. reflexivity.
  - apply min_le_l. reflexivity.
Qed.

(** The code's sequence of additions and the formula of the
    specification are the same float, in all sixteen cases. *)
Lemma clamped_raw_is_spec (hour : Z) (weekend : bool) :
  min (lit 10 10) (max (lit 0 10) (raw_score hour weekend))
  = spec_score hour weekend.
Proof.
  unfold raw_score, hour_score, spec_score.
  generalize (hour_in hour [16; 17; 18]) (hour_in hour [10; 11; 12])
             ((hour <? 9) || (hour >? 19)).
  intros [|] [|] [|]; destruct weekend; vm_compute; reflexivity.
Qed.

(** *** What the loops and the sort keep *)

Lemma Forall_insert (P : Slot -> Prop) (x : Slot) (l : list Slot) :
  P x -> Forall P l -> Forall P (insert_by_score x l).
Proof.
  intros Hx Hl. induction Hl as [|y r Hy Hr IH]; simpl.
  - constructor; [exact Hx | constructor].
  - destruct (lt (score x) (score y)).
    + constructor; assumption.
    + constructor; [exact Hx|]. constructor; assumption.
Qed.

Lemma Forall_sort (P : Slot -> Prop) (l : list Slot) :
  Forall P l -> Forall P (sort_by_score l).
Proof.
  induction 1 as [|x r Hx Hr IH]; simpl; [constructor|].
  apply Forall_insert; assumption.
Qed.

Lemma available_slots_entries (slots : list string) (date : string)
      (duration : Z) (booked_slots : list (option string * Z)) :
  forall l, available_slots slots date duration booked_slots = Some l ->
  Forall (fun slot => In (time slot) slots /\ entry_ok date duration slot) l.
Proof.
  induction slots as [|t rest IH]; intros l H; cbn [available_slots] in H.
  - injection H as <-. constructor.
  - destruct (is_slot_available t duration booked_slots) as [[|]|];
      [| |discriminate].
    + destruct (calculate_slot_score t date duration) as [sc|] eqn:Hsc;
        [|discriminate].
      destruct (available_slots rest date duration booked_slots) as [l'|];
        [|discriminate].
      injection H as <-. constructor.
      * split; [left; reflexivity|]. split; [exact Hsc | reflexivity].
      * eapply Forall_impl; [|apply IH; reflexivity].
        intros a [Ha Hok]. split; [right; exact Ha | exact Hok].
    + eapply Forall_impl; [|apply IH; exact H].
      intros a [Ha Hok]. split; [right; exact Ha | exact Hok].
Qed.

Lemma find_optimal_slots_entries (table : Store.bookings)
      (photographer_id date : string) (duration : Z) :
  Forall (fun slot => In (time slot) time_slots /\ entry_ok date duration slot)
         (find_optimal_slots table photographer_id date duration).
Proof.
  unfold find_optimal_slots.
  destruct (available_slots _ _ _ _) as [l|] eqn:H; [|constructor].
  apply Forall_sort. eapply available_slots_entries. exact H.
Qed.

(** C3.  For a start time and a date that convert, the score is the
    specification's formula: 0.5, plus 0.3 for hours 16-18, plus 0.2 for
    hours 10-12, minus 0.2 for hours below 9 or above 19, plus 0.1 on
    Saturday and Sunday, clamped to [0,1]; so it lies in [0,1]; and every
    returned slot carries its score with [recommended] set exactly when
    the score is greater than 0.7. *)
Theorem slot_score_formula (time_slot date : string) (duration hour : Z)
        (date_obj : PyDate.date) :
  hour_of time_slot = Some hour ->
  PyDate.strptime date = Some date_obj ->
  exists s : float,
    calculate_slot_score time_slot date duration = Some s
    /\ s = spec_score hour ((PyDate.weekday date_obj =? 5)
                            || (PyDate.weekday date_obj =? 6))
    /\ le (lit 0 10) s = true /\ le s (lit 10 10) = true
    /\ forall (table : Store.bookings) (photographer_id : string) (slot : Slot),
         In slot (find_optimal_slots table photographer_id date duration) ->
         calculate_slot_score (time slot) date duration = Some (score slot)
         /\ recommended slot = gt (score slot) (lit 7 10).
Proof.
  intros Hh Hd. eexists. split; [|split; [|split; [|split]]].
  - eapply calculate_slot_score_raw; eassumption.
  - rewrite clamped_raw_is_spec, is_weekend_saturday_or_sunday. reflexivity.
  - apply clamp_bounds.
  - apply clamp_bounds.
  - intros table p slot Hin.
    pose proof (find_optimal_slots_entries table p date duration) as F.
    rewrite Forall_forall in F. apply F in Hin. apply Hin.
Qed.

Lemma slot_score_formula_witness :
  exists s : float,
    calculate_slot_score "17:00" "2024-05-18" 2 = Some s
    /\ s = lit 9 10 /\ gt s (lit 7 10) = true.
Proof.
  destruct (slot_score_formula "17:00" "2024-05-18" 2 17
              (PyDate.mkdate 2024 5 18) eq_refl eq_refl)
    as (s & Hs & Hf & _).
  exists s. split; [exact Hs|]. rewrite Hf. split; reflexivity.
Defined.

(** C10.  For every start time of the catalog and every date that
    converts, the hour is between 9 and 20, the two bonuses exclude each
    other, neither clamp acts (the score is the raw sum), and the score
    lies between 0.3 and 0.9. *)
Theorem catalog_score_range (slot date : string) (duration : Z)
        (date_obj : PyDate.date) :
  In slot time_slots ->
  PyDate.strptime date = Some date_obj ->
  exists (hour : Z) (s : float),
    hour_of slot = Some hour /\ 9 <= hour <= 20
    /\ hour_in hour [16; 17; 18] && hour_in hour [10; 11; 12] = false
    /\ calculate_slot_score slot date duration = Some s
    /\ s = raw_score hour (is_weekend date_obj)
    /\ le (lit 3 10) s = true /\ le s (lit 9 10) = true.
Proof.
  intros Hin Hd. unfold time_slots in Hin. cbn [In] in Hin.
  repeat (destruct Hin as [<-|Hin]); [..|contradiction];
    (match goal with
     | |- exists hour s, hour_of ?t = _ /\ _ =>
         let h := eval vm_compute in (hour_of t) in
         match h with
         | Some ?z =>
             exists z; eexists; split; [reflexivity|]; split; [lia|];
             split; [reflexivity|];
             rewrite (calculate_slot_score_raw t date duration z date_obj
                        eq_refl Hd)
         end
     end;
     split; [reflexivity|];
     destruct (is_weekend date_obj); vm_compute; repeat split).
Qed.

Lemma catalog_score_range_witness :
  exists (hour : Z) (s : float),
    hour_of "20:00" = Some hour
    /\ calculate_slot_score "20:00" "2024-03-04" 2 = Some s
    /\ s = lit 3 10.
Proof.
  destruct (catalog_score_range "20:00" "2024-03-04" 2
              (PyDate.mkdate 2024 3 4)
              ltac:(unfold time_slots; cbn [In]; tauto) eq_refl)
    as (hour & s & Hh & _ & _ & Hs & Hraw & _).
  exists hour, s. split; [exact Hh|]. split; [exact Hs|].
  rewrite Hraw. injection Hh as <-. reflexivity.
Defined.

(** *** The order of the returned list *)

Lemma score_not_nan (time_slot date : string) (duration : Z) (s : float) :
  calculate_slot_score time_slot date duration = Some s -> is_nan s = false.
Proof.
  unfold calculate_slot_score.
  destruct (hour_of time_slot); [|discriminate].
  destruct (PyDate.strptime date); [|discriminate].
  intros H. injection H as <-. apply clamp_bounds.
Qed.

Lemma time_slots_ascending :
  StronglySorted (fun t u => earlier_time t u = true) time_slots.
Proof. unfold time_slots. repeat constructor. Qed.

(** The second loop keeps the catalog's order. *)
Lemma available_slots_ascending (slots : list string) (date : string)
      (duration : Z) (booked_slots : list (option string * Z)) :
  StronglySorted (fun t u => earlier_time t u = true) slots ->
  forall l, available_slots slots date duration booked_slots = Some l ->
  StronglySorted (fun a b => earlier_time (time a) (time b) = true) l.
Proof.
  induction 1 as [|t rest Hrest IH Ht]; intros l H;
    cbn [available_slots] in H.
  - injection H as <-. constructor.
  - destruct (is_slot_available t duration booked_slots) as [[|]|];
      [| |discriminate].
    + destruct (calculate_slot_score t date duration) as [sc|]; [|discriminate].
      destruct (available_slots rest date duration booked_slots) as [l'|] eqn:E;
        [|discriminate].
      injection H as <-. constructor; [apply IH; reflexivity|].
      pose proof (available_slots_entries _ _ _ _ _ E) as F.
      rewrite Forall_forall in *. intros a Ha. cbn [time].
      apply Ht. apply (F a Ha).
    + apply IH. exact H.
Qed.

(** Inserting an entry that starts before all of a ranked list keeps the
    list ranked. *)
Lemma insert_ranked (x : Slot) (r : list Slot) :
  is_nan (score x) = false ->
  Forall (fun y => is_nan (score y) = false) r ->
  Forall (fun y => earlier_time (time x) (time y) = true) r ->
  StronglySorted ranked_before r ->
  StronglySorted ranked_before (insert_by_score x r).
Proof.
  intros Nx Nr Er Sr. induction Sr as [|y r' Sr' IH Hy]; cbn [insert_by_score].
  - repeat constructor.
  - inversion Nr as [|? ? Ny Nr']; subst.
    inversion Er as [|? ? Ey Er']; subst.
    destruct (lt (score x) (score y)) eqn:L.
    + constructor; [apply IH; assumption|].
      apply Forall_insert; [|exact Hy].
      apply lt_iff in L. destruct L as (_ & _ & L). split.
      * apply ge_iff. unfold rank_le. auto.
      * intros E. apply eq_iff in E. destruct E as (_ & _ & E).
        rewrite E in L. exfalso. exact (rank_lt_irrefl _ L).
    + pose proof (not_lt_ge _ _ Nx Ny L) as Gxy.
      constructor; [constructor; assumption|].
      constructor.
      * split; [exact Gxy | intros _; exact Ey].
      * rewrite Forall_forall in *. intros z Hz. split.
        -- destruct (Hy z Hz) as [Gyz _]. unfold ge in *.
           exact (le_trans _ _ _ Gyz Gxy).
        -- intros _. apply Er'. exact Hz.
Qed.

Lemma sort_ranked (l : list Slot) :
  Forall (fun y => is_nan (score y) = false) l ->
  StronglySorted (fun a b => earlier_time (time a) (time b) = true) l ->
  StronglySorted ranked_before (sort_by_score l).
Proof.
  intros Nl Sl. induction Sl as [|x r Sr IH Hx]; cbn [sort_by_score fold_right].
  - constructor.
  - inversion Nl as [|? ? Nx Nr]; subst.
    apply insert_ranked.
    + exact Nx.
    + apply Forall_sort. exact Nr.
    + apply Forall_sort. exact Hx.
    + apply IH. exact Nr.
Qed.

(** C8.  Whatever the photographer, date, duration and bookings, the
    returned slots are ranked: every slot's score is at least the score
    of every later slot, and of two slots with equal scores the one with
    the earlier start time comes first. *)
Theorem find_optimal_slots_ranked (table : Store.bookings)
        (photographer_id date : string) (duration : Z) :
  StronglySorted ranked_before
                 (find_optimal_slots table photographer_id date duration).
Proof.
  unfold find_optimal_slots.
  destruct (available_slots _ _ _ _) as [l|] eqn:H; [|constructor].
  apply sort_ranked.
  - pose proof (available_slots_entries _ _ _ _ _ H) as F.
    eapply Forall_impl; [|exact F].
    intros a [_ [Hs _]]. eapply score_not_nan. exact Hs.
  - eapply available_slots_ascending; [apply time_slots_ascending | exact H].
Qed.

End SchedulingFacts.

(* ================================================================== *)
(** * Properties of the pricing engine *)

Module PricingFacts.

Import PyFloat FloatOrder Rounding RoundingFacts Pricing.

Lemma location_multiplier_nonneg (location_lower : string) :
  le (lit 0 10)
     (first_city location_lower location_multipliers (lit 10 10)) = true.
Proof.
  unfold location_multipliers. cbn [first_city].
  repeat (destruct (PyStr.contains _ location_lower); [reflexivity|]).
  reflexivity.
Qed.

Lemma demand_multiplier_nonneg (date location : string) :
  le (lit 0 10) (calculate_demand_multiplier date location) = true.
Proof.
  unfold calculate_demand_multiplier.
  destruct (PyDate.strptime date) as [date_obj|]; [|reflexivity].
  destruct (_ || _); [reflexivity|].
  destruct (_ >=? _); [reflexivity|].
  destruct (Scheduling.hour_in _ _); reflexivity.
Qed.

(** [max(c, x)] is at least 0 when the constant [c] is. *)
Lemma max_nonneg (c x : float) :
  le (lit 0 10) c = true -> le (lit 0 10) (max c x) = true.
Proof.
  intros H. apply le_trans with (y := c); [exact H|].
  apply max_ge_l. apply le_iff in H. tauto.
Qed.

(** C4.  For a date that converts, the quote carries the base price of
    the event type, the five named multipliers, each of them at least 0,
    and as final price the product base * location * date * duration *
    rating * demand rounded to two decimals. *)
Theorem quote_is_rounded_product (event_type location date : string)
        (duration photographer_rating : float) (date_obj : PyDate.date) :
  PyDate.strptime date = Some date_obj ->
  exists loc dat dur rat dem : float,
    let q := calculate_dynamic_price event_type location date
                                     duration photographer_rating in
    base_price q = get (PyStr.lower event_type) base_prices 500
    /\ factors q = [("location_multiplier", loc); ("date_multiplier", dat);
                    ("duration_multiplier", dur); ("rating_multiplier", rat);
                    ("demand_multiplier", dem)]
    /\ final_price q
       = Float (round2 (mul (mul (mul (mul (mul (of_int (base_price q)) loc)
                                           dat) dur) rat) dem))
    /\ le (lit 0 10) loc = true /\ le (lit 0 10) dat = true
    /\ le (lit 0 10) dur = true /\ le (lit 0 10) rat = true
    /\ le (lit 0 10) dem = true.
Proof.
  intros Hd. unfold calculate_dynamic_price. rewrite Hd.
  do 5 eexists. cbv zeta. cbn [base_price factors final_price].
  split; [reflexivity|]. split; [reflexivity|]. split; [reflexivity|].
  split; [apply location_multiplier_nonneg|].
  split; [destruct (_ >=? _); destruct (Scheduling.hour_in _ _); reflexivity|].
  split; [apply max_nonneg; reflexivity|].
  split; [apply max_nonneg; reflexivity|].
  apply demand_multiplier_nonneg.
Qed.

Lemma quote_is_rounded_product_witness :
  exists loc dat dur rat dem : float,
    factors (calculate_dynamic_price "wedding" "Navi Mumbai" "2024-05-18"
                                     (of_int 4) (lit 48 10))
    = [("location_multiplier", loc); ("date_multiplier", dat);
       ("duration_multiplier", dur); ("rating_multiplier", rat);
       ("demand_multiplier", dem)]
    /\ le (lit 0 10) dur = true.
Proof.
  destruct (quote_is_rounded_product
              "wedding" "Navi Mumbai" "2024-05-18" (of_int 4) (lit 48 10)
              (PyDate.mkdate 2024 5 18) eq_refl)
    as (loc & dat & dur & rat & dem & _ & Hf & _ & _ & _ & Hdur & _).
  exists loc, dat, dur, rat, dem. split; [exact Hf | exact Hdur].
Defined.

(** C5.  quote('portrait', 'Chennai', '2024-03-04', 2, 4.0): the date is
    a Monday in March; base 300, location 1.2, date 1.0, duration 1.0,
    rating 0.8, demand 1.0, final price 288.0. *)
Theorem quote_portrait_chennai :
  PyDate.strptime "2024-03-04" = Some (PyDate.mkdate 2024 3 4)
  /\ PyDate.weekday (PyDate.mkdate 2024 3 4) = 0
  /\ calculate_dynamic_price "portrait" "Chennai" "2024-03-04"
                             (of_int 2) (lit 40 10)
     = mkQuote 300 (Float (lit 2880 10))
               [("location_multiplier", lit 12 10);
                ("date_multiplier", lit 10 10);
                ("duration_multiplier", lit 10 10);
                ("rating_multiplier", lit 8 10);
                ("demand_multiplier", lit 10 10)].
Proof. split; [reflexivity|]. split; [reflexivity|]. vm_compute. reflexivity. Qed.

(** C6, as the code has it.  When the date does not convert nothing is
    raised: the quote is the fixed default, base price 500 and final
    price 500 whatever the event type, with no factors. *)
Theorem unparseable_date_gives_default_quote
        (event_type location date : string)
        (duration photographer_rating : float) :
  PyDate.strptime date = None ->
  calculate_dynamic_price event_type location date duration photographer_rating
  = mkQuote 500 (Int 500) [].
Proof.
  intros Hd. unfold calculate_dynamic_price. rewrite Hd. reflexivity.
Qed.

Lemma unparseable_date_gives_default_quote_witness :
  calculate_dynamic_price "family" "Pune" "next friday" (of_int 2) (lit 45 10)
  = mkQuote 500 (Int 500) [].
Proof.
  exact (unparseable_date_gives_default_quote
           "family" "Pune" "next friday" (of_int 2) (lit 45 10) eq_refl).
Defined.

(** C6 as stated fails: for a wedding, whose base price is 1500, a date
    that does not convert gives final price 500. *)
Lemma wedding_quote_with_bad_date :
  PyDate.strptime "18/05/2024" = None
  /\ get (PyStr.lower "wedding") base_prices 500 = 1500
  /\ final_price (calculate_dynamic_price "wedding" "Mumbai" "18/05/2024"
                                          (of_int 4) (lit 48 10))
     = Int 500
  /\ num_eq_int
       (final_price (calculate_dynamic_price "wedding" "Mumbai" "18/05/2024"
                                             (of_int 4) (lit 48 10)))
       1500 = false.
Proof. repeat split. Qed.

(** *** The final price grows with the duration *)

Lemma base_price_Big (event_type_lower : string) :
  Big (of_int (get event_type_lower base_prices 500)).
Proof.
  unfold base_prices. cbn [get].
  repeat (destruct (String.eqb event_type_lower _); [split; reflexivity|]).
  split; reflexivity.
Qed.

Lemma location_multiplier_Big (location_lower : string) :
  Big (first_city location_lower location_multipliers (lit 10 10)).
Proof.
  unfold location_multipliers. cbn [first_city].
  repeat (destruct (PyStr.contains _ location_lower); [split; reflexivity|]).
  split; reflexivity.
Qed.

Lemma date_multiplier_Big (weekend season : bool) :
  Big (let date_multiplier := lit 10 10 in
       let date_multiplier :=
         if weekend then add date_multiplier (lit 2 10) else date_multiplier in
       if season then add date_multiplier (lit 15 100) else date_multiplier).
Proof. destruct weekend, season; split; reflexivity. Qed.

Lemma demand_multiplier_Big (date location : string) :
  Big (calculate_demand_multiplier date location).
Proof.
  unfold calculate_demand_multiplier.
  destruct (PyDate.strptime date) as [date_obj|]; [|split; reflexivity].
  destruct (_ || _); [split; reflexivity|].
  destruct (_ >=? _); [split; reflexivity|].
  destruct (Scheduling.hour_in _ _); split; reflexivity.
Qed.

Lemma duration_multiplier_Big (duration : float) :
  valid duration -> Big (max (lit 10 10) (div duration (lit 20 10))).
Proof.
  intros V. change (lit 20 10) with (S754_finite false 4503599627370496 (-51)).
  split.
  - apply max_div_valid; [reflexivity | exact V | reflexivity].
  - apply max_div_ge. reflexivity.
Qed.

Lemma rating_multiplier_Good (rating : float) :
  valid rating -> Good (max (lit 8 10) (div rating (lit 50 10))).
Proof.
  intros V. change (lit 50 10) with (S754_finite false 5629499534213120 (-50)).
  split.
  - apply max_div_valid; [reflexivity | exact V | reflexivity].
  - apply le_trans with (y := lit 8 10); [reflexivity|].
    apply max_div_ge. reflexivity.
Qed.

(** C9.  For every event type, location, date that converts and rating,
    the quoted final price does not decrease with the duration: for
    binary64 durations d1 <= d2 the final price for d1 is at most the
    final price for d2.  The duration multiplier is max(1.0, d / 2.0) and
    the other four factors are the same in both quotes. *)
Theorem final_price_monotone_in_duration
        (event_type location date : string)
        (d1 d2 photographer_rating : float) (date_obj : PyDate.date) :
  PyDate.strptime date = Some date_obj ->
  valid d1 -> valid d2 -> valid photographer_rating ->
  le d1 d2 = true ->
  exists p1 p2 loc dat rat dem : float,
    let q1 := calculate_dynamic_price event_type location date
                                      d1 photographer_rating in
    let q2 := calculate_dynamic_price event_type location date
                                      d2 photographer_rating in
    final_price q1 = Float p1 /\ final_price q2 = Float p2
    /\ le p1 p2 = true
    /\ factors q1
       = [("location_multiplier", loc); ("date_multiplier", dat);
          ("duration_multiplier", max (lit 10 10) (div d1 (lit 20 10)));
          ("rating_multiplier", rat); ("demand_multiplier", dem)]
    /\ factors q2
       = [("location_multiplier", loc); ("date_multiplier", dat);
          ("duration_multiplier", max (lit 10 10) (div d2 (lit 20 10)));
          ("rating_multiplier", rat); ("demand_multiplier", dem)].
Proof.
  intros Hd V1 V2 Vr L. unfold calculate_dynamic_price. rewrite Hd.
  cbv zeta. cbn [final_price factors]. do 6 eexists.
  split; [reflexivity|]. split; [reflexivity|].
  split; [|split; reflexivity].
  set (base := of_int (get (PyStr.lower event_type) base_prices 500)).
  set (loc := first_city (PyStr.lower location) location_multipliers (lit 10 10)).
  match goal with |- context [mul (mul base loc) ?d] => set (dat := d) end.
  set (rat := max (lit 8 10) (div photographer_rating (lit 50 10))).
  set (dem := calculate_demand_multiplier date location).
  assert (Big base) as Bb by apply base_price_Big.
  assert (Big loc) as Bl by apply location_multiplier_Big.
  assert (Big dat) as Bd.
  { unfold dat.
    apply (date_multiplier_Big (Z.geb (PyDate.weekday date_obj) 5)
             (Scheduling.hour_in (PyDate.month date_obj) [12; 5; 6])). }
  assert (Good rat) as Gr by (apply rating_multiplier_Good; exact Vr).
  assert (Big dem) as Bm by apply demand_multiplier_Big.
  pose proof (duration_multiplier_Big d1 V1) as B1.
  pose proof (duration_multiplier_Big d2 V2) as B2.
  assert (le (max (lit 10 10) (div d1 (lit 20 10)))
             (max (lit 10 10) (div d2 (lit 20 10))) = true) as Ld.
  { change (lit 20 10) with (S754_finite false 4503599627370496 (-51)).
    apply max_div_mono; [reflexivity | assumption..]. }
  set (m1 := max (lit 10 10) (div d1 (lit 20 10))) in *.
  set (m2 := max (lit 10 10) (div d2 (lit 20 10))) in *.
  clearbody base loc dat rat dem m1 m2.
  pose proof (mul_Big _ _ (mul_Big _ _ Bb Bl) Bd) as Bc.
  set (c := mul (mul base loc) dat) in *. clearbody c.
  apply round2_mono.
  - apply mul_Good_Big; [|exact Bm]. apply mul_Big_Good; [|exact Gr].
    apply mul_Big; assumption.
  - apply mul_Good_Big; [|exact Bm]. apply mul_Big_Good; [|exact Gr].
    apply mul_Big; assumption.
  - apply mul_mono; [| |apply Big_Good; exact Bm|].
    + apply mul_Big_Good; [|exact Gr]. apply mul_Big; assumption.
    + apply mul_Big_Good; [|exact Gr]. apply mul_Big; assumption.
    + apply mul_mono; [| |exact Gr|].
      * apply Big_Good. apply mul_Big; assumption.
      * apply Big_Good. apply mul_Big; assumption.
      * rewrite (mul_comm c m1), (mul_comm c m2).
        apply mul_mono; try (apply Big_Good; assumption). exact Ld.
Qed.

Lemma final_price_monotone_in_duration_witness :
  exists p1 p2 : float,
    final_price (calculate_dynamic_price "wedding" "Mumbai" "2024-05-18"
                                         (of_int 2) (lit 48 10)) = Float p1
    /\ final_price (calculate_dynamic_price "wedding" "Mumbai" "2024-05-18"
                                            (of_int 4) (lit 48 10)) = Float p2
    /\ le p1 p2 = true.
Proof.
  destruct (final_price_monotone_in_duration
              "wedding" "Mumbai" "2024-05-18" (of_int 2) (of_int 4) (lit 48 10)
              (PyDate.mkdate 2024 5 18) eq_refl eq_refl eq_refl eq_refl eq_refl)
    as (p1 & p2 & _ & _ & _ & _ & H1 & H2 & L & _).
  exists p1, p2. split; [exact H1|]. split; [exact H2 | exact L].
Defined.

End PricingFacts.

(* ================================================================== *)
(** * Properties of the booking handlers *)

Module OrchestratorFacts.

Import Store Orchestrator.

(** Writing under a key the store does not hold appends one entry. *)
Lemma put_fresh (k : string) (b : Booking) (db : bookings) :
  lookup k db = None -> put k b db = (db ++ [(k, b)])%list.
Proof.
  induction db as [|[k' b'] r IH]; simpl; intros H; [reflexivity|].
  destruct (String.eqb k k'); [discriminate|].
  rewrite IH by exact H. reflexivity.
Qed.

(** C2, as the code has it.  For a logged-in client, a fresh generated
    identifier and a duration that converts (and, for the form handler,
    the date, time, event type and location filled in), both handlers
    refuse a request exactly when the photographer has some confirmed or
    pending booking on the requested date, whatever its hours: the API
    handler answers 409 with all of those bookings and the form handler
    reports the photographer unavailable, the store unchanged.  Otherwise
    exactly one booking is added under the fresh identifier, after the
    existing entries, which are left as they were, and the API handler
    returns the identifier.  Every field of the new booking is fixed: its
    identifier, status pending, the session's user identifier and name as
    the client, the clock reading as creation time, the photographer,
    date and time of the request and the converted duration; the form
    handler also stores the event type, the location, the special
    requirements (empty when not sent) and the client's e-mail address,
    and the API handler stores none of these four. *)
Theorem submit_booking_same_day_rule
        (session : Session) (uuid now : string) (db : bookings)
        (data : ApiRequest) (photographer_id : string) (form : Form)
        (duration form_duration : Z) :
  lookup uuid db = None ->
  int_duration (r_duration data) = Some duration ->
  filled (f_event_date form) && filled (f_event_time form)
  && filled (f_event_type form) && filled (f_location form) = true ->
  PyStr.int (or_default (f_duration form) "2") = Some form_duration ->
  (let conflicts :=
     filter (same_day (r_photographer_id data) (r_event_date data))
            (values db) in
   (conflicts <> [] /\
    book_photographer_api (Some session) uuid now data db
    = (Conflict409 conflicts, db))
   \/
   (conflicts = [] /\
    exists booking : Booking,
      book_photographer_api (Some session) uuid now data db
      = (Success200 uuid, (db ++ [(uuid, booking)])%list)
      /\ booking_id booking = uuid
      /\ booking_status booking = Some "pending"
      /\ Store.photographer_id booking = r_photographer_id data
      /\ event_date booking = r_event_date data
      /\ event_time booking = r_event_time data
      /\ Store.duration booking = Some duration
      /\ user_id booking = s_user_id session
      /\ client_name booking = s_username session
      /\ created_at booking = now
      /\ event_type booking = None
      /\ location booking = None
      /\ special_requirements booking = None
      /\ client_email booking = None))
  /\
  (let existing :=
     filter (same_day (Some photographer_id) (f_event_date form))
            (values db) in
   (existing <> [] /\
    book_photographer session uuid now photographer_id form db
    = (NotAvailable, db))
   \/
   (existing = [] /\
    exists booking : Booking,
      book_photographer session uuid now photographer_id form db
      = (Submitted, (db ++ [(uuid, booking)])%list)
      /\ booking_id booking = uuid
      /\ booking_status booking = Some "pending"
      /\ Store.photographer_id booking = Some photographer_id
      /\ event_date booking = f_event_date form
      /\ event_time booking = f_event_time form
      /\ Store.duration booking = Some form_duration
      /\ user_id booking = s_user_id session
      /\ client_name booking = s_username session
      /\ created_at booking = now
      /\ event_type booking = f_event_type form
      /\ location booking = f_location form
      /\ special_requirements booking
         = Some (or_default (f_special_requirements form) "")
      /\ client_email booking = Some (s_email session))).
Proof.
  intros Hfresh Hdur Hfilled Hform. split.
  - cbv zeta. unfold book_photographer_api. rewrite Hdur.
    destruct (filter _ (values db)) as [|c cs].
    + right. split; [reflexivity|]. eexists. split.
      * rewrite put_fresh by exact Hfresh. reflexivity.
      * repeat split.
    + left. split; [discriminate | reflexivity].
  - cbv zeta. unfold book_photographer. rewrite Hfilled. cbn [negb].
    destruct (filter _ (values db)) as [|c cs].
    + right. split; [reflexivity|]. rewrite Hform. eexists. split.
      * rewrite put_fresh by exact Hfresh. reflexivity.
      * repeat split.
    + left. split; [discriminate | reflexivity].
Qed.

Lemma submit_booking_same_day_rule_witness :
  book_photographer_api (Some client) "b2" "2024-03-02T09:30:00"
    (mkApiRequest (Some "p1") (Some "2024-03-04") (Some "14:00") (Number 2))
    [("b1", booked_morning)]
  = (Conflict409 [booked_morning], [("b1", booked_morning)])
  /\ fst (book_photographer client "b2" "2024-03-02T09:30:00" "p1"
            (mkForm (Some "2024-03-05") (Some "14:00") (Some "portrait")
                    (Some "Pune") None None)
            [("b1", booked_morning)])
     = Submitted.
Proof.
  destruct (submit_booking_same_day_rule
              client "b2" "2024-03-02T09:30:00" [("b1", booked_morning)]
              (mkApiRequest (Some "p1") (Some "2024-03-04") (Some "14:00")
                            (Number 2))
              "p1"
              (mkForm (Some "2024-03-05") (Some "14:00") (Some "portrait")
                      (Some "Pune") None None)
              2 2 eq_refl eq_refl eq_refl eq_refl) as [Hapi Hform].
  split.
  - destruct Hapi as [[_ H] | [H _]]; [exact H | discriminate H].
  - destruct Hform as [[H _] | [_ [booking [H _]]]];
      [exfalso; apply H; reflexivity | rewrite H; reflexivity].
Defined.

(** C2 as stated fails: a request for 14:00-16:00 does not overlap the
    booking 10:00-12:00 of the same photographer and date, and the
    availability check says so, yet the API handler answers 409 and the
    form handler reports the photographer unavailable; nothing is
    stored. *)
Lemma same_day_request_refused_without_overlap :
  window_free [("b1", booked_morning)] "p1" "2024-03-04" "14:00" 2 = Some true
  /\ book_photographer_api (Some client) "b2" "2024-03-02T09:30:00"
       (mkApiRequest (Some "p1") (Some "2024-03-04") (Some "14:00") (Number 2))
       [("b1", booked_morning)]
     = (Conflict409 [booked_morning], [("b1", booked_morning)])
  /\ book_photographer client "b2" "2024-03-02T09:30:00" "p1"
       (mkForm (Some "2024-03-04") (Some "14:00") (Some "portrait")
               (Some "Pune") (Some "2") None)
       [("b1", booked_morning)]
     = (NotAvailable, [("b1", booked_morning)]).
Proof. repeat split. Qed.

End OrchestratorFacts.

(* ================================================================== *)
(** * Further properties of the scheduling engine *)

Module SchedulingMore.

Import PyFloat FloatOrder Availability Scheduling Derived AvailabilityFacts
       SchedulingFacts.

Lemma hours_app (l1 l2 : list (option string * Z)) (h1 h2 : list (Z * Z)) :
  hours l1 = Some h1 -> hours l2 = Some h2 ->
  hours (l1 ++ l2)%list = Some (h1 ++ h2)%list.
Proof.
  revert h1. induction l1 as [|[t d] r IH]; intros h1 H1 H2; cbn [hours app] in *.
  - injection H1 as <-. exact H2.
  - destruct (booked_hour t) as [h|]; [|discriminate].
    destruct (hours r) as [hs|]; [|discriminate].
    injection H1 as <-. rewrite (IH hs eq_refl H2). reflexivity.
Qed.

(** X1.  Availability against two lists of booked slots taken together
    is availability against each of them: the check of the joined list
    answers the conjunction of the two answers. *)
Theorem is_slot_available_app (start_time : string) (duration : Z)
        (l1 l2 : list (option string * Z)) (start_hour : Z)
        (h1 h2 : list (Z * Z)) :
  hour_of start_time = Some start_hour ->
  hours l1 = Some h1 -> hours l2 = Some h2 ->
  exists b1 b2 : bool,
    is_slot_available start_time duration l1 = Some b1
    /\ is_slot_available start_time duration l2 = Some b2
    /\ is_slot_available start_time duration (l1 ++ l2)%list = Some (b1 && b2).
Proof.
  intros Hs H1 H2. do 2 eexists.
  rewrite (is_slot_available_existsb _ _ _ _ _ Hs H1).
  rewrite (is_slot_available_existsb _ _ _ _ _ Hs H2).
  rewrite (is_slot_available_existsb _ _ _ _ _ Hs (hours_app _ _ _ _ H1 H2)).
  rewrite existsb_app, negb_orb. repeat split.
Qed.

Lemma is_slot_available_app_witness :
  is_slot_available "11:00" 2 ([(Some "09:00", 2)] ++ [(Some "12:00", 1)])%list
  = Some false.
Proof.
  destruct (is_slot_available_app "11:00" 2 [(Some "09:00", 2)]
              [(Some "12:00", 1)] 11 [(9, 2)] [(12, 1)] eq_refl eq_refl eq_refl)
    as (b1 & b2 & H1 & H2 & H).
  rewrite H. injection H1 as <-. injection H2 as <-. reflexivity.
Defined.

(** *** The returned slots are the available ones *)

Lemma insert_perm (x : Slot) (l : list Slot) :
  Permutation (insert_by_score x l) (x :: l).
Proof.
  induction l as [|y r IH]; cbn [insert_by_score]; [reflexivity|].
  destruct (lt (score x) (score y)); [|reflexivity].
  rewrite IH. apply perm_swap.
Qed.

Lemma sort_perm (l : list Slot) : Permutation (sort_by_score l) l.
Proof.
  induction l as [|x r IH]; cbn [sort_by_score fold_right]; [reflexivity|].
  rewrite insert_perm. constructor. exact IH.
Qed.

Lemma available_slots_filter (slots : list string) (date : string)
      (duration : Z) (booked_slots : list (option string * Z))
      (date_obj : PyDate.date) (hs : list (Z * Z)) :
  PyDate.strptime date = Some date_obj ->
  hours booked_slots = Some hs ->
  Forall (fun t => hour_of t <> None) slots ->
  exists l, available_slots slots date duration booked_slots = Some l
            /\ map time l = filter (free duration booked_slots) slots.
Proof.
  intros Hd Hh. induction 1 as [|t r Ht Hr IH]; cbn [available_slots filter].
  - eexists. split; reflexivity.
  - destruct IH as (l & Hl & Hm). unfold free at 1.
    destruct (hour_of t) as [h|] eqn:Eh; [|contradiction].
    rewrite (is_slot_available_existsb _ _ _ _ _ Eh Hh).
    destruct (negb _).
    + rewrite (calculate_slot_score_raw _ _ _ _ _ Eh Hd), Hl.
      eexists. split; [reflexivity|]. cbn [map time]. rewrite Hm. reflexivity.
    + exists l. split; assumption.
Qed.

Lemma time_slots_convert : Forall (fun t => hour_of t <> None) time_slots.
Proof. unfold time_slots. repeat constructor; discriminate. Qed.

Lemma time_slots_NoDup : NoDup time_slots.
Proof.
  unfold time_slots.
  repeat (apply NoDup_cons; [cbn [In]; intuition discriminate|]).
  apply NoDup_nil.
Qed.

(** X2.  For a date that converts and booked times that convert, the
    start times of the returned slots are the catalog times the
    availability check accepts, each once: sorting by score loses and
    repeats nothing. *)
Theorem find_optimal_slots_complete (table : Store.bookings)
        (photographer_id date : string) (duration : Z)
        (date_obj : PyDate.date) (hs : list (Z * Z)) :
  PyDate.strptime date = Some date_obj ->
  hours (booked_slots_of (query table photographer_id date)) = Some hs ->
  Permutation
    (map time (find_optimal_slots table photographer_id date duration))
    (filter (free duration (booked_slots_of (query table photographer_id date)))
            time_slots)
  /\ NoDup (map time (find_optimal_slots table photographer_id date duration)).
Proof.
  intros Hd Hh. unfold find_optimal_slots.
  destruct (available_slots_filter time_slots date duration _ _ _ Hd Hh
              time_slots_convert) as (l & -> & Hm).
  assert (Permutation (map time (sort_by_score l))
                      (filter (free duration
                                 (booked_slots_of (query table photographer_id date)))
                              time_slots)) as P.
  { rewrite <- Hm. apply Permutation_map. apply sort_perm. }
  split; [exact P|].
  apply (Permutation_NoDup (Permutation_sym P)).
  apply NoDup_filter. apply time_slots_NoDup.
Qed.

Lemma find_optimal_slots_complete_witness :
  Permutation
    (map time (find_optimal_slots [("b1", Orchestrator.booked_morning)]
                                  "p1" "2024-03-04" 2))
    (filter (free 2 [(Some "10:00", 2)]) time_slots).
Proof.
  exact (proj1 (find_optimal_slots_complete
                  [("b1", Orchestrator.booked_morning)] "p1" "2024-03-04" 2
                  (PyDate.mkdate 2024 3 4) [(10, 2)] eq_refl eq_refl)).
Defined.

(** A date that does not convert gives no slots at all. *)
Lemma available_slots_bad_date (slots : list string) (date : string)
      (duration : Z) (booked_slots : list (option string * Z)) :
  PyDate.strptime date = None ->
  available_slots slots date duration booked_slots = None
  \/ available_slots slots date duration booked_slots = Some [].
Proof.
  intros Hd. induction slots as [|t r IH]; cbn [available_slots]; [right; reflexivity|].
  destruct (is_slot_available t duration booked_slots) as [[|]|]; [|exact IH|left; reflexivity].
  left. unfold calculate_slot_score.
  destruct (hour_of t); [rewrite Hd|]; reflexivity.
Qed.

(** X3.  A date that does not convert gives no slot at all, whatever the
    bookings are: the score raises inside the loop and the handler of the
    method returns the empty list. *)
Theorem find_optimal_slots_bad_date (table : Store.bookings)
        (photographer_id date : string) (duration : Z) :
  PyDate.strptime date = None ->
  find_optimal_slots table photographer_id date duration = [].
Proof.
  intros Hd. unfold find_optimal_slots.
  destruct (available_slots_bad_date time_slots date duration
              (booked_slots_of (query table photographer_id date)) Hd) as [-> | ->];
    reflexivity.
Qed.

Lemma find_optimal_slots_bad_date_witness :
  find_optimal_slots [] "p1" "04/03/2024" 2 = [].
Proof. exact (find_optimal_slots_bad_date [] "p1" "04/03/2024" 2 eq_refl). Defined.

(** X4.  A booking that is not confirmed or pending, or is of another
    photographer or of another date, changes nothing in the returned
    slots, wherever it sits in the table. *)
Theorem find_optimal_slots_ignores (t1 t2 : Store.bookings) (k : string)
        (b : Store.Booking) (photographer_id date : string) (duration : Z) :
  Store.opt_eqb (Store.photographer_id b) (Some photographer_id)
  && Store.opt_eqb (Store.event_date b) (Some date)
  && Store.active b = false ->
  find_optimal_slots (t1 ++ (k, b) :: t2)%list photographer_id date duration
  = find_optimal_slots (t1 ++ t2)%list photographer_id date duration.
Proof.
  intros H. unfold find_optimal_slots.
  assert (booked_slots_of (query (t1 ++ (k, b) :: t2)%list photographer_id date)
          = booked_slots_of (query (t1 ++ t2)%list photographer_id date)) as ->;
    [|reflexivity].
  unfold booked_slots_of, query, Store.values. f_equal.
  rewrite !map_app, !filter_app. cbn [map filter snd]. f_equal.
  destruct (Store.opt_eqb (Store.photographer_id b) (Some photographer_id)
            && Store.opt_eqb (Store.event_date b) (Some date)) eqn:Q;
    [|reflexivity].
  cbn [andb] in H. cbn [filter]. rewrite H. reflexivity.
Qed.

Lemma find_optimal_slots_ignores_witness :
  find_optimal_slots
    ([] ++ ("b1", Orchestrator.booked_morning) :: [])%list "p2" "2024-03-04" 2
  = find_optimal_slots ([] ++ [])%list "p2" "2024-03-04" 2.
Proof.
  exact (find_optimal_slots_ignores [] [] "b1" Orchestrator.booked_morning
           "p2" "2024-03-04" 2 eq_refl).
Defined.

(** X5.  Which returned slots carry the recommended flag: those that
    start at 16:00, 17:00 or 18:00 and, on a Saturday or Sunday, also those
    that start at 10:00, 11:00 or 12:00. *)
Theorem recommended_slots (table : Store.bookings)
        (photographer_id date : string) (duration : Z)
        (date_obj : PyDate.date) (slot : Slot) :
  PyDate.strptime date = Some date_obj ->
  In slot (find_optimal_slots table photographer_id date duration) ->
  exists hour : Z,
    hour_of (time slot) = Some hour
    /\ recommended slot
       = hour_in hour [16; 17; 18]
         || (is_weekend date_obj && hour_in hour [10; 11; 12]).
Proof.
  intros Hd Hin.
  pose proof (find_optimal_slots_entries table photographer_id date duration) as F.
  rewrite Forall_forall in F. destruct (F slot Hin) as (Ht & Hs & Hr).
  rewrite Hr. clear F Hin Hr.
  unfold time_slots in Ht. cbn [In] in Ht.
  repeat (destruct Ht as [Ht|Ht]); try contradiction;
    rewrite <- Ht in *;
    (match type of Hs with
     | calculate_slot_score ?t _ _ = _ =>
         let h := eval vm_compute in (hour_of t) in
         match h with
         | Some ?z =>
             exists z; split; [reflexivity|];
             rewrite (calculate_slot_score_raw t date duration z date_obj
                        eq_refl Hd) in Hs
         end
     end);
    injection Hs as <-; destruct (is_weekend date_obj); vm_compute; reflexivity.
Qed.

Lemma recommended_slots_witness :
  exists hour : Z,
    hour_of (time (nth 0 (find_optimal_slots [] "p1" "2024-03-09" 2)
                       (mkSlot "" (of_int 0) false))) = Some hour
    /\ recommended (nth 0 (find_optimal_slots [] "p1" "2024-03-09" 2)
                        (mkSlot "" (of_int 0) false))
       = hour_in hour [16; 17; 18]
         || (is_weekend (PyDate.mkdate 2024 3 9) && hour_in hour [10; 11; 12]).
Proof.
  apply (recommended_slots [] "p1" "2024-03-09" 2 (PyDate.mkdate 2024 3 9)).
  - reflexivity.
  - vm_compute. left. reflexivity.
Defined.

End SchedulingMore.

(* ================================================================== *)
(** * Further properties of the booking handlers *)

Module OrchestratorMore.

Import Store Orchestrator Derived.

Lemma opt_eqb_eq (a b : option string) : opt_eqb a b = true -> a = b.
Proof.
  destruct a, b; cbn; try discriminate; try reflexivity.
  intros H. apply String.eqb_eq in H. congruence.
Qed.

Lemma opt_eqb_refl (a : option string) : opt_eqb a a = true.
Proof. destruct a; cbn; [apply String.eqb_refl | reflexivity]. Qed.

Lemma lookup_put_same (k : string) (b : Booking) (db : bookings) :
  lookup k (put k b db) = Some b.
Proof.
  induction db as [|[k' b'] r IH]; cbn [put lookup].
  - rewrite String.eqb_refl. reflexivity.
  - destruct (String.eqb k k') eqn:E; cbn [lookup].
    + rewrite String.eqb_refl. reflexivity.
    + rewrite E. exact IH.
Qed.

Lemma lookup_put_other (k k' : string) (b : Booking) (db : bookings) :
  k' <> k -> lookup k' (put k b db) = lookup k' db.
Proof.
  intros N. induction db as [|[k0 b0] r IH]; cbn [put lookup].
  - destruct (String.eqb_spec k' k); [contradiction | reflexivity].
  - destruct (String.eqb_spec k k0) as [->|N0]; cbn [lookup].
    + destruct (String.eqb_spec k' k0); [contradiction | reflexivity].
    + destruct (String.eqb k' k0); [reflexivity | exact IH].
Qed.

Lemma In_values_put (k : string) (b : Booking) (db : bookings) :
  In b (values (put k b db)).
Proof.
  induction db as [|[k' b'] r IH]; cbn [put]; [left; reflexivity|].
  destruct (String.eqb k k'); [left; reflexivity | right; exact IH].
Qed.

Lemma filter_put_length (f : Booking -> bool) (k : string) (b : Booking)
      (db : bookings) :
  (List.length (filter f (values (put k b db)))
   <= List.length (filter f (values db)) + (if f b then 1 else 0))%nat.
Proof.
  induction db as [|[k' b'] r IH]; cbn [put values map snd filter].
  - destruct (f b); cbn; lia.
  - destruct (String.eqb k k'); cbn [values map snd filter].
    + destruct (f b), (f b'); cbn [List.length]; lia.
    + fold (values (put k b r)). fold (values r).
      destruct (f b'); cbn [List.length]; lia.
Qed.

Lemma put_keeps_exclusive (k : string) (b : Booking) (db : bookings) :
  exclusive db ->
  filter (same_day (Store.photographer_id b) (event_date b)) (values db) = [] ->
  exclusive (put k b db).
Proof.
  intros Ex Hc pid date.
  pose proof (filter_put_length (same_day pid date) k b db) as L.
  destruct (same_day pid date b) eqn:S.
  - unfold same_day in S. apply andb_prop in S. destruct S as [S _].
    apply andb_prop in S. destruct S as [S1 S2].
    apply opt_eqb_eq in S1, S2. subst pid date. rewrite Hc in L. exact L.
  - specialize (Ex pid date). lia.
Qed.

(** X6.  Both booking handlers keep the store exclusive, whatever they
    are sent: if no photographer has two confirmed or pending bookings on
    one date before a call, none has after it.  No freshness of the new
    identifier is needed. *)
Theorem handlers_keep_exclusive (db : bookings)
        (api_session : option Session) (session : Session)
        (uuid now photographer_id : string) (data : ApiRequest) (form : Form) :
  exclusive db ->
  exclusive (snd (book_photographer_api api_session uuid now data db))
  /\ exclusive (snd (book_photographer session uuid now photographer_id form db)).
Proof.
  intros Ex. split.
  - unfold book_photographer_api.
    destruct api_session as [s|]; [|exact Ex].
    destruct (int_duration (r_duration data)) as [d|]; [|exact Ex].
    destruct (filter _ (values db)) as [|c cs] eqn:F; [|exact Ex].
    cbn [snd]. apply put_keeps_exclusive; [exact Ex | exact F].
  - unfold book_photographer.
    destruct (negb _); [exact Ex|].
    destruct (filter _ (values db)) as [|c cs] eqn:F; [|exact Ex].
    destruct (PyStr.int _) as [d|]; [|exact Ex].
    cbn [snd]. apply put_keeps_exclusive; [exact Ex | exact F].
Qed.

Lemma handlers_keep_exclusive_witness :
  exclusive
    (snd (book_photographer_api (Some client) "b2" "2024-03-02T09:30:00"
            (mkApiRequest (Some "p1") (Some "2024-03-05") (Some "14:00") (Number 2))
            []))
  /\ exclusive
       (snd (book_photographer client "b2" "2024-03-02T09:30:00" "p1"
               (mkForm (Some "2024-03-05") (Some "14:00") (Some "event")
                       (Some "Pune") None None)
               [])).
Proof.
  apply (handlers_keep_exclusive [] (Some client) client "b2"
           "2024-03-02T09:30:00" "p1"
           (mkApiRequest (Some "p1") (Some "2024-03-05") (Some "14:00")
                         (Number 2))
           (mkForm (Some "2024-03-05") (Some "14:00") (Some "event")
                   (Some "Pune") None None)).
  intros pid date. cbn. lia.
Defined.

(** X7.  Once a request is accepted, every later request for the same
    photographer and date whose duration converts is refused with 409,
    leaves the store as it is, and lists the accepted booking among the
    conflicts. *)
Theorem second_request_refused
        (session session' : Session) (uuid uuid' now now' : string)
        (data data' : ApiRequest) (db db' : bookings) (id : string) (d' : Z) :
  book_photographer_api (Some session) uuid now data db = (Success200 id, db') ->
  r_photographer_id data' = r_photographer_id data ->
  r_event_date data' = r_event_date data ->
  int_duration (r_duration data') = Some d' ->
  exists (conflicts : list Booking) (accepted : Booking),
    book_photographer_api (Some session') uuid' now' data' db'
    = (Conflict409 conflicts, db')
    /\ In accepted conflicts
    /\ lookup id db' = Some accepted.
Proof.
  intros H Hp Hd Hi. unfold book_photographer_api in H.
  destruct (int_duration (r_duration data)) as [d|]; [|discriminate].
  destruct (filter _ (values db)) as [|c cs]; [|discriminate].
  injection H as <- <-.
  set (nb := mkBooking uuid _ _ _ _ _ _ _ _ _ _ _ _).
  assert (In nb (filter (same_day (r_photographer_id data') (r_event_date data'))
                        (values (put uuid nb db)))) as Hin.
  { apply filter_In. split; [apply In_values_put|].
    rewrite Hp, Hd. unfold same_day, nb. cbn [Store.photographer_id event_date].
    rewrite !opt_eqb_refl. reflexivity. }
  unfold book_photographer_api. rewrite Hi.
  destruct (filter _ (values (put uuid nb db))) as [|c cs] eqn:F;
    [contradiction|].
  exists (c :: cs), nb. split; [reflexivity|].
  split; [exact Hin | apply lookup_put_same].
Qed.

Lemma second_request_refused_witness :
  exists (conflicts : list Booking) (accepted : Booking),
    book_photographer_api (Some client) "b3" "2024-03-02T10:00:00"
      (mkApiRequest (Some "p1") (Some "2024-03-05") (Some "09:00") Absent)
      (snd (book_photographer_api (Some client) "b2" "2024-03-02T09:30:00"
              (mkApiRequest (Some "p1") (Some "2024-03-05") (Some "14:00")
                            (Number 2)) []))
    = (Conflict409 conflicts,
       snd (book_photographer_api (Some client) "b2" "2024-03-02T09:30:00"
              (mkApiRequest (Some "p1") (Some "2024-03-05") (Some "14:00")
                            (Number 2)) []))
    /\ In accepted conflicts.
Proof.
  destruct (second_request_refused client client "b2" "b3"
              "2024-03-02T09:30:00" "2024-03-02T10:00:00"
              (mkApiRequest (Some "p1") (Some "2024-03-05") (Some "14:00")
                            (Number 2))
              (mkApiRequest (Some "p1") (Some "2024-03-05") (Some "09:00") Absent)
              [] _ "b2" 2 eq_refl eq_refl eq_refl eq_refl)
    as (conflicts & accepted & H & Hin & _).
  exists conflicts, accepted. split; [exact H | exact Hin].
Defined.

(** X8.  What a call of the API handler leaves in the store: after a 200
    the entry under the returned identifier is the new pending booking and
    every other key reads as before; every other answer leaves the store
    unchanged. *)
Theorem api_store_frame (session : option Session) (uuid now : string)
        (data : ApiRequest) (db : bookings) :
  let '(response, db') := book_photographer_api session uuid now data db in
  match response with
  | Success200 id =>
      id = uuid
      /\ (exists b, lookup id db' = Some b
                    /\ booking_id b = id
                    /\ booking_status b = Some "pending")
      /\ forall k, k <> id -> lookup k db' = lookup k db
  | _ => db' = db
  end.
Proof.
  unfold book_photographer_api.
  destruct session as [s|]; [|reflexivity].
  destruct (int_duration (r_duration data)) as [d|]; [|reflexivity].
  destruct (filter _ (values db)) as [|c cs]; [|reflexivity].
  split; [reflexivity|]. split.
  - eexists. split; [apply lookup_put_same|]. split; reflexivity.
  - intros k Hk. apply lookup_put_other. exact Hk.
Qed.

(** X9.  The same for the form handler: a submitted booking is stored
    pending under the fresh identifier for the photographer of the URL,
    other keys read as before, and every other outcome leaves the table
    unchanged. *)
Theorem form_store_frame (session : Session) (uuid now photographer_id : string)
        (form : Form) (table : bookings) :
  let '(outcome, table') :=
    book_photographer session uuid now photographer_id form table in
  match outcome with
  | Submitted =>
      (exists b, lookup uuid table' = Some b
                 /\ Store.photographer_id b = Some photographer_id
                 /\ booking_status b = Some "pending")
      /\ forall k, k <> uuid -> lookup k table' = lookup k table
  | _ => table' = table
  end.
Proof.
  unfold book_photographer.
  destruct (negb _); [reflexivity|].
  destruct (filter _ (values table)) as [|c cs]; [|reflexivity].
  destruct (PyStr.int _) as [d|]; [|reflexivity].
  split.
  - eexists. split; [apply lookup_put_same|]. split; reflexivity.
  - intros k Hk. apply lookup_put_other. exact Hk.
Qed.

(** X10.  The two handlers apply the same availability rule: for the same
    photographer, date and table, and inputs that pass their other checks,
    the API handler answers 409 exactly when the form handler flashes that
    the photographer is not available. *)
Theorem handlers_agree (api_session form_session : Session)
        (uuid uuid' now now' photographer_id date : string)
        (data : ApiRequest) (form : Form) (db : bookings) (d d' : Z) :
  r_photographer_id data = Some photographer_id ->
  r_event_date data = Some date ->
  f_event_date form = Some date ->
  int_duration (r_duration data) = Some d ->
  filled (f_event_date form) && filled (f_event_time form)
  && filled (f_event_type form) && filled (f_location form) = true ->
  PyStr.int (or_default (f_duration form) "2") = Some d' ->
  (exists conflicts,
      fst (book_photographer_api (Some api_session) uuid now data db)
      = Conflict409 conflicts)
  <-> fst (book_photographer form_session uuid' now' photographer_id form db)
      = NotAvailable.
Proof.
  intros Hp Hd Hf Hi Hfill Hdur.
  unfold book_photographer_api, book_photographer.
  rewrite Hi, Hfill, Hp, Hd, Hf. cbn [negb].
  destruct (filter _ (values db)) as [|c cs].
  - rewrite Hdur. cbn [fst]. split; [intros [x H]; discriminate H | discriminate].
  - cbn [fst]. split; [reflexivity | intros _; eexists; reflexivity].
Qed.

Lemma handlers_agree_witness :
  fst (book_photographer client "b9" "2024-03-02T10:00:00" "p1"
         (mkForm (Some "2024-03-04") (Some "18:00") (Some "event")
                 (Some "Pune") None None)
         [("b1", booked_morning)])
  = NotAvailable.
Proof.
  apply (handlers_agree client client "b8" "b9" "2024-03-02T09:30:00"
           "2024-03-02T10:00:00" "p1" "2024-03-04"
           (mkApiRequest (Some "p1") (Some "2024-03-04") (Some "18:00") Absent)
           (mkForm (Some "2024-03-04") (Some "18:00") (Some "event")
                   (Some "Pune") None None)
           [("b1", booked_morning)] 2 2 eq_refl eq_refl eq_refl eq_refl
           eq_refl eq_refl).
  eexists. reflexivity.
Defined.

End OrchestratorMore.

(* ================================================================== *)
(** * Further properties of the pricing engine *)

Module PricingMore.

Import PyFloat Rounding FloatOrder RoundingFacts Pricing PricingFacts.

(** Below its cap a ratio does not lift the multiplier off its floor. *)
Lemma max_div_floor (c d cap : float) (my : positive) (ey : Z) :
  lt (S754_zero false) c = true ->
  valid d -> valid cap -> is_nan cap = false ->
  gt d cap = false ->
  max c (div cap (S754_finite false my ey)) = c ->
  max c (div d (S754_finite false my ey)) = c.
Proof.
  intros Hc Vd Vcap Ncap G Hcap.
  destruct (is_nan d) eqn:Nd.
  - destruct d; try discriminate. unfold max.
    destruct (gt _ c) eqn:G'; [|reflexivity].
    apply gt_iff in G'. destruct G' as (N & _). discriminate N.
  - assert (le d cap = true) as L.
    { pose proof (not_lt_ge cap d Ncap Nd G) as H. exact H. }
    pose proof (max_div_mono c d cap my ey Hc Vd Vcap L) as M.
    rewrite Hcap in M. unfold max in *.
    destruct (gt (div d (S754_finite false my ey)) c) eqn:G'; [|reflexivity].
    exfalso. apply gt_iff in G'. apply le_iff in M.
    destruct G' as (_ & _ & G'). destruct M as (_ & _ & [M|M]).
    + exact (rank_lt_irrefl _ (rank_lt_trans _ _ _ G' M)).
    + rewrite M in G'. exact (rank_lt_irrefl _ G').
Qed.

(** X11.  No discount: a duration of at most two hours, or one that is
    not a number, is priced as two hours, and a rating of at most 4.0, or
    one that is not a number, as 4.0; the whole quote is the same. *)
Theorem short_or_low_rated_quote (event_type location date : string)
        (duration photographer_rating : float) :
  valid duration -> valid photographer_rating ->
  gt duration (lit 20 10) = false ->
  gt photographer_rating (lit 40 10) = false ->
  calculate_dynamic_price event_type location date duration photographer_rating
  = calculate_dynamic_price event_type location date (lit 20 10) (lit 40 10).
Proof.
  intros Vd Vr Gd Gr. unfold calculate_dynamic_price.
  destruct (PyDate.strptime date) as [date_obj|]; [|reflexivity].
  cbv zeta.
  assert (max (lit 10 10) (div duration (lit 20 10)) = lit 10 10) as ->.
  { change (div duration (lit 20 10))
      with (div duration (S754_finite false 4503599627370496 (-51))).
    apply (max_div_floor _ _ (lit 20 10)); try assumption; reflexivity. }
  assert (max (lit 8 10) (div photographer_rating (lit 50 10)) = lit 8 10) as ->.
  { change (div photographer_rating (lit 50 10))
      with (div photographer_rating (S754_finite false 5629499534213120 (-50))).
    apply (max_div_floor _ _ (lit 40 10)); try assumption; reflexivity. }
  reflexivity.
Qed.

Lemma short_or_low_rated_quote_witness :
  calculate_dynamic_price "wedding" "Mumbai" "2024-05-18" (lit 5 10) (lit 10 10)
  = calculate_dynamic_price "wedding" "Mumbai" "2024-05-18" (lit 20 10) (lit 40 10).
Proof.
  apply short_or_low_rated_quote; reflexivity.
Defined.

Lemma base_price_cases (k : string) :
  In (get k base_prices 500) [1500; 300; 800; 1200; 400; 500].
Proof.
  unfold base_prices. cbn [get].
  repeat (destruct (String.eqb k _); [cbn; tauto|]). cbn; tauto.
Qed.

(** X12.  For a date that converts, the quoted final price is never below
    eighty per cent of the base price, rounded to cents. *)
Theorem final_price_at_least_floor (event_type location date : string)
        (duration photographer_rating : float) (date_obj : PyDate.date) :
  PyDate.strptime date = Some date_obj ->
  valid duration -> valid photographer_rating ->
  exists p : float,
    let q := calculate_dynamic_price event_type location date
                                     duration photographer_rating in
    final_price q = Float p
    /\ le (round2 (mul (of_int (base_price q)) (lit 8 10))) p = true.
Proof.
  intros Hd Vd Vr. unfold calculate_dynamic_price. rewrite Hd.
  cbv zeta. cbn [final_price base_price]. eexists. split; [reflexivity|].
  pose proof (base_price_cases (PyStr.lower event_type)) as Cases.
  pose proof (base_price_Big (PyStr.lower event_type)) as Bb.
  set (n := get (PyStr.lower event_type) base_prices 500) in *.
  set (loc := first_city (PyStr.lower location) location_multipliers (lit 10 10)).
  match goal with |- context [mul (mul (of_int n) loc) ?d] => set (dat := d) end.
  set (dur := max (lit 10 10) (div duration (lit 20 10))).
  set (rat := max (lit 8 10) (div photographer_rating (lit 50 10))).
  set (dem := calculate_demand_multiplier date location).
  assert (Big loc) as Bl by apply location_multiplier_Big.
  assert (Big dat) as Bd.
  { unfold dat.
    apply (date_multiplier_Big (Z.geb (PyDate.weekday date_obj) 5)
             (Scheduling.hour_in (PyDate.month date_obj) [12; 5; 6])). }
  assert (Big dur) as Bu by (apply duration_multiplier_Big; exact Vd).
  assert (Good rat) as Gr by (apply rating_multiplier_Good; exact Vr).
  assert (le (lit 8 10) rat = true) as Lr.
  { unfold rat. change (lit 50 10) with (S754_finite false 5629499534213120 (-50)).
    apply max_div_ge. reflexivity. }
  assert (Big dem) as Bm by apply demand_multiplier_Big.
  clearbody loc dat dur rat dem.
  assert (mul (of_int n) (lit 10 10) = of_int n) as One.
  { clearbody n. cbn [In] in Cases.
    destruct Cases as [<-|[<-|[<-|[<-|[<-|[<-|[]]]]]]]; reflexivity. }
  assert (mul (mul (of_int n) (lit 8 10)) (lit 10 10) = mul (of_int n) (lit 8 10))
    as One'.
  { clearbody n. cbn [In] in Cases.
    destruct Cases as [<-|[<-|[<-|[<-|[<-|[<-|[]]]]]]]; reflexivity. }
  assert (Good (mul (of_int n) (lit 8 10))) as Gf.
  { clearbody n. cbn [In] in Cases.
    destruct Cases as [<-|[<-|[<-|[<-|[<-|[<-|[]]]]]]]; split; reflexivity. }
  clearbody n.
  assert (forall c m, Big c -> Big m -> le (of_int n) c = true ->
                      le (of_int n) (mul c m) = true) as Step.
  { intros c m Bc Bmm L. rewrite <- One.
    apply mul_lower; try (apply Big_Good; assumption);
      [apply Good_one | exact L | apply Bmm]. }
  assert (le (of_int n) (mul (mul (mul (of_int n) loc) dat) dur) = true) as L3.
  { apply Step; [apply mul_Big; [apply mul_Big|]; assumption | exact Bu |].
    apply Step; [apply mul_Big; assumption | exact Bd |].
    apply Step; [exact Bb | exact Bl |].
    apply le_refl. apply Good_not_nan, Big_Good, Bb. }
  pose proof (mul_Big _ _ (mul_Big _ _ (mul_Big _ _ Bb Bl) Bd) Bu) as B3.
  set (c3 := mul (mul (mul (of_int n) loc) dat) dur) in *. clearbody c3.
  assert (le (mul (of_int n) (lit 8 10)) (mul c3 rat) = true) as L4.
  { apply mul_lower; try assumption;
      [apply Big_Good, Bb | split; reflexivity | apply Big_Good, B3]. }
  pose proof (mul_Big_Good _ _ B3 Gr) as G4.
  set (c4 := mul c3 rat) in *. clearbody c4.
  apply round2_mono; [exact Gf | apply mul_Good_Big; assumption |].
  rewrite <- One'.
  apply mul_lower; try assumption;
    [apply Good_one | apply Big_Good, Bm | apply Bm].
Qed.

Lemma final_price_at_least_floor_witness :
  exists p : float,
    final_price (calculate_dynamic_price "portrait" "Chennai" "2024-03-05"
                                         (lit 5 10) (lit 10 10)) = Float p
    /\ le (round2 (mul (of_int 300) (lit 8 10))) p = true.
Proof.
  exact (final_price_at_least_floor "portrait" "Chennai" "2024-03-05"
           (lit 5 10) (lit 10 10) (PyDate.mkdate 2024 3 5)
           eq_refl eq_refl eq_refl).
Defined.

(** X13.  A Saturday or Sunday is charged for twice: the date multiplier
    is at least 1.2 and the demand multiplier is 1.2 as well, for every
    date more than thirty days inside the calendar. *)
Theorem weekend_charged_twice (event_type location date : string)
        (duration photographer_rating : float) (date_obj : PyDate.date) :
  PyDate.strptime date = Some date_obj ->
  5 <= PyDate.weekday date_obj ->
  30 < PyDate.toordinal date_obj ->
  PyDate.toordinal date_obj + 30 <= PyDate.max_ordinal ->
  exists date_multiplier : float,
    let q := calculate_dynamic_price event_type location date
                                     duration photographer_rating in
    In ("date_multiplier", date_multiplier) (factors q)
    /\ le (lit 12 10) date_multiplier = true
    /\ In ("demand_multiplier", lit 12 10) (factors q).
Proof.
  intros Hd Hw Ho Ho'. unfold calculate_dynamic_price, calculate_demand_multiplier.
  rewrite Hd. cbv zeta. cbn [factors].
  assert ((PyDate.weekday date_obj >=? 5) = true) as -> by (apply Z.geb_le; lia).
  assert (((PyDate.toordinal date_obj - 30 <? 1)
           || (PyDate.max_ordinal <? PyDate.toordinal date_obj + 30)) = false) as ->.
  { apply orb_false_iff. split; apply Z.ltb_ge; lia. }
  eexists. split; [right; left; reflexivity|].
  split; [|do 4 right; left; reflexivity].
  destruct (Scheduling.hour_in _ _); reflexivity.
Qed.

Lemma weekend_charged_twice_witness :
  exists date_multiplier : float,
    In ("date_multiplier", date_multiplier)
       (factors (calculate_dynamic_price "wedding" "Mumbai" "2024-05-18"
                                         (of_int 4) (lit 48 10)))
    /\ le (lit 12 10) date_multiplier = true
    /\ In ("demand_multiplier", lit 12 10)
          (factors (calculate_dynamic_price "wedding" "Mumbai" "2024-05-18"
                                            (of_int 4) (lit 48 10))).
Proof.
  apply (weekend_charged_twice "wedding" "Mumbai" "2024-05-18" (of_int 4)
           (lit 48 10) (PyDate.mkdate 2024 5 18) eq_refl).
  - vm_compute. discriminate.
  - vm_compute. reflexivity.
  - vm_compute. discriminate.
Defined.

End PricingMore.

(* ================================================================== *)
(** * Properties of the review topics and of the sentiment labels *)

Module InsightsFacts.

Import PyFloat FloatOrder Insights.

Lemma prefix_nil (t : string) : prefix "" t = true.
Proof. destruct t; reflexivity. Qed.

Lemma prefix_app (w t post : string) :
  prefix w t = true -> prefix w (t ++ post) = true.
Proof.
  revert w. induction t as [|c r IH]; intros [|a w'];
    try (intros _; apply prefix_nil); cbn; try discriminate.
  destruct (ascii_dec a c); [apply IH | discriminate].
Qed.

Lemma contains_cons (w : string) (c : ascii) (r : string) :
  PyStr.contains w (String c r)
  = if prefix w (String c r) then true else PyStr.contains w r.
Proof. reflexivity. Qed.

Lemma contains_nil (w : string) :
  PyStr.contains w "" = true -> w = "".
Proof. destruct w; [reflexivity | discriminate]. Qed.

Lemma contains_empty (t : string) : PyStr.contains "" t = true.
Proof. destruct t; reflexivity. Qed.

Lemma contains_app_r (w t post : string) :
  PyStr.contains w t = true -> PyStr.contains w (t ++ post) = true.
Proof.
  induction t as [|c r IH].
  - intros H. apply contains_nil in H. subst w. apply contains_empty.
  - change (String c r ++ post) with (String c (r ++ post)).
    rewrite !contains_cons.
    destruct (prefix w (String c r)) eqn:P.
    + intros _. apply (prefix_app _ _ post) in P.
      change (String c r ++ post) with (String c (r ++ post)) in P.
      rewrite P. reflexivity.
    + intros H. rewrite (IH H).
      destruct (prefix w (String c (r ++ post))); reflexivity.
Qed.

Lemma contains_app_l (w pre t : string) :
  PyStr.contains w t = true -> PyStr.contains w (pre ++ t) = true.
Proof.
  intros H. induction pre as [|c r IH]; [exact H|].
  change (String c r ++ t) with (String c (r ++ t)).
  rewrite contains_cons, IH. destruct (prefix w _); reflexivity.
Qed.

Lemma prefix_lower (w t : string) :
  prefix w t = true -> prefix (PyStr.lower w) (PyStr.lower t) = true.
Proof.
  revert w. induction t as [|c r IH]; intros [|a w'];
    try (intros _; apply prefix_nil); cbn; try discriminate.
  destruct (ascii_dec a c) as [->|]; [|discriminate].
  intros H. destruct (ascii_dec _ _); [apply IH; exact H | contradiction].
Qed.

Lemma contains_lower (w t : string) :
  PyStr.contains w t = true ->
  PyStr.contains (PyStr.lower w) (PyStr.lower t) = true.
Proof.
  induction t as [|c r IH].
  - intros H. apply contains_nil in H. subst w. reflexivity.
  - change (PyStr.lower (String c r))
      with (String (PyStr.lower_ascii c) (PyStr.lower r)).
    rewrite !contains_cons.
    destruct (prefix w (String c r)) eqn:P.
    + intros _. apply prefix_lower in P.
      change (PyStr.lower (String c r))
        with (String (PyStr.lower_ascii c) (PyStr.lower r)) in P.
      rewrite P. reflexivity.
    + intros H. rewrite (IH H).
      destruct (prefix (PyStr.lower w) _); reflexivity.
Qed.

Lemma keywords_lower (topic : string) (words : list string) (word : string) :
  In (topic, words) keywords -> In word words -> PyStr.lower word = word.
Proof.
  unfold keywords. cbn [In]. intros H.
  repeat (destruct H as [H|H]; [injection H as <- <-; cbn [In];
                                intros W; intuition (subst; reflexivity)|]).
  contradiction.
Qed.

(** What the loop collects: the topics of the table with a word in the
    text. *)
Lemma matching_In (table : list (string * list string)) (text topic : string) :
  In topic (matching table text)
  <-> exists words, In (topic, words) table /\ any_in words text = true.
Proof.
  induction table as [|[t ws] r IH]; cbn [matching In].
  - split; [contradiction | intros (ws & [] & _)].
  - destruct (any_in ws text) eqn:A; cbn [In]; rewrite IH; split.
    + intros [<-|(words & I & H)]; [exists ws | exists words]; auto.
    + intros (words & [E|I] & H); [injection E as <- <-; auto|].
      right. exists words. auto.
    + intros (words & I & H). exists words. auto.
    + intros (words & [E|I] & H); [injection E as <- <-; congruence|].
      exists words. auto.
Qed.

Lemma any_in_spec (words : list string) (text : string) :
  any_in words text = true
  <-> exists word, In word words /\ PyStr.contains word text = true.
Proof. unfold any_in. apply existsb_exists. Qed.

Lemma general_not_topic (words : list string) : ~ In ("general", words) keywords.
Proof.
  unfold keywords. cbn [In]. intros H.
  repeat (destruct H as [H|H]; [discriminate H|]). exact H.
Qed.

Lemma extract_topics_matching (text topic : string) :
  topic <> "general" ->
  (In topic (extract_topics text) <-> In topic (matching keywords text)).
Proof.
  intros N. unfold extract_topics.
  destruct (matching keywords text) as [|t r]; [|tauto].
  cbn [In]. split; [intros [E|[]]; congruence | contradiction].
Qed.

Lemma matching_topics (table : list (string * list string))
      (text topic : string) :
  In topic (matching table text) -> In topic (map fst table).
Proof.
  induction table as [|[t ws] r IH]; cbn [matching map fst In]; [tauto|].
  destruct (any_in ws text); cbn [In]; tauto.
Qed.

Lemma matching_NoDup (table : list (string * list string)) (text : string) :
  NoDup (map fst table) -> NoDup (matching table text).
Proof.
  induction table as [|[t ws] r IH]; cbn [matching map fst]; intros H;
    [constructor|].
  inversion H as [|x l Hx Hl]; subst.
  destruct (any_in ws text); [|apply IH; exact Hl].
  constructor; [|apply IH; exact Hl].
  intros I. apply Hx. eapply matching_topics. exact I.
Qed.

Lemma keywords_NoDup : NoDup (map fst keywords).
Proof.
  unfold keywords. cbn [map fst].
  repeat (apply NoDup_cons; [cbn [In]; intuition discriminate|]).
  apply NoDup_nil.
Qed.

(** X14.  The topics returned are exactly the table's topics that have one
    of their words in the text, each once; "general" is returned exactly
    when no word of the table is in the text, and then the result is the
    list of "general" alone.  The result is never empty. *)
Theorem extract_topics_spec (text topic : string) :
  (In topic (extract_topics text)
   <-> (exists words word,
           In (topic, words) keywords /\ In word words
           /\ PyStr.contains word text = true)
       \/ (topic = "general"
           /\ forall t words word,
                In (t, words) keywords -> In word words ->
                PyStr.contains word text = false))
  /\ (extract_topics text = ["general"]
      <-> forall t words word,
            In (t, words) keywords -> In word words ->
            PyStr.contains word text = false)
  /\ extract_topics text <> []
  /\ NoDup (extract_topics text).
Proof.
  assert (forall t, In t (matching keywords text)
                    <-> exists words word,
                        In (t, words) keywords /\ In word words
                        /\ PyStr.contains word text = true) as M.
  { intros t. rewrite matching_In. split.
    - intros (words & I & A). apply any_in_spec in A.
      destruct A as (word & W & C). exists words, word. auto.
    - intros (words & word & I & W & C). exists words. split; [exact I|].
      apply any_in_spec. exists word. auto. }
  pose proof (matching_NoDup keywords text keywords_NoDup) as ND.
  unfold extract_topics.
  destruct (matching keywords text) as [|t0 r] eqn:E.
  - assert (forall t words word,
               In (t, words) keywords -> In word words ->
               PyStr.contains word text = false) as None.
    { intros t words word I W.
      destruct (PyStr.contains word text) eqn:C; [|reflexivity].
      exfalso. apply (proj2 (M t)). exists words, word. auto. }
    split; [|split; [|split]].
    + cbn [In]. split.
      * intros [<-|[]]. right. split; [reflexivity | exact None].
      * intros [H|(-> & _)]; [|left; reflexivity].
        exfalso. apply (proj2 (M topic)). exact H.
    + split; [intros _; exact None | reflexivity].
    + discriminate.
    + repeat constructor. intros [].
  - assert (exists words word,
               In (t0, words) keywords /\ In word words
               /\ PyStr.contains word text = true) as Some0
        by (apply M; left; reflexivity).
    split; [|split; [|split]].
    + rewrite M. split; [tauto|].
      intros [H|(-> & None)]; [exact H|].
      exfalso. destruct Some0 as (words & word & I & W & C).
      rewrite (None _ _ _ I W) in C. discriminate C.
    + split.
      * intros H. injection H as -> ->. exfalso.
        destruct Some0 as (words & word & I & _).
        exact (general_not_topic words I).
      * intros None. exfalso. destruct Some0 as (words & word & I & W & C).
        rewrite (None _ _ _ I W) in C. discriminate C.
    + discriminate.
    + exact ND.
Qed.

(** X15.  Text around a review never loses a topic. *)
Theorem extract_topics_grows (pre text post topic : string) :
  In topic (extract_topics text) -> topic <> "general" ->
  In topic (extract_topics (pre ++ text ++ post)).
Proof.
  intros H N. apply extract_topics_matching; [exact N|].
  apply extract_topics_matching in H; [|exact N].
  apply matching_In in H. destruct H as (words & I & A).
  apply matching_In. exists words. split; [exact I|].
  apply any_in_spec in A. destruct A as (word & W & C).
  apply any_in_spec. exists word. split; [exact W|].
  apply contains_app_l, contains_app_r. exact C.
Qed.

Lemma extract_topics_grows_witness :
  In "pricing" (extract_topics ("Great value" ++ ", but late")).
Proof.
  apply (extract_topics_grows "" "Great value" ", but late" "pricing").
  - vm_compute. tauto.
  - discriminate.
Defined.

(** X16.  The insights handler lowers the text first; that never loses a
    topic either. *)
Theorem lowered_text_keeps_topics (text topic : string) :
  In topic (extract_topics text) -> topic <> "general" ->
  In topic (extract_topics (PyStr.lower text)).
Proof.
  intros H N. apply extract_topics_matching; [exact N|].
  apply extract_topics_matching in H; [|exact N].
  apply matching_In in H. destruct H as (words & I & A).
  apply matching_In. exists words. split; [exact I|].
  apply any_in_spec in A. destruct A as (word & W & C).
  apply any_in_spec. exists word. split; [exact W|].
  rewrite <- (keywords_lower topic words word I W).
  apply contains_lower. exact C.
Qed.

Lemma lowered_text_keeps_topics_witness :
  In "quality" (extract_topics (PyStr.lower "Real talent, PROFESSIONAL work")).
Proof.
  apply lowered_text_keeps_topics.
  - vm_compute. tauto.
  - discriminate.
Defined.

Lemma matching_length (table : list (string * list string)) (text : string) :
  (List.length (matching table text) <= List.length table)%nat.
Proof.
  induction table as [|[t ws] r IH]; cbn [matching List.length]; [lia|].
  destruct (any_in ws text); cbn [List.length]; lia.
Qed.

Lemma extract_topics_length (text : string) :
  (1 <= List.length (extract_topics text) <= 5)%nat.
Proof.
  unfold extract_topics. pose proof (matching_length keywords text) as L.
  change (List.length keywords) with 5%nat in L.
  destruct (matching keywords text); cbn [List.length] in *; lia.
Qed.

Lemma held_append_to (k : string) (v : float) (d : lists) :
  held (append_to k v d) = S (held d).
Proof.
  induction d as [|[k' l] r IH]; cbn [append_to held]; [reflexivity|].
  destruct (String.eqb k k'); cbn [held].
  - rewrite length_app. cbn [List.length]. lia.
  - rewrite IH. lia.
Qed.

Lemma held_fold (score : float) (topics : list string) (d : lists) :
  held (fold_left (fun d topic => append_to topic score d) topics d)
  = (List.length topics + held d)%nat.
Proof.
  revert d. induction topics as [|t r IH]; intros d; cbn [fold_left List.length];
    [reflexivity|].
  rewrite IH, held_append_to. lia.
Qed.

Lemma collect_held (reviews : list Review) (trends topics trends' topics' : lists) :
  collect reviews trends topics = Some (trends', topics') ->
  held trends' = (List.length reviews + held trends)%nat
  /\ (List.length reviews + held topics <= held topics'
      <= 5 * List.length reviews + held topics)%nat.
Proof.
  revert trends topics.
  induction reviews as [|review r IH]; intros trends topics; cbn [collect].
  - intros H. injection H as <- <-. cbn [List.length]. lia.
  - destruct (sentiment_score review) as [score|]; [|discriminate].
    intros H. apply IH in H. rewrite held_append_to, held_fold in H.
    pose proof (extract_topics_length (PyStr.lower (review_text review))).
    cbn [List.length]. lia.
Qed.

Lemma sum_counts (sum : list float -> float) (d : lists) :
  fold_right Z.add 0
    (map (fun e : string * TopicData => review_count (snd e))
         (map (fun '(topic, scores) =>
                 (topic, mkTopicData (average sum scores)
                                     (Z.of_nat (List.length scores)))) d))
  = Z.of_nat (held d).
Proof.
  induction d as [|[k l] r IH]; cbn [map fold_right held snd review_count];
    [reflexivity|].
  rewrite IH. lia.
Qed.

(** X17.  In the insights every review is counted under at least one topic
    and at most five: the review counts of the topics add up to between
    the number of reviews and five times that number. *)
Theorem topic_counts_cover_reviews (sum : list float -> float)
        (reviews : list Review) (body : InsightsBody) :
  get_sentiment_insights sum reviews = Some body ->
  total_reviews body = Z.of_nat (List.length reviews)
  /\ total_reviews body
     <= fold_right Z.add 0
          (map (fun e => review_count (snd e)) (topic_sentiments body))
  /\ fold_right Z.add 0
          (map (fun e => review_count (snd e)) (topic_sentiments body))
     <= 5 * total_reviews body.
Proof.
  unfold get_sentiment_insights.
  destruct (collect reviews [] []) as [[trends topics]|] eqn:C; [|discriminate].
  intros H. injection H as <-. cbn [total_reviews topic_sentiments].
  rewrite sum_counts. apply collect_held in C. cbn [held] in C. lia.
Qed.

Lemma topic_counts_cover_reviews_witness :
  exists body,
    get_sentiment_insights (fun scores => fold_left add scores (of_int 0))
      [mkReview "2024-03-05T10:00:00" (Some (lit 5 10)) "Great value, on time";
       mkReview "2024-03-06T11:30:00" (Some (lit 0 10)) "Fine"] = Some body
    /\ total_reviews body = 2
    /\ total_reviews body
       <= fold_right Z.add 0
            (map (fun e => review_count (snd e)) (topic_sentiments body)).
Proof.
  eexists. split; [reflexivity|].
  pose proof (topic_counts_cover_reviews
                (fun scores => fold_left add scores (of_int 0))
                [mkReview "2024-03-05T10:00:00" (Some (lit 5 10))
                          "Great value, on time";
                 mkReview "2024-03-06T11:30:00" (Some (lit 0 10)) "Fine"]
                _ eq_refl) as (H1 & H2 & _).
  split; [exact H1 | exact H2].
Defined.

(** X18.  The handler answers exactly when every stored score converts. *)
Theorem insights_fail_on_bad_score (sum : list float -> float)
        (reviews : list Review) :
  get_sentiment_insights sum reviews = None
  <-> exists review, In review reviews /\ sentiment_score review = None.
Proof.
  unfold get_sentiment_insights.
  assert (forall trends topics,
             collect reviews trends topics = None
             <-> exists review, In review reviews /\ sentiment_score review = None)
    as H.
  { induction reviews as [|review r IH]; intros trends topics; cbn [collect In].
    - split; [discriminate | intros (x & [] & _)].
    - destruct (sentiment_score review) as [score|] eqn:S.
      + rewrite IH. split.
        * intros (x & I & N). exists x. auto.
        * intros (x & [<-|I] & N); [congruence|]. exists x. auto.
      + split; [|reflexivity]. intros _. exists review. auto. }
  specialize (H [] []).
  destruct (collect reviews [] []) as [[trends topics]|].
  - split; [discriminate|]. intros E. apply H in E. discriminate E.
  - split; [intros _; apply H; reflexivity | reflexivity].
Qed.

Lemma compare_opp (x y : float) :
  SFcompare (SFopp x) (SFopp y) = SFcompare y x.
Proof.
  destruct x as [sx|sx| |sx mx ex], y as [sy|sy| |sy my ey];
    try destruct sx; try destruct sy; try reflexivity; cbn.
  - rewrite (Z.compare_antisym ey ex).
    destruct (ey ?= ex) eqn:E; cbn; try reflexivity.
    rewrite (Pos.compare_cont_antisym my mx Eq). cbn.
    destruct (Pos.compare_cont Eq my mx); reflexivity.
  - rewrite (Z.compare_antisym ex ey).
    destruct (ex ?= ey) eqn:E; cbn; try reflexivity.
    rewrite (Pos.compare_cont_antisym mx my Eq). cbn.
    destruct (Pos.compare_cont Eq mx my); reflexivity.
Qed.

(** X19.  The thresholds are symmetric: the opposite polarity gets the
    mirrored label. *)
Theorem analyze_sentiment_mirror (polarity : float) :
  analyze_sentiment (Some (SFopp polarity))
  = (mirror (fst (analyze_sentiment (Some polarity))), SFopp polarity).
Proof.
  assert (gt (SFopp polarity) (lit 1 10) = lt polarity (SFopp (lit 1 10))) as E1.
  { unfold gt, lt, SFltb.
    rewrite <- (compare_opp (SFopp (lit 1 10)) polarity). reflexivity. }
  assert (lt (SFopp polarity) (SFopp (lit 1 10)) = gt polarity (lit 1 10)) as E2.
  { unfold gt, lt, SFltb. rewrite compare_opp. reflexivity. }
  unfold analyze_sentiment. rewrite E1, E2.
  destruct (gt polarity (lit 1 10)) eqn:G;
    destruct (lt polarity (SFopp (lit 1 10))) eqn:L; try reflexivity.
  exfalso. apply gt_iff in G. apply lt_iff in L.
  destruct G as (_ & _ & G), L as (_ & _ & L).
  pose proof (rank_lt_trans _ _ _ G L) as C.
  rewrite lit_0_1 in C. simpl in C. lia.
Qed.

Lemma analyze_all_counts (textblob : string -> option float)
      (items : list Feedback) (stats stats' : Stats) (acc acc' : list Analyzed) :
  analyze_all textblob items stats acc = (stats', acc') ->
  n_positive stats' + n_negative stats' + n_neutral stats'
  = n_positive stats + n_negative stats + n_neutral stats
    + Z.of_nat (List.length items)
  /\ List.length acc' = (List.length acc + List.length items)%nat.
Proof.
  revert stats acc. induction items as [|f r IH]; intros stats acc;
    cbn [analyze_all].
  - intros H. injection H as <- <-. cbn [List.length]. lia.
  - destruct (analyze_sentiment _) as [sentiment score].
    intros H. apply IH in H. destruct H as [H1 H2].
    rewrite length_app in H2. cbn [List.length] in *.
    destruct sentiment; cbn [bump n_positive n_negative n_neutral] in H1; lia.
Qed.

(** X20.  Every feedback item gets exactly one label: the three counters
    add up to the number of items, which is also the number of analysed
    entries. *)
Theorem sentiment_stats_total (textblob : string -> option float)
        (feedback_items : list Feedback) :
  let body := analyze_feedback_sentiment textblob feedback_items in
  n_positive (sentiment_stats body) + n_negative (sentiment_stats body)
  + n_neutral (sentiment_stats body) = total_feedback body
  /\ Z.of_nat (List.length (analyzed_feedback body)) = total_feedback body.
Proof.
  unfold analyze_feedback_sentiment.
  destruct (analyze_all _ _ _ _) as [stats analyzed] eqn:E.
  apply analyze_all_counts in E. cbn in E |- *. lia.
Qed.

End InsightsFacts.

(* ================================================================== *)
(** * Properties of the demo pricing endpoint *)

Module DemoPricingFacts.

Import PyFloat Rounding FloatOrder RoundingFacts DemoPricing.

Lemma demo_base_price_cases (k : string) :
  In (Pricing.get k base_prices 500) [1500; 300; 800; 1200; 500].
Proof.
  unfold base_prices. cbn [Pricing.get].
  repeat (destruct (String.eqb k _); [cbn; tauto|]). cbn; tauto.
Qed.

Lemma demo_location_multiplier_Big (location_lower : string) :
  Big (Pricing.first_city location_lower location_multipliers (lit 10 10)).
Proof.
  unfold location_multipliers. cbn [Pricing.first_city].
  repeat (destruct (PyStr.contains _ location_lower); [split; reflexivity|]).
  split; reflexivity.
Qed.

(** The multiplier [max(c, d / y)] is a binary64 value whatever [d] is. *)
Lemma max_div_valid_any (c d : float) (my : positive) (ey : Z) :
  valid c -> lt (S754_zero false) c = true ->
  valid (max c (div d (S754_finite false my ey))).
Proof.
  intros Vc Hc. unfold max.
  destruct (gt _ c) eqn:G; [|exact Vc].
  destruct d as [s|s| |[|] m e]; try reflexivity.
  - exfalso. unfold div, SFdiv in G. cbn [xorb] in G.
    destruct (SFdiv_core_binary _ _ _ _ _ _) as [[mz ez] lz].
    rewrite binary_round_aux_neg in G by exact Hc. discriminate.
  - destruct (div_round_ratio m my e ey) as [-> F].
    apply round_ratio_valid; try lia. exact F.
Qed.

Lemma demo_duration_multiplier_Big (d : float) :
  Big (max (lit 10 10) (div d (lit 20 10))).
Proof.
  change (lit 20 10) with (S754_finite false 4503599627370496 (-51)).
  split.
  - apply max_div_valid_any; reflexivity.
  - apply max_div_ge. reflexivity.
Qed.

(** A rounding with the sign set is negative, a negative zero or no
    number. *)
Lemma binary_round_aux_signed (m e : Z) (l : location) :
  match binary_round_aux prec emax true m e l with
  | S754_zero s | S754_infinity s | S754_finite s _ _ => s = true
  | S754_nan => True
  end.
Proof.
  unfold binary_round_aux.
  destruct (shr_fexp _ _ _ _ _) as [r1 e1].
  destruct (shr_fexp _ _ _ _ _) as [r2 e2].
  destruct (shr_m r2); [|destruct (_ <=? _)|]; cbn; auto.
Qed.

Lemma of_int_nonpositive (n : Z) :
  n <= 0 ->
  gt (div (of_int n) (lit 20 10)) (lit 10 10) = false.
Proof.
  intros Hn. destruct n as [|p|p]; [reflexivity | lia |].
  unfold of_int, binary_normalize, binary_round.
  destruct (shl_align _ _ _) as [mz ez].
  pose proof (binary_round_aux_signed (Z.pos mz) ez loc_Exact) as S.
  destruct (binary_round_aux _ _ _ _ _ _) as [s|s| |s m e]; try subst s;
    try reflexivity.
  change (lit 20 10) with (S754_finite false 4503599627370496 (-51)).
  unfold div, SFdiv. cbn [xorb].
  destruct (SFdiv_core_binary _ _ _ _ _ _) as [[mz' ez'] lz'].
  apply binary_round_aux_neg. reflexivity.
Qed.

(** X21.  Whenever the demo endpoint answers, the final price is at least
    the base price. *)
Theorem demo_price_at_least_base
        (event_type location date duration : option string) (today : string)
        (body : Body) :
  get_dynamic_pricing event_type location date duration today = Some body ->
  le (of_int (base_price body)) (final_price body) = true.
Proof.
  unfold get_dynamic_pricing. cbv zeta.
  destruct (int_arg duration) as [n|]; [|discriminate].
  destruct (float_of_int n) as [f|]; [|discriminate].
  pose proof (demo_base_price_cases (PyStr.lower (arg event_type "wedding")))
    as Cases.
  set (b := Pricing.get _ base_prices 500) in *.
  pose proof (demo_location_multiplier_Big
                (PyStr.lower (arg location "hyderabad"))) as Bl.
  set (loc := Pricing.first_city _ _ _) in *.
  assert (Big (match PyDate.strptime (arg date today) with
               | Some date_obj =>
                   if PyDate.weekday date_obj >=? 5 then lit 12 10 else lit 10 10
               | None => lit 10 10
               end)) as Bd.
  { destruct (PyDate.strptime _) as [d|]; [destruct (_ >=? _)|];
      split; reflexivity. }
  set (dat := match PyDate.strptime _ with Some _ => _ | None => _ end) in *.
  pose proof (demo_duration_multiplier_Big f) as Bu.
  set (dur := max _ _) in *.
  assert (Big (of_int b)) as Bb.
  { clearbody b. cbn [In] in Cases.
    destruct Cases as [<-|[<-|[<-|[<-|[<-|[]]]]]]; split; reflexivity. }
  assert (mul (of_int b) (lit 10 10) = of_int b) as One.
  { clearbody b. cbn [In] in Cases.
    destruct Cases as [<-|[<-|[<-|[<-|[<-|[]]]]]]; reflexivity. }
  assert (round2 (of_int b) = of_int b) as Rb.
  { clearbody b. cbn [In] in Cases.
    destruct Cases as [<-|[<-|[<-|[<-|[<-|[]]]]]]; reflexivity. }
  clearbody b loc dat dur.
  intros H. injection H as <-. cbn [base_price final_price].
  assert (forall c m, Big c -> Big m -> le (of_int b) c = true ->
                      le (of_int b) (mul c m) = true) as Step.
  { intros c m Bc Bm L. rewrite <- One.
    apply mul_lower; try (apply Big_Good; assumption);
      [apply Good_one | exact L | apply Bm]. }
  rewrite <- Rb at 1. apply round2_mono.
  - apply Big_Good, Bb.
  - apply Big_Good. repeat apply mul_Big; assumption.
  - apply Step; [repeat apply mul_Big; assumption | exact Bu |].
    apply Step; [apply mul_Big; assumption | exact Bd |].
    apply Step; [exact Bb | exact Bl |].
    apply le_refl. apply Good_not_nan, Big_Good, Bb.
Qed.

Lemma demo_price_at_least_base_witness :
  exists body,
    get_dynamic_pricing (Some "Portrait") (Some "Chennai") (Some "2024-03-09")
                        (Some "3") "2024-03-01" = Some body
    /\ le (of_int (base_price body)) (final_price body) = true.
Proof.
  eexists. split; [reflexivity|].
  apply (demo_price_at_least_base (Some "Portrait") (Some "Chennai")
           (Some "2024-03-09") (Some "3") "2024-03-01").
  reflexivity.
Defined.

(** X22.  A duration of two hours or less, zero and negative numbers
    included, is accepted and priced at the multiplier 1.0. *)
Theorem demo_short_duration_multiplier
        (event_type location date duration : option string) (today : string)
        (body : Body) :
  get_dynamic_pricing event_type location date duration today = Some body ->
  duration_hours (breakdown body) <= 2 ->
  duration_multiplier (factors body) = lit 10 10.
Proof.
  unfold get_dynamic_pricing. cbv zeta.
  destruct (int_arg duration) as [n|]; [|discriminate].
  destruct (float_of_int n) as [f|] eqn:F; [|discriminate].
  intros H. injection H as <-.
  cbn [breakdown duration_hours factors duration_multiplier]. intros Hn.
  assert (f = of_int n) as ->
      by (unfold float_of_int in F; destruct (of_int n); congruence).
  unfold max.
  assert (gt (div (of_int n) (lit 20 10)) (lit 10 10) = false) as ->;
    [|reflexivity].
  destruct (Z.le_gt_cases n 0) as [L|G]; [apply of_int_nonpositive; exact L|].
  assert (n = 1 \/ n = 2) as [->| ->] by lia; reflexivity.
Qed.

Lemma demo_short_duration_multiplier_witness :
  exists body,
    get_dynamic_pricing (Some "event") (Some "Pune") (Some "2024-03-05")
                        (Some "-4") "2024-03-01" = Some body
    /\ duration_multiplier (factors body) = lit 10 10.
Proof.
  eexists. split; [reflexivity|].
  apply (demo_short_duration_multiplier (Some "event") (Some "Pune")
           (Some "2024-03-05") (Some "-4") "2024-03-01").
  - reflexivity.
  - vm_compute. discriminate.
Defined.

End DemoPricingFacts.

(* ================================================================== *)
(** * Properties of registration and login *)

Module AccountsFacts.

Import Accounts.

Lemma find_store_same (email : string) (u : User) (db : users) :
  find email (store email u db) = Some u.
Proof.
  induction db as [|[k u'] r IH]; cbn [store find].
  - rewrite String.eqb_refl. reflexivity.
  - destruct (String.eqb email k) eqn:E; cbn [find].
    + rewrite String.eqb_refl. reflexivity.
    + rewrite E. exact IH.
Qed.

Lemma find_store_other (email k : string) (u : User) (db : users) :
  k <> email -> find k (store email u db) = find k db.
Proof.
  intros N. induction db as [|[k0 u0] r IH]; cbn [store find].
  - destruct (String.eqb_spec k email); [contradiction | reflexivity].
  - destruct (String.eqb_spec email k0) as [->|N0]; cbn [find].
    + destruct (String.eqb_spec k k0); [contradiction | reflexivity].
    + destruct (String.eqb k k0); [reflexivity | exact IH].
Qed.

(** X23.  Registering and then logging in with the same e-mail address and
    password opens a session, and the session carries the role the form
    asked for, "admin" included. *)
Theorem register_then_login
        (generate_password_hash : string -> string)
        (check_password_hash : string -> string -> bool)
        (uuid now username email password : string) (role : option string)
        (db : users) (session : option Visitor) :
  (forall p, check_password_hash (generate_password_hash p) p = true) ->
  username <> "" -> email <> "" -> password <> "" ->
  find email db = None ->
  exists flash db',
    register generate_password_hash uuid now
             (Some (mkRegisterForm (Some username) (Some email)
                                   (Some password) role)) db
    = (flash, redirect login_page, db')
    /\ exists welcome,
        login check_password_hash
              (Some (mkLoginForm (Some email) (Some password))) db' session
        = (welcome, redirect dashboard,
           Some (mkVisitor uuid username email
                           (Orchestrator.or_default role "client"))).
Proof.
  intros Hc Nu Ne Np Hf. unfold register, login.
  cbn [reg_username reg_email reg_password reg_role log_email log_password].
  unfold Orchestrator.filled.
  apply String.eqb_neq in Nu, Ne, Np. rewrite Nu, Ne, Np. cbn [negb andb].
  rewrite Hf. do 2 eexists. split; [reflexivity|].
  rewrite find_store_same. cbn [u_is_active u_password negb].
  rewrite Hc. eexists. reflexivity.
Qed.

Lemma register_then_login_witness :
  exists flash db' welcome,
    register (fun p => p) "u7" "2024-03-01T08:00:00"
             (Some (mkRegisterForm (Some "Mallory") (Some "m@example.com")
                                   (Some "secret") (Some "admin"))) []
    = (flash, redirect login_page, db')
    /\ login String.eqb
             (Some (mkLoginForm (Some "m@example.com") (Some "secret"))) db' None
       = (welcome, redirect dashboard,
          Some (mkVisitor "u7" "Mallory" "m@example.com" "admin")).
Proof.
  destruct (register_then_login (fun p => p) String.eqb "u7"
              "2024-03-01T08:00:00" "Mallory" "m@example.com" "secret"
              (Some "admin") [] None)
    as (flash & db' & R & welcome & L).
  - intros p. apply String.eqb_refl.
  - discriminate.
  - discriminate.
  - discriminate.
  - reflexivity.
  - exists flash, db', welcome. split; [exact R | exact L].
Defined.

(** X24.  Registration never touches an account that exists: whatever is
    posted, every e-mail address already registered keeps its user. *)
Theorem register_keeps_accounts
        (generate_password_hash : string -> string) (uuid now : string)
        (post : option RegisterForm) (db : users) (email : string) (u : User) :
  find email db = Some u ->
  find email (snd (register generate_password_hash uuid now post db)) = Some u.
Proof.
  intros Hf. unfold register.
  destruct post as [data|]; [|exact Hf].
  destruct (reg_username data) as [username|]; [|exact Hf].
  destruct (reg_email data) as [e|]; [|exact Hf].
  destruct (reg_password data) as [password|]; [|exact Hf].
  destruct (negb _); [exact Hf|].
  destruct (find e db) as [u'|] eqn:F; [exact Hf|].
  cbn [snd]. rewrite find_store_other; [exact Hf|].
  intros ->. congruence.
Qed.

Lemma register_keeps_accounts_witness :
  find "a@example.com"
       (snd (register (fun p => p) "u8" "2024-03-01T08:00:00"
               (Some (mkRegisterForm (Some "Eve") (Some "a@example.com")
                                     (Some "guess") (Some "admin")))
               [("a@example.com",
                 mkUser "u1" "a@example.com" "Asha" "pw" "client"
                        "2024-01-01T00:00:00" true)]))
  = Some (mkUser "u1" "a@example.com" "Asha" "pw" "client"
                 "2024-01-01T00:00:00" true).
Proof.
  apply register_keeps_accounts. reflexivity.
Defined.

(** X25.  A login changes the session only for an active user whose stored
    hash accepts the password; the session then holds that user's
    identifier, name, address and role. *)
Theorem login_sound (check_password_hash : string -> string -> bool)
        (post : option LoginForm) (db : users) (session : option Visitor) :
  let '(_, reply, session') := login check_password_hash post db session in
  session' = session /\ reply = render_template "login.html"
  \/ exists email password user,
       post = Some (mkLoginForm (Some email) (Some password))
       /\ find email db = Some user
       /\ u_is_active user = true
       /\ check_password_hash (u_password user) password = true
       /\ reply = redirect dashboard
       /\ session' = Some (mkVisitor (u_user_id user) (u_username user)
                                     (u_email user) (u_role user)).
Proof.
  unfold login. destruct post as [[e p]|]; [|left; auto].
  cbn [log_email log_password].
  destruct e as [email|]; [|left; auto].
  destruct p as [password|]; [|left; auto].
  destruct (negb _); [left; auto|].
  destruct (find email db) as [user|] eqn:F; [|left; auto].
  destruct (u_is_active user) eqn:A; cbn [negb]; [|left; auto].
  destruct (check_password_hash _ _) eqn:C; [|left; auto].
  right. exists email, password, user. auto 10.
Qed.

End AccountsFacts.

(* ================================================================== *)
(** * Properties of the routes and the dashboards *)

Module RoutesFacts.

Import Accounts Routes Store.

(** X26.  No redirect loop: from every page of either application a browser
    is shown a template after at most three redirects. *)
Theorem redirects_settle (e : Endpoint) (session : option Visitor) :
  (exists template session',
      follow app 3 e session = Some (template, session'))
  /\ (exists template session',
         follow demo 3 e session = Some (template, session')).
Proof.
  split; destruct session as [[uid name mail role]|]; destruct e;
    settle role; do 2 eexists; reflexivity.
Qed.

Lemma render_admin (routes : Endpoint -> View) (e : Endpoint)
      (session session' : option Visitor) :
  routes = app \/ routes = demo ->
  routes e session = (render_template "admin_dashboard.html", session') ->
  exists v, session = Some v /\ v_user_role v = "admin".
Proof.
  intros [-> | ->]; destruct session as [[uid name mail role]|]; destruct e;
    settle role; intros H; try discriminate H;
    (eexists; split; [reflexivity|]; cbn [v_user_role];
     apply String.eqb_eq; assumption).
Qed.

Lemma redirect_keeps_session (routes : Endpoint -> View) (e e' : Endpoint)
      (session session' : option Visitor) :
  routes = app \/ routes = demo ->
  routes e session = (redirect e', session') ->
  (exists v, session' = Some v /\ v_user_role v = "admin") ->
  exists v, session = Some v /\ v_user_role v = "admin".
Proof.
  intros [-> | ->]; destruct session as [[uid name mail role]|]; destruct e;
    settle role; intros H; try discriminate H;
    injection H as _ <-; intros (v & E & Hv); try discriminate E;
    exists v; split; assumption.
Qed.

(** X27.  The admin dashboard is shown to administrators only: if following
    the redirects from any page ends on its template, the session holds
    the role "admin". *)
Theorem admin_page_for_admins_only (hops : nat) (e : Endpoint)
        (session session' : option Visitor) :
  follow app hops e session = Some ("admin_dashboard.html", session')
  \/ follow demo hops e session = Some ("admin_dashboard.html", session') ->
  exists v, session = Some v /\ v_user_role v = "admin".
Proof.
  assert (forall routes, routes = app \/ routes = demo ->
            forall hops e session,
              follow routes hops e session = Some ("admin_dashboard.html", session') ->
              exists v, session = Some v /\ v_user_role v = "admin") as H.
  { clear. intros routes Hr hops'.
    induction hops' as [|n IH]; intros e session; cbn [follow];
      destruct (routes e session) as [[template|e'] s'] eqn:R;
      try discriminate.
    - intros H. injection H as -> ->.
      eapply render_admin; eassumption.
    - intros H. injection H as -> ->.
      eapply render_admin; eassumption.
    - intros H. apply IH in H.
      eapply redirect_keeps_session; eassumption. }
  intros [F|F].
  - exact (H app (or_introl eq_refl) _ _ _ F).
  - exact (H demo (or_intror eq_refl) _ _ _ F).
Qed.

Lemma admin_page_for_admins_only_witness :
  exists v,
    Some (mkVisitor "u3" "Admin" "admin@demo.com" "admin") = Some v
    /\ v_user_role v = "admin".
Proof.
  apply (admin_page_for_admins_only 3 dashboard _
           (Some (mkVisitor "u3" "Admin" "admin@demo.com" "admin"))).
  left. reflexivity.
Defined.

(** X28.  Without a session every page leads to a public template. *)
Theorem anonymous_sees_public (e : Endpoint) :
  (exists template,
      follow app 3 e None = Some (template, None)
      /\ In template ["index.html"; "register.html"; "login.html"])
  /\ (exists template,
         follow demo 3 e None = Some (template, None)
         /\ In template ["index.html"; "register.html"; "login.html"]).
Proof.
  split; destruct e; cbn; eexists; (split; [reflexivity|]); cbn; tauto.
Qed.

(** X29.  The bookings that stand in the way of a request for a photographer
    and a date are exactly the bookings of that date on the photographer's
    dashboard, pending or confirmed. *)
Theorem blocking_bookings_on_dashboard (user_id : string)
        (event_date : option string) (db : bookings) (b : Booking) :
  In b (filter (Orchestrator.same_day (Some user_id) event_date) (values db))
  <-> (In b (pending_bookings user_id db) \/ In b (confirmed_bookings user_id db))
      /\ opt_eqb (Store.event_date b) event_date = true.
Proof.
  unfold pending_bookings, confirmed_bookings, with_status,
    Orchestrator.same_day, active.
  rewrite !filter_In.
  destruct (opt_eqb (photographer_id b) (Some user_id));
    destruct (opt_eqb (Store.event_date b) event_date);
    destruct (opt_eqb (booking_status b) (Some "confirmed"));
    destruct (opt_eqb (booking_status b) (Some "pending"));
    cbn [andb orb]; intuition discriminate.
Qed.

(** X30.  An accepted request shows up at once on the client's dashboard
    and among the photographer's pending bookings. *)
Theorem accepted_booking_on_dashboards
        (session : Orchestrator.Session) (uuid now photographer_id : string)
        (data : Orchestrator.ApiRequest) (db db' : bookings) (id : string) :
  Orchestrator.book_photographer_api (Some session) uuid now data db
  = (Orchestrator.Success200 id, db') ->
  Orchestrator.r_photographer_id data = Some photographer_id ->
  exists b,
    lookup id db' = Some b
    /\ In b (user_bookings (Orchestrator.s_user_id session) db')
    /\ In b (pending_bookings photographer_id db').
Proof.
  intros H Hp. unfold Orchestrator.book_photographer_api in H.
  destruct (Orchestrator.int_duration _) as [d|]; [|discriminate].
  destruct (filter _ (values db)) as [|c cs]; [|discriminate].
  injection H as <- <-. eexists.
  split; [apply OrchestratorMore.lookup_put_same|].
  unfold user_bookings, pending_bookings, with_status. rewrite !filter_In.
  split; (split; [apply OrchestratorMore.In_values_put|]).
  - cbn [Store.user_id]. apply String.eqb_refl.
  - cbn [Store.photographer_id booking_status]. rewrite Hp. cbn [opt_eqb].
    rewrite !String.eqb_refl. reflexivity.
Qed.

Lemma accepted_booking_on_dashboards_witness :
  exists b,
    In b (user_bookings "u1"
            (snd (Orchestrator.book_photographer_api
                    (Some Orchestrator.client) "b2" "2024-03-02T09:30:00"
                    (Orchestrator.mkApiRequest (Some "p1") (Some "2024-03-05")
                                               (Some "14:00")
                                               (Orchestrator.Number 2)) [])))
    /\ In b (pending_bookings "p1"
               (snd (Orchestrator.book_photographer_api
                       (Some Orchestrator.client) "b2" "2024-03-02T09:30:00"
                       (Orchestrator.mkApiRequest (Some "p1") (Some "2024-03-05")
                                                  (Some "14:00")
                                                  (Orchestrator.Number 2)) []))).
Proof.
  destruct (accepted_booking_on_dashboards Orchestrator.client "b2"
              "2024-03-02T09:30:00" "p1"
              (Orchestrator.mkApiRequest (Some "p1") (Some "2024-03-05")
                                         (Some "14:00") (Orchestrator.Number 2))
              [] _ "b2" eq_refl eq_refl) as (b & _ & U & P).
  exists b. split; [exact U | exact P].
Defined.

End RoutesFacts.
